(** * Genesis: the testnet orchestrator, embedded and checked against its specification

    The Go sources are embedded shallowly, package by package:
    [Go] (the fragments of the language and of its standard library the code
    relies on), [json], [db], [state], [ssh], [testnet], [helpers],
    [tendermint] and [rest].  Theorems about the embedding follow the
    definitions. *)

From Stdlib Require Import ZArith Lia Permutation Sorted Ascii.
From stdpp Require Import base list strings pretty sorting gmap.

Local Open Scope Z_scope.

(** ** The Go fragment *)

Module Go.

(** [error]: [None] is Go's [nil], [Some msg] an error carrying [msg]. *)
Definition error := option string.

(** A call either returns or panics. *)
Inductive outcome (A : Type) : Type :=
| Panic (msg : string)
| Ret (a : A).
Arguments Panic {A} msg.
Arguments Ret {A} a.

Definition bind {A B} (m : outcome A) (k : A -> outcome B) : outcome B :=
  match m with
  | Panic msg => Panic msg
  | Ret a => k a
  end.

(** [int] on a 64-bit target: two's complement wrap-around. *)
Definition wrap (z : Z) : Z := (z + 2 ^ 63) mod 2 ^ 64 - 2 ^ 63.
Definition add (a b : Z) : Z := wrap (a + b).
Definition in_int (z : Z) : Prop := - 2 ^ 63 <= z < 2 ^ 63.

(** A slice seen through its elements; [None] is the nil slice, which Go
    tells apart from an empty one. *)
Definition slice (A : Type) := option (list A).

Definition elems {A} (s : slice A) : list A := default [] s.
Definition len {A} (s : slice A) : Z := Z.of_nat (length (elems s)).
Definition is_nil {A} (s : slice A) : bool :=
  match s with None => true | Some _ => false end.
Definition append {A} (s : slice A) (x : A) : slice A := Some (elems s ++ [x]).

(** The most the allocator of a 64-bit target hands out at once
    ([maxAlloc], 48 bits of address space), and the sizes in bytes of the
    element types the code makes slices of. *)
Definition maxAlloc : Z := 2 ^ 48.
Definition sizeof_int : Z := 8.
Definition sizeof_string : Z := 16.
Definition sizeof_map : Z := 8.

(** [make([]T, n)] for elements of [size] bytes: [n] zero values. The
    runtime ([makeslice]) panics on a negative length and on one whose
    [size * n] bytes are above [maxAlloc]. Below that limit the memory is
    taken to be there: a machine that cannot serve the request ends the
    process altogether. *)
Definition make {A} (size : Z) (zero : A) (n : Z) : outcome (slice A) :=
  if (n <? 0) || (maxAlloc <? size * n) then Panic "makeslice: len out of range"
  else Ret (Some (replicate (Z.to_nat n) zero)).

(** [s[i]] with its bounds check. *)
Definition index {A} (s : slice A) (i : nat) : outcome A :=
  match elems s !! i with
  | Some x => Ret x
  | None => Panic "index out of range"
  end.

(** A map value: [None] is the nil map. *)
Definition gomap := option (gmap string string).

(** [strings.HasPrefix] on the bytes of the string. *)
Fixpoint HasPrefix (s p : string) : bool :=
  match p, s with
  | EmptyString, _ => true
  | String c p', String d s' => if Ascii.eqb c d then HasPrefix s' p' else false
  | String _ _, EmptyString => false
  end.

(** [strings.Count(s, substr)] for a non-empty [substr]: the number of
    non-overlapping occurrences, found left to right.  [skip] counts the
    bytes of the last match still to be stepped over. *)
Fixpoint count_from (substr : string) (skip : nat) (s : string) : nat :=
  match s with
  | EmptyString => 0%nat
  | String _ s' =>
      match skip with
      | S k => count_from substr k s'
      | O => if HasPrefix s substr
             then S (count_from substr (String.length substr - 1) s')
             else count_from substr 0 s'
      end
  end.

(** For the empty [substr] Go answers one more than the number of runes;
    the commands handled here are ASCII, one byte per rune. *)
Definition Count (s substr : string) : nat :=
  match substr with
  | EmptyString => S (String.length s)
  | _ => count_from substr 0 s
  end.

(** [strings.Join]. *)
Fixpoint Join (l : list string) (sep : string) : string :=
  match l with
  | [] => EmptyString
  | [x] => x
  | x :: l' => x +:+ sep +:+ Join l' sep
  end.

(** Slices that share storage. [array] is the backing array, as long as
    its capacity; a [window] is a slice header on it (offset and length,
    the capacity reaching to the end of the array). *)
Record window := mkWindow { off : nat; wlen : nat }.

Definition view {A} (array : list A) (w : window) : list A :=
  take (wlen w) (drop (off w) array).

(** [s[:hi]]: allowed up to the capacity. *)
Definition slice_to {A} (array : list A) (w : window) (hi : nat) : outcome window :=
  if decide (off w + hi ≤ length array)%nat then Ret (mkWindow (off w) hi)
  else Panic "slice bounds out of range".

(** [s[lo:]]: allowed up to the length. *)
Definition slice_from (w : window) (lo : nat) : outcome window :=
  if decide (lo ≤ wlen w)%nat then Ret (mkWindow (off w + lo) (wlen w - lo))
  else Panic "slice bounds out of range".

(** [append(s, xs...)]: when the capacity of [s] suffices the elements
    are written behind it into the shared array, otherwise they go with
    a copy of [s] to a new array and the shared one stays as it is.
    Answers the shared array afterwards and the elements of the result. *)
Definition append_all {A} (array : list A) (w : window) (xs : list A)
  : list A * list A :=
  let last := (off w + wlen w)%nat in
  if decide (last + length xs ≤ length array)%nat
  then (take last array ++ xs ++ drop (last + length xs) array, view array w ++ xs)
  else (array, view array w ++ xs).

(** [append(s, xs...)] with the header of the result: the shared array
    afterwards, then the array the result lives on and its header. A new
    array is modelled as long as the result; what capacity the runtime
    gives it beyond that is not. *)
Definition append_to {A} (array : list A) (w : window) (xs : list A)
  : list A * (list A * window) :=
  let last := (off w + wlen w)%nat in
  if decide (last + length xs ≤ length array)%nat
  then let array' := take last array ++ xs ++ drop (last + length xs) array in
       (array', (array', mkWindow (off w) (wlen w + length xs)))
  else (array, (view array w ++ xs, mkWindow 0 (wlen w + length xs))).

(** [fmt.Sprintf] on string and int operands, for the verbs [%s], [%d]
    and [%v] without flags and for [%%]. A verb that finds no operand
    left is written as [%!d(MISSING)], one that meets an operand of the
    wrong type as [%!d(string=...)], and the operands no verb has taken
    are listed behind the text. *)
Inductive operand : Type :=
| OStr (s : string)
| OInt (n : Z).

Definition show (o : operand) : string :=
  match o with
  | OStr s => s
  | OInt n => pretty n
  end.

Definition typed (o : operand) : string :=
  match o with
  | OStr s => "string=" +:+ s
  | OInt n => "int=" +:+ pretty n
  end.

Definition fits (c : ascii) (o : operand) : bool :=
  match o with
  | OStr _ => Ascii.eqb c "s" || Ascii.eqb c "v"
  | OInt _ => Ascii.eqb c "d" || Ascii.eqb c "v"
  end.

Definition verb (c : ascii) (o : option operand) : string :=
  match o with
  | None => "%!" +:+ String c "(MISSING)"
  | Some o => if fits c o then show o else "%!" +:+ String c ("(" +:+ typed o +:+ ")")
  end.

Definition extra (args : list operand) : string :=
  match args with
  | [] => EmptyString
  | _ => "%!(EXTRA " +:+ Join (typed <$> args) ", " +:+ ")"
  end.

Fixpoint Sprintf (format : string) (args : list operand) : string :=
  match format with
  | EmptyString => extra args
  | String c rest =>
      if Ascii.eqb c "%" then
        match rest with
        | EmptyString => "%!(NOVERB)" +:+ extra args
        | String v rest' =>
            if Ascii.eqb v "%" then String "%" (Sprintf rest' args)
            else verb v (head args) +:+ Sprintf rest' (tail args)
        end
      else String c (Sprintf rest args)
  end.

End Go.

#[export] Instance outcome_ret : MRet Go.outcome := @Go.Ret.
#[export] Instance outcome_bind : MBind Go.outcome := fun A B k m => Go.bind m k.

(** ** encoding/json, as far as a struct round trip needs it *)

Module json.

#[local] Set Warnings "-register-all".

Inductive Json : Type :=
| JNull
| JNum (n : Z)
| JStr (s : string)
| JArr (l : list Json)
| JObj (kv : list (string * Json)).

Fixpoint field (k : string) (kv : list (string * Json)) : option Json :=
  match kv with
  | [] => None
  | (k', v) :: kv' => if String.eqb k k' then Some v else field k kv'
  end.

(** *** Strings

    A string is written as valid UTF-8. [rune_len s] is the length of
    the well-formed encoding that begins [s], 0 when none does
    ([utf8.DecodeRuneInString] answering [RuneError] with width 1). *)
Definition within (lo hi : N) (c : ascii) : bool :=
  ((lo <=? N_of_ascii c) && (N_of_ascii c <=? hi))%N.

Definition rune_len (s : string) : nat :=
  match s with
  | EmptyString => 0
  | String c0 s1 =>
      if within 0 127 c0 then 1
      else
        match s1 with
        | EmptyString => 0
        | String c1 s2 =>
            if within 194 223 c0 then (if within 128 191 c1 then 2 else 0)
            else
              match s2 with
              | EmptyString => 0
              | String c2 s3 =>
                  if within 224 239 c0 then
                    if (if within 224 224 c0 then within 160 191 c1
                        else if within 237 237 c0 then within 128 159 c1
                        else within 128 191 c1)
                       && within 128 191 c2
                    then 3 else 0
                  else
                    match s3 with
                    | EmptyString => 0
                    | String c3 _ =>
                        if within 240 244 c0
                           && (if within 240 240 c0 then within 144 191 c1
                               else if within 244 244 c0 then within 128 143 c1
                               else within 128 191 c1)
                           && within 128 191 c2 && within 128 191 c3
                        then 4 else 0
                    end
              end
        end
  end%nat.

(** U+FFFD in UTF-8. *)
Definition replacement : string :=
  String (ascii_of_nat 239) (String (ascii_of_nat 191) (String (ascii_of_nat 189) EmptyString)).

(** The string as [Marshal] writes it and a decoder reads it back: a
    byte that begins no well-formed encoding is replaced by U+FFFD.
    [skip] counts the bytes of the encoding under way. *)
Fixpoint coerce_from (skip : nat) (s : string) : string :=
  match s with
  | EmptyString => EmptyString
  | String c s' =>
      match skip with
      | S k => String c (coerce_from k s')
      | O =>
          match rune_len s with
          | O => replacement +:+ coerce_from 0 s'
          | S k => String c (coerce_from k s')
          end
      end
  end.

Definition coerce (s : string) : string := coerce_from 0 s.

(** A string of ASCII bytes. *)
Fixpoint plain (s : string) : bool :=
  match s with
  | EmptyString => true
  | String c s' => within 0 127 c && plain s'
  end.

(** A map of ASCII keys and values. *)
Definition plain_map (m : gmap string string) : Prop :=
  map_Forall (fun k v => plain k = true ∧ plain v = true) m.

(** A file map of ASCII text, or the nil one. *)
Definition plain_file (f : Go.gomap) : Prop :=
  match f with
  | Some m => plain_map m
  | None => True
  end.

(** *** Encoders

    A nil slice or map is written as [null]; the entries of a map are
    written in the order of their keys. *)
Definition key_le {V} (a b : string * V) : Prop := String.leb a.1 b.1 = true.

#[export] Instance key_le_dec {V} : RelDecision (@key_le V) :=
  fun a b => decide (String.leb a.1 b.1 = true).

Definition entries {V} (m : gmap string V) : list (string * V) :=
  merge_sort key_le (map_to_list m).

Definition enc_slice {A} (f : A -> Json) (s : Go.slice A) : Json :=
  match s with
  | None => JNull
  | Some l => JArr (map f l)
  end.

Definition enc_str (s : string) : Json := JStr (coerce s).

Definition enc_strmap (m : Go.gomap) : Json :=
  match m with
  | None => JNull
  | Some m => JObj (map (fun kv => (coerce kv.1, enc_str kv.2)) (entries m))
  end.

(** The values of an untyped map are kept as the documents [Marshal]
    writes for them. *)
Definition enc_anymap (m : option (gmap string Json)) : Json :=
  match m with
  | None => JNull
  | Some m => JObj (map (fun kv => (coerce kv.1, kv.2)) (entries m))
  end.

(** *** Decoders

    Each takes the value the target holds and the document, and answers
    the value the target holds afterwards and whether the document
    fitted the type; where it does not fit, the target keeps what it
    held and the decoder goes on. [null] leaves a number or a string as
    it is and turns a slice or a map into nil. *)
Definition dec_int (old : Z) (j : Json) : Z * bool :=
  match j with
  | JNull => (old, true)
  | JNum n => (n, true)
  | _ => (old, false)
  end.

Definition dec_str (old : string) (j : Json) : string * bool :=
  match j with
  | JNull => (old, true)
  | JStr s => (s, true)
  | _ => (old, false)
  end.

(** An array is decoded element by element into the elements the slice
    holds, and into zero values behind them. *)
Fixpoint dec_elems {A} (zero : A) (dec : A -> Json -> A * bool) (old : list A)
    (l : list Json) : list A * bool :=
  match l with
  | [] => ([], true)
  | j :: l' =>
      let a := dec (hd zero old) j in
      let r := dec_elems zero dec (tl old) l' in
      (a.1 :: r.1, a.2 && r.2)
  end.

Definition dec_slice {A} (zero : A) (dec : A -> Json -> A * bool) (old : Go.slice A)
    (j : Json) : Go.slice A * bool :=
  match j with
  | JNull => (None, true)
  | JArr l => let r := dec_elems zero dec (Go.elems old) l in (Some r.1, r.2)
  | _ => (old, false)
  end.

(** The elements of a slice share their array with every header taken
    of it before: [seen_through] is what such a header on [old] shows
    once the array [l] has been decoded into the slice. *)
Fixpoint seen_through {A} (dec : A -> Json -> A * bool) (old : list A) (l : list Json)
  : list A :=
  match old, l with
  | a :: old', j :: l' => (dec a j).1 :: seen_through dec old' l'
  | _, _ => old
  end.

(** A JSON object read into a [map[string]string]: the entries are
    stored one by one into the map the target holds, a fresh one when it
    is nil; a value that is no string is stored as the empty string. *)
Definition dec_strmap (old : Go.gomap) (j : Json) : Go.gomap * bool :=
  match j with
  | JNull => (None, true)
  | JObj kv =>
      (Some (foldl (fun m e => <[e.1 := (dec_str EmptyString e.2).1]> m) (default ∅ old) kv),
       forallb (fun e => (dec_str EmptyString e.2).2) kv)
  | _ => (old, false)
  end.

(** The number a [float64] holds for the integer [n]: [n] itself up to
    53 bits, beyond them the nearest number of 53 significant bits, the
    even one of two that are as near. *)
Definition float64 (n : Z) : Z :=
  let a := Z.abs n in
  if a <? 2 ^ 53 then n
  else
    let e := Z.log2 a - 52 in
    let q := a / 2 ^ e in
    let r := a mod 2 ^ e in
    let half := 2 ^ (e - 1) in
    let q := if (half <? r) || ((r =? half) && Z.odd q) then q + 1 else q in
    Z.sgn n * (q * 2 ^ e).

(** A document read into an untyped value, as the document that value
    is written as: a number comes back as a [float64]. *)
Fixpoint generic (j : Json) : Json :=
  match j with
  | JNum n => JNum (float64 n)
  | JArr l => JArr (map generic l)
  | JObj kv => JObj (map (fun e => (e.1, generic e.2)) kv)
  | _ => j
  end.

Definition dec_anymap (old : option (gmap string Json)) (j : Json)
  : option (gmap string Json) * bool :=
  match j with
  | JNull => (None, true)
  | JObj kv => (Some (foldl (fun m e => <[e.1 := generic e.2]> m) (default ∅ old) kv), true)
  | _ => (old, false)
  end.

End json.

(** ** Package util *)

Module util.

(** [IntArrRemove]: [append(op[:index], op[index+1:]...)]. Answers the
    array [op] lives on as the call leaves it, then the array and the
    header of the slice returned. *)
Definition IntArrRemove (array : list Z) (op : Go.window) (index : Z)
  : Go.outcome (list Z * (list Z * Go.window)) :=
  if index <? 0 then Go.Panic "slice bounds out of range"
  else
    head ← Go.slice_to array op (Z.to_nat index);
    tail ← Go.slice_from op (Z.to_nat index + 1);
    mret (Go.append_to array head (Go.view array tail)).

(** The loop of [IntArrFill], [for i := 0; i < size; i++], with [n]
    rounds to go from index [i]. *)
Fixpoint fill (f : Z → Z) (n : nat) (i : nat) (out : list Z) : list Z :=
  match n with
  | O => out
  | S n' => fill f n' (S i) (<[i := f (Z.of_nat i)]> out)
  end.

(** [IntArrFill]. *)
Definition IntArrFill (size : Z) (f : Z → Z) : Go.outcome (list Z) :=
  out ← Go.make Go.sizeof_int 0 size;
  mret (fill f (Z.to_nat size) 0 (Go.elems out)).

(** [CombineConfig]: every entry goes out with a newline behind it. *)
Definition CombineConfig (entries : list string) : string :=
  foldl (fun out entry => out +:+ (entry +:+ String (Ascii.ascii_of_nat 10) EmptyString))
        EmptyString entries.

(** [MergeStringMaps]. A [range] over a map visits its entries in an
    order of the runtime's choosing: [order1] and [order2] are the orders
    in which the two loops meet the entries of [m1] and of [m2] (none for
    a nil map). The map returned is made afresh, never nil. *)
Definition range_into (out : gmap string string) (order : list (string * string))
  : gmap string string :=
  foldl (fun o kv => <[kv.1 := kv.2]> o) out order.

Definition MergeStringMaps (order1 order2 : list (string * string)) : Go.gomap :=
  Some (range_into (range_into ∅ order1) order2).

(** The orders a [range] over [m] can take. *)
Definition ranges (m : Go.gomap) (order : list (string * string)) : Prop :=
  order ≡ₚ map_to_list (default ∅ m).

(** A value of type [interface{}] as the helpers below tell them apart:
    nil, a bool, a [json.Number] (its literal), a string, a [[]string],
    or a value of any other dynamic type. *)
Inductive iface : Type :=
| INil
| IBool (b : bool)
| INumber (lit : string)
| IString (s : string)
| IStrings (l : Go.slice string)
| IOther.

Definition incorrect_type (field : string) : string :=
  "Incorrect type for " +:+ field +:+ " given".

(** [GetJSONNumber]. *)
Definition GetJSONNumber (data : gmap string iface) (field : string)
  : string * Go.error :=
  match data !! field with
  | Some (INumber lit) => (lit, None)
  | _ => (EmptyString, Some (incorrect_type field))
  end.

(** The three helpers that write through [out] answer what [out] holds
    afterwards and the error. [Int64] stands for [json.Number.Int64]. *)
Definition GetJSONInt64 (Int64 : string → Z + string) (data : gmap string iface)
    (field : string) (out : Z) : Z * Go.error :=
  match data !! field with
  | None | Some INil => (out, None)
  | Some (INumber lit) =>
      match Int64 lit with
      | inr err => (out, Some err)
      | inl value => (value, None)
      end
  | Some _ => (out, Some (incorrect_type field))
  end.

Definition GetJSONStringArr (data : gmap string iface) (field : string)
    (out : Go.slice string) : Go.slice string * Go.error :=
  match data !! field with
  | None | Some INil => (out, None)
  | Some (IStrings l) => (l, None)
  | Some _ => (out, Some (incorrect_type field))
  end.

Definition GetJSONString (data : gmap string iface) (field : string)
    (out : string) : string * Go.error :=
  match data !! field with
  | None | Some INil => (out, None)
  | Some (IString s) => (s, None)
  | Some _ => (out, Some (incorrect_type field))
  end.

Definition GetJSONBool (data : gmap string iface) (field : string)
    (out : bool) : bool * Go.error :=
  match data !! field with
  | None | Some INil => (out, None)
  | Some (IBool b) => (b, None)
  | Some _ => (out, Some (incorrect_type field))
  end.

(** What [ioutil.ReadDir] finds below a directory: files, and
    directories with what reading them answers in turn - an error, or
    their entries. *)
#[local] Set Warnings "-register-all".

Inductive entry : Type :=
| File (name : string)
| Dir (name : string) (unreadable : Go.error) (contents : list entry).

Fixpoint ends_with_slash (s : string) : bool :=
  match s with
  | EmptyString => false
  | String c EmptyString => Ascii.eqb c "/"%char
  | String _ s' => ends_with_slash s'
  end.

(** The first lines of [Lsr] and [LsDir]:
    [if dir[len(dir)-1:] != "/" { dir += "/" }]. *)
Definition with_slash (dir : string) : Go.outcome string :=
  match dir with
  | EmptyString => Go.Panic "slice bounds out of range"
  | _ => if negb (ends_with_slash dir) then Go.Ret (dir +:+ "/") else Go.Ret dir
  end.






End util.

(** ** Package db *)

Module db.

(** Modelled from the spec: the declaration of [Server] is not among the
    sources at hand; of the data model [{id, addr, maxNodes, subnet,
    nodeIPs[]}] the code embedded here reads the id and the addresses. *)
Record Server := mkServer {
  ID : Z;
  Ips : list string
}.

(** Modelled from the spec: package testnet works on a later declaration
    of [Node] than the one of db/node.go. It has the fields of that one
    and, from the data model [{testnetID, server, localID, absoluteNum,
    ip, label?}], the two that testnet assigns. *)
Record Node := mkNode {
  Id : Z;
  TestNetId : Z;
  Server_ : Z;
  LocalId : Z;
  Ip : string;
  AbsoluteNum : Z;
  Label : string
}.

Definition set_AbsoluteNum (n : Node) (a : Z) : Node :=
  mkNode (Id n) (TestNetId n) (Server_ n) (LocalId n) (Ip n) a (Label n).
Definition set_Label (n : Node) (l : string) : Node :=
  mkNode (Id n) (TestNetId n) (Server_ n) (LocalId n) (Ip n) (AbsoluteNum n) l.

(** Modelled from the spec: the declaration of [DeploymentDetails] is not
    among the sources at hand; the fields are those of the data model,
    [{servers[], nodes, image[], files[{path:content}], params, blockchain}]. *)
Record DeploymentDetails := mkDD {
  Servers : Go.slice Z;
  Blockchain : string;
  Nodes : Z;
  Images : Go.slice string;
  Params : option (gmap string json.Json);
  Files : Go.slice Go.gomap
}.

Definition set_Files (d : DeploymentDetails) (f : Go.slice Go.gomap) :=
  mkDD (Servers d) (Blockchain d) (Nodes d) (Images d) (Params d) f.
Definition set_Nodes (d : DeploymentDetails) (n : Z) :=
  mkDD (Servers d) (Blockchain d) n (Images d) (Params d) (Files d).
Definition set_Images (d : DeploymentDetails) (i : Go.slice string) :=
  mkDD (Servers d) (Blockchain d) (Nodes d) i (Params d) (Files d).

(** A row of the node table as [InsertNode] writes it: the columns
    [test_net], [server], [local_id] and [ip]. The number of the row is
    the database's own, and no other field of the node is written. *)
Record Row := mkRow {
  row_test_net : Z;
  row_server : Z;
  row_local_id : Z;
  row_ip : string
}.

Definition row_of (node : Node) : Row :=
  mkRow (TestNetId node) (Server_ node) (LocalId node) (Ip node).

(** What the database answers during one call of [InsertNode]: the error
    of [Begin], of [Prepare], of [Exec] and of [Commit], and the row id
    with the error of [LastInsertId]. *)
Record InsertRun := mkInsertRun {
  begin_err : Go.error;
  prepare_err : Go.error;
  exec_err : Go.error;
  commit_err : Go.error;
  last_id : Z;
  last_id_err : Go.error
}.

(** [InsertNode] (db/node.go). The table of rows is threaded through; a
    row is in it once the statement has run and the transaction is
    committed. What [Commit] answers is dropped. *)
Definition InsertNode (run : InsertRun) (node : Node) (table : list Row)
  : (Z * Go.error) * list Row :=
  match begin_err run with
  | Some err => ((-1, Some err), table)
  | None =>
      match prepare_err run with
      | Some err => ((-1, Some err), table)
      | None =>
          match exec_err run with
          | Some _ => ((-1, None), table)
          | None =>
              ((last_id run, last_id_err run),
               match commit_err run with
               | None => table ++ [row_of node]
               | Some _ => table
               end)
          end
      end
  end.

(** The loop of [GetAvailibleNodes]: [out = util.IntArrRemove(out, node.Id)]
    for every node. *)
Fixpoint remove_nodes (nodes : list Node) (array : list Z) (out : Go.window)
  : Go.outcome (list Z * Go.window) :=
  match nodes with
  | [] => mret (array, out)
  | node :: rest =>
      r ← util.IntArrRemove array out (Id node);
      remove_nodes rest r.2.1 r.2.2
  end.

(** The statement [GetAllNodesByServer] sends. The format has two verbs
    and the call one operand, the table: [serverId] is not among them. *)
Definition nodes_by_server (NodesTable : string) : string :=
  Go.Sprintf "SELECT id,test_net,server,local_id,ip FROM %s WHERE server = %d"
             [Go.OStr NodesTable].

(** The loop over the rows: [CheckFatal] sees the result of every
    [Scan]. *)
Fixpoint scan_rows (CheckFatal : Go.error → Go.outcome unit) (rows : list Node)
    (nodes : list Node) : Go.outcome (list Node) :=
  match rows with
  | [] => mret nodes
  | node :: rest => _ ← CheckFatal None; scan_rows CheckFatal rest (nodes ++ [node])
  end.

(** [GetAllNodesByServer]. The table name, the database ([Query]
    answers a statement with its rows or with an error) and
    [util.CheckFatal] are declared outside the files at hand. When the
    query fails [rows] is nil: if [CheckFatal] comes back at all,
    [rows.Next()] dereferences it. A call that ends the process counts
    as one that panics: it does not return either. *)
Definition GetAllNodesByServer (NodesTable : string) (Query : string → list Node + string)
    (CheckFatal : Go.error → Go.outcome unit) (serverId : Z) : Go.outcome (list Node) :=
  match Query (nodes_by_server NodesTable) with
  | inr err =>
      _ ← CheckFatal (Some err);
      Go.Panic "invalid memory address or nil pointer dereference"
  | inl rows =>
      _ ← CheckFatal None;
      scan_rows CheckFatal rows []
  end.

(** [GetAvailibleNodes]. [Max] is the capacity [GetServer] answers for
    the server. *)
Definition GetAvailibleNodes (NodesTable : string) (Query : string → list Node + string)
    (CheckFatal : Go.error → Go.outcome unit) (Max : Z → Z)
    (serverId : Z) (nodesRequested : Z) : Go.outcome (list Z) :=
  nodes ← GetAllNodesByServer NodesTable Query CheckFatal serverId;
  filled ← util.IntArrFill (Max serverId) (fun index => index);
  r ← remove_nodes nodes filled (Go.mkWindow 0 (length filled));
  mret (Go.view r.1 r.2).

(** A database run that takes the row: the transaction begins, the
    statement is prepared and executed and the transaction committed. *)
Definition accepts_row (run : InsertRun) : Prop :=
  begin_err run = None ∧ prepare_err run = None ∧ exec_err run = None
  ∧ commit_err run = None.

End db.

(** ** encoding/json on [DeploymentDetails] *)

Module jsondd.
Import json db.

(** [json.Marshal(dd)]: every field is written. *)
Definition Marshal (dd : DeploymentDetails) : Json + string :=
  inl (JObj [ ("servers", enc_slice JNum (Servers dd));
              ("blockchain", enc_str (Blockchain dd));
              ("nodes", JNum (Nodes dd));
              ("images", enc_slice enc_str (Images dd));
              ("params", enc_anymap (Params dd));
              ("files", enc_slice enc_strmap (Files dd)) ]).

(** One field of the target: absent from the document it is left
    alone, present it is decoded into. *)
Definition into {A} (dec : A -> Json -> A * bool) (key : string)
    (kv : list (string * Json)) (old : A) : A * bool :=
  match field key kv with
  | None => (old, true)
  | Some j => dec old j
  end.

(** [json.Unmarshal(tmp, &cd)] on a document with the field names
    [Marshal] writes: the fields the document carries are decoded into
    the struct [cd] holds. A slice takes the elements of the document
    and a map keeps the entries it has and takes those of the document.
    The error is that of a document that does not fit. *)
Definition Unmarshal (tmp : Json) (cd : DeploymentDetails)
  : DeploymentDetails * Go.error :=
  match tmp with
  | JObj kv =>
      let servers := into (dec_slice 0 dec_int) "servers" kv (Servers cd) in
      let blockchain := into dec_str "blockchain" kv (Blockchain cd) in
      let nodes := into dec_int "nodes" kv (Nodes cd) in
      let images := into (dec_slice EmptyString dec_str) "images" kv (Images cd) in
      let params := into dec_anymap "params" kv (Params cd) in
      let files := into (dec_slice None dec_strmap) "files" kv (Files cd) in
      (mkDD servers.1 blockchain.1 nodes.1 images.1 params.1 files.1,
       if servers.2 && blockchain.2 && nodes.2 && images.2 && params.2 && files.2
       then None
       else Some "json: cannot unmarshal value into Go struct field")
  | JNull => (cd, None)
  | _ => (cd, Some "json: cannot unmarshal value into Go value of type db.DeploymentDetails")
  end.

(** What a copy of the header [cd.Files], taken before
    [json.Unmarshal(tmp, &cd)], shows after it: the maps of the document
    have been decoded into the maps the slice held at the same places.
    The maps of the slice are taken to be objects of their own, as a
    decoded request has them: no two places hold the same map. *)
Definition Files_after (tmp : Json) (files : Go.slice Go.gomap) : Go.slice Go.gomap :=
  match tmp with
  | JObj kv =>
      match field "files" kv with
      | Some (JArr l) => (fun old => seen_through dec_strmap old l) <$> files
      | _ => files
      end
  | _ => files
  end.

End jsondd.

(** ** Package state *)

Module state.

(** The command a node was started with ([util.Command]). *)
Record Command := mkCommand {
  Cmdline : string;
  ServerID : Z;
  Node : Z
}.

(** Modelled from the spec: package state is not among the sources at
    hand. A [BuildState] carries the sticky error, the external abort
    flag and the scratchpad; [ReportError] sets the error, [Stop] is true
    once an error is set or the build was aborted, [GetError] answers the
    error reported last, [Set] writes the scratchpad. *)
Record BuildState := mkBuildState {
  BuildID : string;
  ErrorVal : Go.error;
  Aborted : bool;
  kv : gmap string Command
}.

Definition ReportError (err : string) (bs : BuildState) : BuildState :=
  mkBuildState (BuildID bs) (Some err) (Aborted bs) (kv bs).
Definition Stop (bs : BuildState) : bool :=
  match ErrorVal bs with Some _ => true | None => Aborted bs end.
Definition GetError (bs : BuildState) : Go.error := ErrorVal bs.
Definition Set_ (k : string) (v : Command) (bs : BuildState) : BuildState :=
  mkBuildState (BuildID bs) (ErrorVal bs) (Aborted bs) (<[k := v]> (kv bs)).

End state.

(** ** Package testnet *)

Module testnet.
Import db.

(** A handle on the connection pool of one server ([*ssh.Client]). *)
Record ClientRef := mkClientRef { client_server : Z }.

(** Where [LDD] points: at the parameter [NewTestNet] received, or at an
    element of [Details]. *)
Inductive ptr : Type :=
| PtrParam
| PtrDetails (i : nat).

(** [TestNet]. The methods below run under the lock [mux]: each is one
    atomic step on this record. *)
Record TestNet := mkTestNet {
  TestNetID : string;
  Servers : list Server;
  Nodes : list Node;
  NewlyBuiltNodes : list Node;
  Clients : gmap Z ClientRef;
  BuildState : state.BuildState;
  Details : list DeploymentDetails;
  CombinedDetails : DeploymentDetails;
  LDD : ptr
}.

Definition set_Nodes (tn : TestNet) (ns nb : list Node) : TestNet :=
  mkTestNet (TestNetID tn) (Servers tn) ns nb (Clients tn) (BuildState tn)
            (Details tn) (CombinedDetails tn) (LDD tn).
Definition set_Details (tn : TestNet) (ds : list DeploymentDetails) : TestNet :=
  mkTestNet (TestNetID tn) (Servers tn) (Nodes tn) (NewlyBuiltNodes tn) (Clients tn)
            (BuildState tn) ds (CombinedDetails tn) (LDD tn).
Definition set_LDD (tn : TestNet) (p : ptr) : TestNet :=
  mkTestNet (TestNetID tn) (Servers tn) (Nodes tn) (NewlyBuiltNodes tn) (Clients tn)
            (BuildState tn) (Details tn) (CombinedDetails tn) p.
Definition set_CombinedDetails (tn : TestNet) (cd : DeploymentDetails) : TestNet :=
  mkTestNet (TestNetID tn) (Servers tn) (Nodes tn) (NewlyBuiltNodes tn) (Clients tn)
            (BuildState tn) (Details tn) cd (LDD tn).

(** The collaborators [NewTestNet] calls: the registry of build states,
    the server table and the client pool. *)
Record Env := mkEnv {
  GetBuildStateByID : string -> state.BuildState + string;
  GetServers : Go.slice Z -> list Server + string;
  GetClient : Z -> ClientRef + string
}.

(** The loop of [NewTestNet] that opens one client per server; it stops
    at the first server whose client cannot be had. *)
Fixpoint open_clients (env : Env) (servers : list Server) (clients : gmap Z ClientRef)
  : gmap Z ClientRef + string :=
  match servers with
  | [] => inl clients
  | server :: rest =>
      match GetClient env (ID server) with
      | inr err => inr err
      | inl c => open_clients env rest (<[ID server := c]> clients)
      end
  end.

(** [NewTestNet]. A failure answers the error, with the build state as
    [ReportError] left it when there was one to report to. *)
Definition NewTestNet (env : Env) (details : DeploymentDetails) (buildID : string)
  : TestNet + (string * option state.BuildState) :=
  match GetBuildStateByID env buildID with
  | inr err => inr (err, None)
  | inl bs =>
      match GetServers env (db.Servers details) with
      | inr err => inr (err, Some (state.ReportError err bs))
      | inl servers =>
          match open_clients env servers ∅ with
          | inr err => inr (err, Some (state.ReportError err bs))
          | inl clients =>
              inl (mkTestNet buildID servers [] [] clients bs [details] details PtrParam)
          end
      end
  end.

(** [AddNode]. *)
Definition AddNode (tn : TestNet) (node : Node) : TestNet * Z :=
  let node := set_AbsoluteNum node (Z.of_nat (length (Nodes tn))) in
  (set_Nodes tn (Nodes tn ++ [node]) (NewlyBuiltNodes tn ++ [node]), AbsoluteNum node).

(** The two padding loops of [AddDetails], [n] iterations each. *)
Fixpoint pad_files (n : nat) (files : Go.slice Go.gomap) : Go.slice Go.gomap :=
  match n with
  | O => files
  | S n' => pad_files n' (Go.append files (Some ∅))
  end.

Fixpoint pad_images (n : nat) (images : Go.slice string) : Go.outcome (Go.slice string) :=
  match n with
  | O => mret images
  | S n' => first ← Go.index images 0; pad_images n' (Go.append images first)
  end.

Definition nonempty {A} (s : Go.slice A) : bool :=
  negb (Go.is_nil s) && (0 <? Go.len s).

(** [AddDetails]. The result pairs the testnet afterwards with the error
    returned. [oldCD] is a copy of the struct: its [Files] is a header on
    the array [json.Unmarshal] decodes into. The deployments of
    [Details] are kept as values; what the decoding writes through the
    storage they share with the combined deployment is not followed
    there. *)
Definition AddDetails (tn : TestNet) (dd : DeploymentDetails)
  : Go.outcome (TestNet * Go.error) :=
  let tn := set_Details tn (Details tn ++ [dd]) in
  match jsondd.Marshal dd with
  | inr err => mret (tn, Some err)
  | inl tmp =>
      let tn := set_LDD tn (PtrDetails (length (Details tn) - 1)) in
      let oldCD := CombinedDetails tn in
      let cd := (jsondd.Unmarshal tmp oldCD).1 in
      (* Handle Files *)
      let cd := set_Files cd (jsondd.Files_after tmp (Files oldCD)) in
      files ← (if nonempty (Files dd) then
                 made ← (if Go.is_nil (Files cd) then Go.make Go.sizeof_map None (db.Nodes oldCD)
                         else mret (Files cd));
                 let padded :=
                   if Go.len made <? db.Nodes oldCD
                   then pad_files (Z.to_nat (db.Nodes oldCD - Go.len made)) made
                   else made in
                 mret (foldl Go.append padded (Go.elems (Files dd)))
               else mret (Files cd));
      let cd := set_Files cd files in
      (* Handle Nodes *)
      let cd := db.set_Nodes cd (Go.add (db.Nodes oldCD) (db.Nodes dd)) in
      (* Handle Images *)
      images ← (if nonempty (Images dd) then
                  made ← (if Go.is_nil (Images cd) then Go.make Go.sizeof_string EmptyString (db.Nodes oldCD)
                          else mret (Images cd));
                  padded ← (if Go.len made <? db.Nodes oldCD
                            then pad_images (Z.to_nat (db.Nodes oldCD - Go.len made)) made
                            else mret made);
                  mret (foldl Go.append padded (Go.elems (Images dd)))
                else mret (Images cd));
      let cd := set_Images cd images in
      mret (set_CombinedDetails tn cd, None)
  end.

(** The sum of the node counts of the deployments recorded. *)
Definition total_nodes (ds : list DeploymentDetails) : Z :=
  foldr (fun d acc => db.Nodes d + acc) 0 ds.

(** A sequence of [AddDetails] calls; a panic ends it. *)
Fixpoint AddDetails_all (tn : TestNet) (dds : list DeploymentDetails)
  : Go.outcome TestNet :=
  match dds with
  | [] => mret tn
  | dd :: rest => r ← AddDetails tn dd; AddDetails_all r.1 rest
  end.

(** A sequence of [AddNode] calls, with the numbers they return. *)
Fixpoint AddNode_all (tn : TestNet) (nodes : list Node) : TestNet * list Z :=
  match nodes with
  | [] => (tn, [])
  | node :: rest =>
      let '(tn1, num) := AddNode tn node in
      let '(tn2, nums) := AddNode_all tn1 rest in
      (tn2, num :: nums)
  end.

(** [StoreNodes]. [runs i] is what the database answers during the
    [i]-th insertion. The outcome is the error returned, the table and
    the lines logged; the testnet itself is only read: [node] is the
    loop's own copy of the element. *)
Fixpoint StoreNodes_loop (runs : nat -> InsertRun) (labels : Go.slice string)
    (i : nat) (nodes : list Node) (table : list Row) (log : list string)
  : Go.outcome (list Row * list string) :=
  match nodes with
  | [] => mret (table, log)
  | node :: rest =>
      node ← (if negb (Go.is_nil labels)
              then l ← Go.index labels i; mret (set_Label node l)
              else mret node);
      let '((_, err), table) := InsertNode (runs i) node table in
      let log := match err with Some e => log ++ [e] | None => log end in
      StoreNodes_loop runs labels (S i) rest table log
  end.

Definition StoreNodes (runs : nat -> InsertRun) (tn : TestNet) (labels : Go.slice string)
    (table : list Row) : Go.outcome (Go.error * TestNet * list Row * list string) :=
  r ← StoreNodes_loop runs labels 0 (NewlyBuiltNodes tn) table [];
  mret (None, tn, r.1, r.2).

Definition set_BuildState (tn : TestNet) (bs : state.BuildState) : TestNet :=
  mkTestNet (TestNetID tn) (Servers tn) (Nodes tn) (NewlyBuiltNodes tn) (Clients tn)
            bs (Details tn) (CombinedDetails tn) (LDD tn).

(** [FinishedBuilding]. [DoneBuilding] of package state and [db.SetMeta]
    are outside the files at hand: the former enters as a function on
    the build state, of the latter the call is answered, the key with
    the testnet handed over. *)
Definition Store (tn : TestNet) : string * TestNet :=
  ("testnet_" +:+ TestNetID tn, tn).

Definition FinishedBuilding (DoneBuilding : state.BuildState → state.BuildState)
    (tn : TestNet) : TestNet * (string * TestNet) :=
  let tn := set_BuildState tn (DoneBuilding (BuildState tn)) in
  let tn := set_Nodes tn (Nodes tn) [] in
  (tn, Store tn).

(** [GetServer]: the loop answers the first server of that id, as a
    copy, or nil. *)
Fixpoint GetServer_loop (servers : list Server) (id : Z) : option Server :=
  match servers with
  | [] => None
  | server :: rest => if ID server =? id then Some server else GetServer_loop rest id
  end.

Definition GetServer (tn : TestNet) (id : Z) : option Server :=
  GetServer_loop (Servers tn) id.

(** [GetLastestDeploymentDetails]: [&tn.Details[len(tn.Details)-1]], the
    place and what it holds. *)
Definition GetLastestDeploymentDetails (tn : TestNet)
  : Go.outcome (ptr * DeploymentDetails) :=
  match Details tn with
  | [] => Go.Panic "index out of range"
  | _ =>
      d ← Go.index (Some (Details tn)) (length (Details tn) - 1);
      mret (PtrDetails (length (Details tn) - 1), d)
  end.

(** [PreOrderNodes] and [PreOrderNewNodes] are one body on two lists of
    nodes: an empty bucket for every server, then every node goes to the
    end of the bucket of its server. *)
Definition buckets (servers : list Server) (nodes : list Node) : gmap Z (list Node) :=
  let out := foldl (fun out server => <[ID server := []]> out) ∅ servers in
  foldl (fun out node =>
           <[Server_ node := default [] (out !! Server_ node) ++ [node]]> out)
        out nodes.

Definition PreOrderNodes (tn : TestNet) : gmap Z (list Node) :=
  buckets (Servers tn) (Nodes tn).

Definition PreOrderNewNodes (tn : TestNet) : gmap Z (list Node) :=
  buckets (Servers tn) (NewlyBuiltNodes tn).

(** The life of a testnet between builds: nodes are added, a build is
    finished. *)
Inductive step : Type :=
| DoAddNode (node : Node)
| DoFinishedBuilding.

Definition do_step (DoneBuilding : state.BuildState → state.BuildState)
    (tn : TestNet) (s : step) : TestNet :=
  match s with
  | DoAddNode node => (AddNode tn node).1
  | DoFinishedBuilding => (FinishedBuilding DoneBuilding tn).1
  end.

(** The nodes handed to [AddNode] in a run of steps, in order. *)
Definition added (steps : list step) : list Node :=
  omap (fun s => match s with DoAddNode node => Some node | DoFinishedBuilding => None end)
       steps.

Definition set_Clients (tn : TestNet) (clients : gmap Z ClientRef) : TestNet :=
  mkTestNet (TestNetID tn) (Servers tn) (Nodes tn) (NewlyBuiltNodes tn) clients
            (BuildState tn) (Details tn) (CombinedDetails tn) (LDD tn).

(** [RestoreTestNet]. [db.GetMetaP] is outside the files at hand: it
    enters as [GetMetaP], which answers for a key the testnet decoded
    from what is stored under it. Build state, [LDD] and clients are set
    anew. *)
Definition RestoreTestNet (env : Env) (GetMetaP : string → TestNet + string)
    (buildID : string) : Go.outcome (TestNet + (string * option state.BuildState)) :=
  match GetMetaP ("testnet_" +:+ buildID) with
  | inr err => mret (inr (err, None))
  | inl out =>
      match GetBuildStateByID env buildID with
      | inr err => mret (inr (err, None))
      | inl bs =>
          let out := set_BuildState out bs in
          ldd ← GetLastestDeploymentDetails out;
          let out := set_LDD out ldd.1 in
          match open_clients env (Servers out) ∅ with
          | inr err => mret (inr (err, Some (state.ReportError err bs)))
          | inl clients => mret (inl (set_Clients out clients))
          end
      end
  end.

End testnet.

(** ** Package ssh *)

Module ssh.

Inductive event : Type :=
| EvSession (ok : bool)      (* a session was asked of the remote host *)
| EvExec (cmd : string)      (* a command was executed remotely *)
| EvClose.                   (* a session was closed *)

(** What a [Client] acts on: its configuration, the build state
    registered for its [serverID], the answers of the remote host and the
    trace of remote input/output so far.  [Session] is declared outside
    the files at hand: whether its [Close] survives the nil session is a
    field of the world, and so is the text [util.FormatError] builds. *)
Record World := mkWorld {
  serverID : Z;
  NodePrefix : string;
  DockerOutputFile : string;
  bs : state.BuildState;
  session_err : Go.error;
  remote : string -> string * Go.error;
  FormatError : string -> string -> string;
  nil_close_panics : bool;
  trace : list event
}.

Definition log (e : event) (w : World) : World :=
  mkWorld (serverID w) (NodePrefix w) (DockerOutputFile w) (bs w) (session_err w)
          (remote w) (FormatError w) (nil_close_panics w) (trace w ++ [e]).
Definition set_bs (b : state.BuildState) (w : World) : World :=
  mkWorld (serverID w) (NodePrefix w) (DockerOutputFile w) b (session_err w)
          (remote w) (FormatError w) (nil_close_panics w) (trace w).

(** [getSession], through its result: a session, or nil and an error. *)
Definition getSession (w : World) : (bool * Go.error) * World :=
  match session_err w with
  | None => ((true, None), log (EvSession true) w)
  | Some err => ((false, Some err), log (EvSession false) w)
  end.

(** Modelled from the spec: [Session] is not among the sources at hand.
    The deferred [session.Close()] closes the session and releases its
    unit of the semaphore; on the nil session, which has neither, the
    call dereferences nil unless [Close] guards against it, which the
    world tells ([nil_close_panics]). *)
Definition Close {A} (session : bool) (ret : A) (w : World) : Go.outcome A * World :=
  if session then (Go.Ret ret, log EvClose w)
  else if nil_close_panics w
       then (Go.Panic "invalid memory address or nil pointer dereference", w)
       else (Go.Ret ret, w).

(** [Run]. *)
Definition Run (command : string) (w : World)
  : Go.outcome (string * Go.error) * World :=
  let '((session, err), w) := getSession w in
  let bs := bs w in
  if state.Stop bs then Close session (EmptyString, state.GetError bs) w
  else
    match err with
    | Some e => Close session (EmptyString, Some e) w
    | None =>
        let '(out, err) := remote w command in
        let w := log (EvExec command) w in
        match err with
        | Some e => Close session (out, Some (FormatError w out e)) w
        | None => Close session (out, None) w
        end
    end.

(** [logSanitizeAndStore]. In Go source the second pattern is spelled
    with a doubled backslash; it is the two bytes backslash, quote. *)
Definition logSanitizeAndStore (node : Z) (command : string) (w : World)
  : Go.outcome unit * World :=
  if negb (Nat.eqb (Go.Count command "'") (Go.Count command "\'"))
  then (Go.Panic "DockerExecdLog commands cannot contain unescaped ' characters", w)
  else (Go.Ret tt,
        set_bs (state.Set_ (pretty node) (state.mkCommand command (serverID w) node) (bs w)) w).

(** [DockerExecdLog]. *)
Definition DockerExecdLog (node : Z) (command : string) (w : World)
  : Go.outcome Go.error * World :=
  match logSanitizeAndStore node command w with
  | (Go.Panic msg, w) => (Go.Panic msg, w)
  | (Go.Ret _, w) =>
      let '(r, w) := Run ("docker exec -d " +:+ NodePrefix w +:+ pretty node +:+ " bash -c '"
                          +:+ command +:+ " 2>&1 > " +:+ DockerOutputFile w +:+ "'") w in
      (r ≫= (fun p => mret p.2), w)
  end.

(** The commands executed remotely, in order. *)
Definition executed (w : World) : list string :=
  omap (fun e => match e with EvExec c => Some c | _ => None end) (trace w).

(** [MultiRun]: the loop over the commands, with the outputs so far. *)
Fixpoint MultiRun_loop (commands : list string) (out : list string) (w : World)
  : Go.outcome (Go.slice string * Go.error) * World :=
  match commands with
  | [] => (Go.Ret (Some out, None), w)
  | command :: rest =>
      match Run command w with
      | (Go.Panic msg, w) => (Go.Panic msg, w)
      | (Go.Ret (res, Some err), w) => (Go.Ret (None, Some err), w)
      | (Go.Ret (res, None), w) => MultiRun_loop rest (out ++ [res]) w
      end
  end.

Definition MultiRun (commands : list string) (w : World)
  : Go.outcome (Go.slice string * Go.error) * World :=
  MultiRun_loop commands [] w.

(** The loop of [FastMultiRun], at index [i] with [cmd] built so far. *)
Fixpoint chain (commands : list string) (i : nat) (cmd : string) : string :=
  match commands with
  | [] => cmd
  | command :: rest =>
      chain rest (S i) ((if negb (Nat.eqb i 0) then cmd +:+ "&&" else cmd) +:+ command)
  end.

Definition FastMultiRun (commands : list string) (w : World)
  : Go.outcome (string * Go.error) * World :=
  Run (chain commands 0 EmptyString) w.

Definition maxRunAttempts : nat := 20.

(** The loop of [KeepTryRun], with [n] attempts left and the result of
    the last attempt. *)
Fixpoint KeepTryRun_loop (n : nat) (res : string) (err : Go.error) (command : string)
    (w : World) : Go.outcome (string * Go.error) * World :=
  match n with
  | O => (Go.Ret (res, err), w)
  | S n' =>
      match Run command w with
      | (Go.Panic msg, w) => (Go.Panic msg, w)
      | (Go.Ret (res, None), w) => (Go.Ret (res, None), w)
      | (Go.Ret (res, Some e), w) => KeepTryRun_loop n' res (Some e) command w
      end
  end.

(** [KeepTryRun]. *)
Definition KeepTryRun (command : string) (w : World)
  : Go.outcome (string * Go.error) * World :=
  let bs := bs w in
  if state.Stop bs then (Go.Ret (EmptyString, state.GetError bs), w)
  else KeepTryRun_loop maxRunAttempts EmptyString None command w.

(** The loop of [DockerMultiExec]. *)
Definition detached (w : World) (node : Z) (command : string) : string :=
  "docker exec -d " +:+ NodePrefix w +:+ pretty node +:+ " " +:+ command.

Fixpoint merge (w : World) (node : Z) (commands : list string) (mergedCommand : string)
  : string :=
  match commands with
  | [] => mergedCommand
  | command :: rest =>
      merge w node rest
        ((if negb (Nat.eqb (String.length mergedCommand) 0)
          then mergedCommand +:+ "&&" else mergedCommand)
         +:+ detached w node command)
  end.

Definition DockerMultiExec (node : Z) (commands : list string) (w : World) :=
  Run (merge w node commands EmptyString) w.

(** The single quotes of a string that no backslash stands directly
    before; [escaped] tells whether one stands before the string. *)
Fixpoint unescaped (escaped : bool) (s : string) : nat :=
  match s with
  | EmptyString => 0
  | String c s' =>
      if Ascii.eqb c "'"%char
      then ((if escaped then 0 else 1) + unescaped false s')%nat
      else unescaped (Ascii.eqb c "\"%char) s'
  end.

(** The world once a command has run on a session: the session asked,
    the command executed, the session closed. *)
Definition ran (command : string) (w : World) : World :=
  log EvClose (log (EvExec command) (log (EvSession true) w)).

(** No stop was asked and [getSession] finds a session. *)
Definition live (w : World) : Prop :=
  state.Stop (bs w) = false ∧ session_err w = None.

(** [KeepTryDockerExecAll]: the loop over the commands, with the outputs
    so far. *)
Fixpoint KeepTryDockerExecAll_loop (node : Z) (commands : list string) (out : list string)
    (w : World) : Go.outcome (Go.slice string * Go.error) * World :=
  match commands with
  | [] => (Go.Ret (Some out, None), w)
  | command :: rest =>
      match KeepTryRun ("docker exec " +:+ NodePrefix w +:+ pretty node +:+ " " +:+ command) w
      with
      | (Go.Panic msg, w) => (Go.Panic msg, w)
      | (Go.Ret (res, Some err), w) => (Go.Ret (None, Some err), w)
      | (Go.Ret (res, None), w) => KeepTryDockerExecAll_loop node rest (out ++ [res]) w
      end
  end.

Definition KeepTryDockerExecAll (node : Z) (commands : list string) (w : World)
  : Go.outcome (Go.slice string * Go.error) * World :=
  KeepTryDockerExecAll_loop node commands [] w.

(** The first lines of [Scp]: the path copied from. [src[0]] is read
    only when [src] does not begin with [./]. *)
Definition scp_source (src : string) (w : World) : Go.outcome string :=
  if negb (Go.HasPrefix src "./")
  then match src with
       | EmptyString => Go.Panic "index out of range"
       | String c _ =>
           if negb (Ascii.eqb c "/"%char)
           then mret ("/tmp/" +:+ state.BuildID (bs w) +:+ "/" +:+ src)
           else mret src
       end
  else mret src.

(** [InternalScp]. [CopyPath] stands for [scp.CopyPath] on the session:
    the error it answers for a source and a destination. The session is
    closed on return, once there is one. *)
Definition InternalScp (CopyPath : string → string → Go.error) (src dest : string)
    (w : World) : Go.outcome Go.error * World :=
  let '((session, err), w) := getSession w in
  match err with
  | Some e => (Go.Ret (Some e), w)
  | None => Close session (CopyPath src dest) w
  end.

(** [Scp]: behind the first lines its body is that of [InternalScp]. *)
Definition Scp (CopyPath : string → string → Go.error) (src dest : string)
    (w : World) : Go.outcome Go.error * World :=
  match scp_source src w with
  | Go.Panic msg => (Go.Panic msg, w)
  | Go.Ret src => InternalScp CopyPath src dest w
  end.

(** The world before anything was asked of the remote host. *)
Definition at_start (w : World) : World :=
  mkWorld (serverID w) (NodePrefix w) (DockerOutputFile w) (bs w) (session_err w)
          (remote w) (FormatError w) (nil_close_panics w) [].

(** [sshConnect]. The key file, the parser and the network enter by
    what they answer: [Dial k] is the answer to the dial number [k], a
    connection or an error. The result comes with the number of dials. *)
Record Dialer := mkDialer {
  ReadFile : string + string;
  ParsePrivateKey : string → Go.error;
  Dial : nat → nat + string
}.

(** The loop [for err != nil && i < 10], with [n] rounds left after [i]
    and the answer [r] of the last dial. *)
Fixpoint redial (d : Dialer) (n : nat) (i : nat) (r : nat + string)
  : (nat + string) * nat :=
  match r, n with
  | inr _, S n' => redial d n' (S i) (Dial d (S i))
  | _, _ => (r, S i)
  end.

Definition sshConnect (d : Dialer) : (nat + string) * nat :=
  match ReadFile d with
  | inr err => (inr err, 0%nat)
  | inl key =>
      match ParsePrivateKey d key with
      | Some err => (inr err, 0%nat)
      | None => redial d 10 0 (Dial d 0)
      end
  end.

End ssh.

(** ** Package helpers *)

Module helpers.
Import db.

(** The arguments of one worker: [(serverNum, localNodeNum, absoluteNodeNum)]. *)
Record call := mkCall {
  serverNum : nat;
  localNodeNum : nat;
  absoluteNodeNum : nat
}.

#[export] Instance call_eq_dec : EqDecision call.
Proof. solve_decision. Defined.

(** The inner loop of [CreateConfigs], [for j := range server.Ips], from
    index [j] on: a worker is started with the current counter, then the
    counter moves on. The workers started and the counter are answered. *)
Fixpoint spawn_nodes (i : nat) (ips : list string) (j : nat) (node : nat)
  : list call * nat :=
  match ips with
  | [] => ([], node)
  | _ :: ips' =>
      let '(started, node') := spawn_nodes i ips' (S j) (S node) in
      (mkCall i j node :: started, node')
  end.

(** The outer loop, [for i, server := range servers], from index [i] on. *)
Fixpoint spawn_servers (servers : list Server) (i : nat) (node : nat) : list call :=
  match servers with
  | [] => []
  | server :: rest =>
      let '(started, node') := spawn_nodes i (Ips server) 0 node in
      started ++ spawn_servers rest (S i) node'
  end.

Definition spawned (servers : list Server) : list call := spawn_servers servers 0 0.

(** What the workers share: the build state, the state the closure
    [fn] has captured and what lies outside the process (the remote
    hosts and the files), on which [SingleCp] acts. *)
Record shared (S W : Type) := mkShared {
  build : state.BuildState;
  captured : S;
  outside : W
}.
Arguments mkShared {S W} build captured outside.
Arguments build {S W} s.
Arguments captured {S W} s.
Arguments outside {S W} s.

Section CreateConfigs.
Context {S W C : Type}.

(** [clients], [dest] and the two functions the workers call: the
    callback [fn], which may change what it has captured, and
    [SingleCp] with the client, the build state, the node, the data
    and the destination, which returns an error or panics. *)
Variable clients : list C.
Variable dest : string.
Variable fn : nat -> nat -> nat -> S -> (string + string) * S.
Variable SingleCp :
  C -> state.BuildState -> nat -> string -> string -> W -> Go.outcome Go.error * W.

(** The body of one worker. It ends the process when it panics: on
    [clients[i]] without such a client, or within [SingleCp]. *)
Definition worker (c : call) (s : shared S W) : Go.outcome unit * shared S W :=
  let r := fn (serverNum c) (localNodeNum c) (absoluteNodeNum c) (captured s) in
  let s := mkShared (build s) r.2 (outside s) in
  match r.1 with
  | inr err => (Go.Ret tt, mkShared (state.ReportError err (build s)) (captured s) (outside s))
  | inl data =>
      match clients !! serverNum c with
      | None => (Go.Panic "index out of range", s)
      | Some client =>
          let cp := SingleCp client (build s) (localNodeNum c) data dest (outside s) in
          let s := mkShared (build s) (captured s) cp.2 in
          match cp.1 with
          | Go.Panic msg => (Go.Panic msg, s)
          | Go.Ret (Some err) =>
              (Go.Ret tt,
               mkShared (state.ReportError err (build s)) (captured s) (outside s))
          | Go.Ret None => (Go.Ret tt, s)
          end
      end
  end.

(** The workers run one after the other in the order given, until one
    panics. *)
Fixpoint workers (order : list call) (s : shared S W) : Go.outcome unit * shared S W :=
  match order with
  | [] => (Go.Ret tt, s)
  | c :: rest =>
      match worker c s with
      | (Go.Panic msg, s) => (Go.Panic msg, s)
      | (Go.Ret _, s) => workers rest s
      end
  end.

(** [CreateConfigs]: the workers are started in loop order and run in
    the order the scheduler [sched] picks among them; all have run
    when [wg.Wait()] returns. The result comes with what the workers
    left behind. *)
Definition CreateConfigs (servers : list Server) (bs : state.BuildState)
    (sched : list call -> list call) (st : S) (w : W)
  : Go.outcome Go.error * shared S W :=
  match workers (sched (spawned servers)) (mkShared bs st w) with
  | (Go.Panic msg, s) => (Go.Panic msg, s)
  | (Go.Ret _, s) => (Go.Ret (state.GetError (build s)), s)
  end.

End CreateConfigs.

(** A callback that notes the arguments of every call it receives, in
    front of what [fn] does. *)
Definition noting {S} (fn : nat -> nat -> nat -> S -> (string + string) * S)
    (i j node : nat) (st : list call * S) : (string + string) * (list call * S) :=
  let r := fn i j node st.2 in
  (r.1, (st.1 ++ [mkCall i j node], r.2)).

(** What [fn] has captured after the calls of [calls], in order. *)
Definition after_calls {S} (fn : nat -> nat -> nat -> S -> (string + string) * S)
    (calls : list call) (st : S) : S :=
  foldl (fun st c => (fn (serverNum c) (localNodeNum c) (absoluteNodeNum c) st).2) st calls.

(** A callback and a copy that keep no state. *)
Definition stateless (fn : nat -> nat -> nat -> string + string)
    (i j node : nat) (st : unit) : (string + string) * unit :=
  (fn i j node, st).

Definition answering {C} (cp : C -> nat -> string -> Go.error)
    (client : C) (bs : state.BuildState) (node : nat) (data dest : string) (w : unit)
  : Go.outcome Go.error * unit :=
  (Go.Ret (cp client node data), w).

(** The iteration space of the specification, in lexicographic order:
    the pairs [(serverNum, localNodeNum)], the servers counted from [i]. *)
Definition pairs_from (i : nat) (servers : list Server) : list (nat * nat) :=
  flat_map (fun p => map (fun j => (p.1, j)) (seq 0 (length (Ips p.2))))
           (zip (seq i (length servers)) servers).

Definition pairs (servers : list Server) : list (nat * nat) := pairs_from 0 servers.

Definition total (servers : list Server) : nat :=
  length (flat_map Ips servers).

(** What a worker of [CreateConfigs] answers to the build when [fn] and
    the copy keep no state: the error of [fn], else that of the copy
    through the client of the server, else none. *)
Definition outcome_of {C} (fn : nat -> nat -> nat -> string + string)
    (cp : C -> nat -> string -> Go.error) (clients : list C) (c : call) : Go.error :=
  match fn (serverNum c) (localNodeNum c) (absoluteNodeNum c) with
  | inr err => Some err
  | inl data =>
      match clients !! serverNum c with
      | Some client => cp client (localNodeNum c) data
      | None => None
      end
  end.

(** The arguments of one worker of [CopyAllToServers]: [(i, j)]. *)
Record copy := mkCopy {
  client : nat;
  pair : nat
}.

(** The two loops of [CopyAllToServers], [for i := range clients] and
    within it [for j := 0; j < len(srcDst)/2; j++]: the workers started,
    in order. *)
Definition copies (clients : nat) (srcDst : list string) : list copy :=
  flat_map (fun i => map (fun j => mkCopy i j) (seq 0 (length srcDst / 2)))
           (seq 0 clients).

(** What the workers share: the build state, the clean-ups handed to
    [Defer] (the client and the index in [srcDst] of the path the closure
    removes), the copies asked of [Scp] and the clients, each with the
    world it acts on. *)
Record copying := mkCopying {
  cbuild : state.BuildState;
  deferred : list (nat * nat);
  scps : list (nat * string * string);
  hosts : list ssh.World
}.

(** The body of one worker. The closure handed to [Defer] reads
    [srcDst] only when it runs; the call of [Scp] reads it at once.
    [CopyPath i] stands for [scp.CopyPath] on a session of client [i]. A
    worker that panics ends the process. *)
Definition copy_worker (CopyPath : nat -> string -> string -> Go.error)
    (srcDst : list string) (c : copy) (s : copying) : Go.outcome unit * copying :=
  let s := mkCopying (cbuild s) (deferred s ++ [(client c, 2 * pair c + 1)%nat]) (scps s)
                     (hosts s) in
  match hosts s !! client c, srcDst !! (2 * pair c)%nat, srcDst !! (2 * pair c + 1)%nat with
  | Some w, Some src, Some dst =>
      let s := mkCopying (cbuild s) (deferred s) (scps s ++ [(client c, src, dst)])
                         (hosts s) in
      let r := ssh.Scp (CopyPath (client c)) src dst w in
      let s := mkCopying (cbuild s) (deferred s) (scps s) (<[client c := r.2]> (hosts s)) in
      match r.1 with
      | Go.Panic msg => (Go.Panic msg, s)
      | Go.Ret (Some err) =>
          (Go.Ret tt,
           mkCopying (state.ReportError err (cbuild s)) (deferred s) (scps s) (hosts s))
      | Go.Ret None => (Go.Ret tt, s)
      end
  | _, _, _ => (Go.Panic "index out of range", s)
  end.

(** The workers run one after the other in the order given, until one
    panics. *)
Fixpoint copy_workers (CopyPath : nat -> string -> string -> Go.error)
    (srcDst : list string) (order : list copy) (s : copying) : Go.outcome unit * copying :=
  match order with
  | [] => (Go.Ret tt, s)
  | c :: rest =>
      match copy_worker CopyPath srcDst c s with
      | (Go.Panic msg, s) => (Go.Panic msg, s)
      | (Go.Ret _, s) => copy_workers CopyPath srcDst rest s
      end
  end.

(** [CopyAllToServers]; [sched] is the order in which the scheduler
    runs the workers started. *)
Definition CopyAllToServers (clients : list ssh.World)
    (CopyPath : nat -> string -> string -> Go.error) (sched : list copy -> list copy)
    (bs : state.BuildState) (srcDst : list string) : Go.outcome Go.error * copying :=
  if negb (Nat.eqb (length srcDst mod 2) 0)
  then (Go.Ret (Some "Invalid number of variadic arguments, must be given an even number of them"),
        mkCopying bs [] [] clients)
  else
    match copy_workers CopyPath srcDst (sched (copies (length clients) srcDst))
            (mkCopying bs [] [] clients) with
    | (Go.Panic msg, s) => (Go.Panic msg, s)
    | (Go.Ret _, s) => (Go.Ret (state.GetError (cbuild s)), s)
    end.

(** [CopyToServers]. *)
Definition CopyToServers (clients : list ssh.World)
    (CopyPath : nat -> string -> string -> Go.error) (sched : list copy -> list copy)
    (bs : state.BuildState) (src dst : string) : Go.outcome Go.error * copying :=
  CopyAllToServers clients CopyPath sched bs [src; dst].

(** The variadic arguments read two by two: source, destination. *)
Fixpoint pairs_of (srcDst : list string) : list (string * string) :=
  match srcDst with
  | src :: dst :: rest => (src, dst) :: pairs_of rest
  | _ => []
  end.

(** What the worker [(i, j)] asks of [Scp]: client [i], [srcDst[2*j]]
    and [srcDst[2*j+1]]. *)
Definition asked (srcDst : list string) (c : copy) : nat * string * string :=
  (client c, default EmptyString (srcDst !! (2 * pair c)%nat),
   default EmptyString (srcDst !! (2 * pair c + 1)%nat)).

(** The error the copy [a] reports to the build: the one [Scp] returns
    for it on the client it is asked of. *)
Definition scp_error (CopyPath : nat -> string -> string -> Go.error)
    (clients : list ssh.World) (a : nat * string * string) : Go.error :=
  match clients !! a.1.1 with
  | Some w =>
      match (ssh.Scp (CopyPath a.1.1) a.1.2 a.2 w).1 with
      | Go.Ret (Some err) => Some err
      | _ => None
      end
  | None => None
  end.

(** The clients the workers share are the ones the call was given, but
    for their traces. *)
Definition same_hosts (clients : list ssh.World) (s : copying) : Prop :=
  ssh.at_start <$> hosts s = ssh.at_start <$> clients.

End helpers.

(** ** Package tendermint *)

Module tendermint.

(** The slice [peers] of [Build] once the nodes are initialized: its
    backing array and its length. Every worker of the start stage holds
    this one slice. *)
Record peers_t := mkPeers {
  array : list string;
  plen : nat
}.

Definition peers_of (l : list string) : peers_t := mkPeers l (length l).
Definition harvested (p : peers_t) : list string :=
  Go.view (array p) (Go.mkWindow 0 (plen p)).

(** [append(peers[:absoluteNodeNum], peers[absoluteNodeNum+1:]...)]:
    the list handed to [strings.Join], and [peers] afterwards. *)
Definition persistent_peers (p : peers_t) (absoluteNodeNum : nat)
  : Go.outcome (list string * peers_t) :=
  let peers := Go.mkWindow 0 (plen p) in
  head ← Go.slice_to (array p) peers absoluteNodeNum;
  tail ← Go.slice_from peers (absoluteNodeNum + 1);
  let r := Go.append_all (array p) head (Go.view (array p) tail) in
  mret (r.2, mkPeers r.1 (plen p)).

(** The command the start stage runs on a node. *)
Definition start_command (l : list string) : string :=
  "tendermint node --proxy_app=kvstore --p2p.persistent_peers=" +:+ Go.Join l ",".

(** One node started: what it was handed. *)
Record started := mkStarted {
  node : nat;
  peer_list : list string;
  command : string
}.

(** Modelled from the spec: [helpers.AllNodeExecCon] is not among the
    sources at hand; it calls the worker once for every node, the workers
    running in an order of the scheduler's choosing, here [order] (the
    absolute numbers of the nodes). The start stage of [Build] under it: *)
Fixpoint start_all (p : peers_t) (order : list nat) : Go.outcome (list started) :=
  match order with
  | [] => mret []
  | n :: rest =>
      r ← persistent_peers p n;
      others ← start_all r.2 rest;
      mret (mkStarted n r.1 (start_command r.1) :: others)
  end.

(** The list the specification promises node [i]. *)
Definition without_self (peers : list string) (i : nat) : list string :=
  take i peers ++ drop (S i) peers.

End tendermint.

(** ** Package rest *)

Module rest.

Definition nl : string := String (Ascii.ascii_of_nat 10) EmptyString.

(** [http.ResponseWriter]: the status line, unset until the header goes
    out, and the body written so far. *)
Record Response := mkResponse {
  status : option Z;
  body : string
}.

Definition fresh : Response := mkResponse None EmptyString.

(** [WriteHeader]: a second call changes nothing. *)
Definition WriteHeader (code : Z) (w : Response) : Response :=
  match status w with
  | None => mkResponse (Some code) (body w)
  | Some _ => w
  end.

(** [Write]: the header goes out with 200 if it has not yet. *)
Definition Write (data : string) (w : Response) : Response :=
  let w := WriteHeader 200 w in
  mkResponse (status w) (body w +:+ data).

(** [http.Error]: the status, then the message and a newline. *)
Definition Error (msg : string) (code : Z) (w : Response) : Response :=
  Write (msg +:+ nl) (WriteHeader code w).

(** What the collaborators of a handler answer during one request. The
    netem backend and the lookups of packages db and status are outside
    the files at hand and enter through their results. *)
Record Backend := mkBackend {
  Decode : Go.error;                       (* decoder.Decode(&netConf) *)
  Atoi1 : Z + string;                      (* strconv.Atoi(params["node1"]) *)
  Atoi2 : Z + string;                      (* strconv.Atoi(params["node2"]) *)
  GetAllNodesByTestNet : list db.Node + string;
  GetNodeByAbsNum : list db.Node -> Z -> db.Node + string;
  ApplyAll : Go.error;
  ApplyToAll : Go.error;
  MakeOutage : db.Node -> db.Node -> Go.error;
  RemoveOutage : db.Node -> db.Node -> Go.error;
  GetLatestServers : list db.Server + string;
  GetClient : Z -> testnet.ClientRef + string;
  GetConfigOnServer : testnet.ClientRef -> list string + string;
  Marshal : list string -> string + string
}.

Definition handleNet (b : Backend) (w : Response) : Response :=
  match Decode b with
  | Some err => Error err 400 w
  | None =>
      match GetAllNodesByTestNet b with
      | inr err => Error err 500 w
      | inl nodes =>
          match ApplyAll b with
          | Some err => Error err 500 w
          | None => Write "Success" w
          end
      end
  end.

Definition handleNetAll (b : Backend) (w : Response) : Response :=
  match Decode b with
  | Some err => Error err 400 w
  | None =>
      match GetAllNodesByTestNet b with
      | inr err => Error err 500 w
      | inl nodes =>
          (* netem.RemoveAll(nodes) *)
          let w := match ApplyToAll b with
                   | Some err => Error err 500 w
                   | None => w
                   end in
          Write "Success" w
      end
  end.

Definition stopNet (b : Backend) (w : Response) : Response :=
  match GetAllNodesByTestNet b with
  | inr err => Error err 500 w
  | inl nodes => Write "Success" w
  end.

(** The loop of [getNet] over the servers. *)
Fixpoint getNet_loop (b : Backend) (servers : list db.Server) (out : list string)
  : list string + (string * Z) :=
  match servers with
  | [] => inl out
  | server :: rest =>
      match GetClient b (db.ID server) with
      | inr err => inr (err, 404)
      | inl client =>
          match GetConfigOnServer b client with
          | inr err => inr (err, 500)
          | inl confs => getNet_loop b rest (out ++ confs)
          end
      end
  end.

Definition getNet (b : Backend) (w : Response) : Response :=
  match GetLatestServers b with
  | inr err => Error err 404 w
  | inl servers =>
      match getNet_loop b servers [] with
      | inr (err, code) => Error err code w
      | inl out =>
          match Marshal b out with
          | inr err => Error err 500 w
          | inl output => Write output w
          end
      end
  end.

(** [addOutage] and [removeOutage] differ in the backend verb only. *)
Definition outage (verb : db.Node -> db.Node -> Go.error) (b : Backend) (w : Response)
  : Response :=
  match Atoi1 b with
  | inr err => Error err 400 w
  | inl nodeNum1 =>
      match Atoi2 b with
      | inr err => Error err 400 w
      | inl nodeNum2 =>
          match GetAllNodesByTestNet b with
          | inr err => Error err 404 w
          | inl nodes =>
              match GetNodeByAbsNum b nodes nodeNum1 with
              | inr err => Error err 404 w
              | inl node1 =>
                  match GetNodeByAbsNum b nodes nodeNum2 with
                  | inr err => Error err 404 w
                  | inl node2 =>
                      match verb node1 node2 with
                      | Some err => Error err 500 w
                      | None => Write "Success" w
                      end
                  end
              end
          end
      end
  end.

Definition addOutage (b : Backend) := outage (MakeOutage b) b.
Definition removeOutage (b : Backend) := outage (RemoveOutage b) b.

(** The handlers of the control plane. *)
Inductive handler : Type :=
| OnHandleNet
| OnHandleNetAll
| OnStopNet
| OnGetNet
| OnAddOutage
| OnRemoveOutage.

Definition serve (h : handler) : Backend -> Response -> Response :=
  match h with
  | OnHandleNet => handleNet
  | OnHandleNetAll => handleNetAll
  | OnStopNet => stopNet
  | OnGetNet => getNet
  | OnAddOutage => addOutage
  | OnRemoveOutage => removeOutage
  end.

(** The handlers that apply or remove an emulation. *)
Definition netem (h : handler) : bool :=
  match h with
  | OnHandleNet | OnHandleNetAll | OnStopNet => true
  | _ => false
  end.

(** *** A request as the specification reads it

    The specification tells three causes of failure apart: a request
    that cannot be decoded, a testnet or node that is missing, and a
    backend that fails. [checks h b] lists what the handler [h] asks of
    the backend [b], in the order the specification gives, each with its
    cause and the error answered; a lookup that failed counts as having
    found nothing. The first error in the list is the failure of the
    request. *)
Inductive cause : Type :=
| Undecodable
| Missing
| BackendFailure.

Definition failed {A} (r : A + string) : Go.error :=
  match r with
  | inr err => Some err
  | inl _ => None
  end.

Definition got {A} (nothing : A) (r : A + string) : A :=
  match r with
  | inl a => a
  | inr _ => nothing
  end.

Definition no_node : db.Node := db.mkNode 0 0 0 0 EmptyString 0 EmptyString.
Definition no_client : testnet.ClientRef := testnet.mkClientRef 0.

Definition lookup_checks (b : Backend) : list (cause * Go.error) :=
  [(Missing, failed (GetAllNodesByTestNet b))].

Definition server_checks (b : Backend) (server : db.Server) : list (cause * Go.error) :=
  [(Missing, failed (GetClient b (db.ID server)));
   (BackendFailure,
    failed (GetConfigOnServer b (got no_client (GetClient b (db.ID server)))))].

(** The configurations of the servers, one server after the other. *)
Definition collected (b : Backend) (servers : list db.Server) : list string :=
  flat_map (fun server =>
              got [] (GetConfigOnServer b (got no_client (GetClient b (db.ID server)))))
           servers.

Definition outage_checks (verb : db.Node -> db.Node -> Go.error) (b : Backend)
  : list (cause * Go.error) :=
  let nodes := got [] (GetAllNodesByTestNet b) in
  let node1 := GetNodeByAbsNum b nodes (got 0 (Atoi1 b)) in
  let node2 := GetNodeByAbsNum b nodes (got 0 (Atoi2 b)) in
  [(Undecodable, failed (Atoi1 b)); (Undecodable, failed (Atoi2 b))]
  ++ lookup_checks b
  ++ [(Missing, failed node1); (Missing, failed node2);
      (BackendFailure, verb (got no_node node1) (got no_node node2))].

Definition checks (h : handler) (b : Backend) : list (cause * Go.error) :=
  match h with
  | OnHandleNet => (Undecodable, Decode b) :: lookup_checks b ++ [(BackendFailure, ApplyAll b)]
  | OnHandleNetAll =>
      (Undecodable, Decode b) :: lookup_checks b ++ [(BackendFailure, ApplyToAll b)]
  | OnStopNet => lookup_checks b
  | OnGetNet =>
      let servers := got [] (GetLatestServers b) in
      (Missing, failed (GetLatestServers b))
      :: flat_map (server_checks b) servers
      ++ [(BackendFailure, failed (Marshal b (collected b servers)))]
  | OnAddOutage => outage_checks (MakeOutage b) b
  | OnRemoveOutage => outage_checks (RemoveOutage b) b
  end.

Fixpoint first_failure (l : list (cause * Go.error)) : option (cause * string) :=
  match l with
  | [] => None
  | (c, Some err) :: _ => Some (c, err)
  | (_, None) :: l' => first_failure l'
  end.

(** A response that reports the error [err] with the status [code]:
    the body begins with the error and its newline. *)
Definition reports (r : Response) (err : string) (code : Z) : Prop :=
  status r = Some code ∧ ∃ more, body r = (err +:+ nl) +:+ more.

(** Whether the byte [c] occurs in [s]. *)
Fixpoint contains (c : ascii) (s : string) : bool :=
  match s with
  | EmptyString => false
  | String d s' => Ascii.eqb c d || contains c s'
  end.

End rest.

(** ** Sample data *)

Module samples.

Definition node_a : db.Node := db.mkNode 0 7 1 0 "10.0.0.1" 0 EmptyString.
Definition node_b : db.Node := db.mkNode 0 7 1 1 "10.0.0.2" 0 EmptyString.
Definition node_c : db.Node := db.mkNode 0 7 2 0 "10.0.1.1" 0 EmptyString.
Definition nodes_e1 : list db.Node := [node_a; node_b; node_c].
Definition bs0 : state.BuildState := state.mkBuildState "build" None false ∅.
Definition tn_empty : testnet.TestNet :=
  testnet.mkTestNet "build" [] [] [] ∅ bs0 [] (db.mkDD None EmptyString 0 None None None)
    testnet.PtrParam.

(** A client of server 1 whose build goes on, and one whose build has
    been stopped by the error of another worker. *)
Definition world0 : ssh.World :=
  ssh.mkWorld 1 "whiteblock-node" "/output.log" bs0 None
    (fun _ => (EmptyString, None)) (fun out err => err) true [].
Definition world_stopped : ssh.World :=
  ssh.mkWorld 1 "whiteblock-node" "/output.log"
    (state.ReportError "init failed" bs0) None
    (fun _ => (EmptyString, None)) (fun out err => err) true [].

(** A client of server 1 on a stopped build whose host refuses the
    connection, so that [getSession] hands out no session. *)
Definition world_unreachable : ssh.World :=
  ssh.mkWorld 1 "whiteblock-node" "/output.log"
    (state.ReportError "init failed" bs0)
    (Some "dial tcp 10.0.0.1:22: connect: connection refused")
    (fun _ => (EmptyString, None)) (fun out err => err) true [].

(** A testnet with one node built and not yet stored. *)
Definition tn_one : testnet.TestNet :=
  testnet.mkTestNet "build" [] [node_a] [node_a] ∅ bs0 []
    (db.mkDD None EmptyString 1 None None None) testnet.PtrParam.
Definition run_ok : db.InsertRun := db.mkInsertRun None None None None 1 None.
Definition run_exec_fails : db.InsertRun :=
  db.mkInsertRun None None (Some "UNIQUE constraint failed") None 0 None.

(** The two servers of scenario E1. *)
Definition servers_e1 : list db.Server :=
  [db.mkServer 1 ["10.0.0.1"; "10.0.0.2"]; db.mkServer 2 ["10.0.1.1"]].

(** A backend on which decoding and the node lookup succeed and both
    netem verbs fail with [err]. *)
Definition netem_fails (err : string) (nodes : list db.Node) : rest.Backend :=
  rest.mkBackend None (inl 0) (inl 0) (inl nodes) (fun _ _ => inr "not found")
    (Some err) (Some err) (fun _ _ => None) (fun _ _ => None)
    (inl []) (fun i => inl (testnet.mkClientRef i)) (fun _ => inl []) (fun _ => inl "[]").

(** Scenario E2: the deployment the testnet is created with and the one
    added to it. *)
Definition dd_first : db.DeploymentDetails :=
  db.mkDD (Some [1]) "tendermint" 2 (Some ["img1"]) None
    (Some [Some {[ "a" := "A" ]}]).
Definition dd_second : db.DeploymentDetails :=
  db.mkDD (Some [1]) "tendermint" 1 (Some ["img2"]) None
    (Some [Some {[ "b" := "B" ]}]).
Definition env0 : testnet.Env :=
  testnet.mkEnv (fun id => inl (state.mkBuildState id None false ∅))
    (fun _ => inl [db.mkServer 1 ["10.0.0.1"; "10.0.0.2"; "10.0.0.3"]])
    (fun i => inl (testnet.mkClientRef i)).

(** Three peers as the initialization stage harvests them. *)
Definition peers3 : list string :=
  ["id0@10.0.0.1:26656"; "id1@10.0.0.2:26656"; "id2@10.0.0.3:26656"].

(** A backend on which everything succeeds: the two servers of E1, each
    reporting one configuration. *)
Definition backend_up : rest.Backend :=
  rest.mkBackend None (inl 0) (inl 2) (inl [node_a; node_b; node_c])
    (fun nodes n => inl node_a) None None (fun _ _ => None) (fun _ _ => None)
    (inl servers_e1) (fun i => inl (testnet.mkClientRef i))
    (fun c => inl ["{}"]) (fun l => inl ("[" +:+ Go.Join l "," +:+ "]")).

(** A backend on which the nodes of the testnet cannot be looked up. *)
Definition backend_no_testnet : rest.Backend :=
  rest.mkBackend None (inl 0) (inl 1) (inr "no such testnet")
    (fun nodes n => inr "not found") None None (fun _ _ => None) (fun _ _ => None)
    (inl servers_e1) (fun i => inl (testnet.mkClientRef i))
    (fun c => inl ["{}"]) (fun l => inl ("[" +:+ Go.Join l "," +:+ "]")).

(** Servers of capacity 4, a database that takes no statement with a
    percent sign in it, and a [CheckFatal] that panics with the error. *)
Definition capacity4 (serverId : Z) : Z := 4.
Definition sqlite (statement : string) : list db.Node + string :=
  if Nat.eqb (Go.Count statement "%") 0 then inl [] else inr "near %: syntax error".
Definition fatal (err : Go.error) : Go.outcome unit :=
  match err with
  | Some e => Go.Panic e
  | None => Go.Ret tt
  end.

(** A client of server 1 on which the command [false] fails and every
    other command answers its own text. *)
Definition world_flaky : ssh.World :=
  ssh.mkWorld 1 "whiteblock-node" "/output.log" bs0 None
    (fun c => if String.eqb c "false" then (EmptyString, Some "exit status 1") else (c, None))
    (fun out err => err) true [].

(** A client of server 1 whose build was stopped from outside, no error
    reported. *)
Definition world_aborted : ssh.World :=
  ssh.mkWorld 1 "whiteblock-node" "/output.log"
    (state.mkBuildState "build" None true ∅) None
    (fun _ => (EmptyString, None)) (fun out err => err) true [].

(** A host that refuses two dials and accepts the third. *)
Definition dialer_third : ssh.Dialer :=
  ssh.mkDialer (inl "key") (fun _ => None)
    (fun k => if (k <? 2)%nat then inr "connection refused" else inl 7%nat).


(** The testnet of scenario E2 as [NewTestNet] makes it, on one server. *)
Definition tn_first : testnet.TestNet :=
  testnet.mkTestNet "build" [db.mkServer 1 ["10.0.0.1"; "10.0.0.2"; "10.0.0.3"]] [] []
    {[ 1 := testnet.mkClientRef 1 ]} (state.mkBuildState "build" None false ∅)
    [dd_first] dd_first testnet.PtrParam.

(** [CreateConfigs] on the servers of E1, with one client for either,
    the workers run in the reverse of the order they were started in;
    the callback notes its calls and builds the same text for every
    node, and every copy succeeds. *)
Definition configs_run : Go.outcome Go.error * helpers.shared (list helpers.call * unit) unit :=
  helpers.CreateConfigs [1; 2] "/config.toml"
    (helpers.noting (helpers.stateless (fun _ _ _ => inl "config")))
    (helpers.answering (fun _ _ _ => None))
    servers_e1 bs0 reverse ([], tt) tt.

End samples.

(** * Theorems *)

(** ** TestNet.AddNode *)

Section AddNode.
Import db testnet.

(** What one call does. *)
Lemma AddNode_step (tn : TestNet) (node : Node) :
  let numbered := set_AbsoluteNum node (Z.of_nat (length (Nodes tn))) in
  AddNode tn node =
    (set_Nodes tn (Nodes tn ++ [numbered]) (NewlyBuiltNodes tn ++ [numbered]),
     Z.of_nat (length (Nodes tn))).
Proof. reflexivity. Qed.

(** A run of calls from any testnet: the numbers continue where the
    node list ends. *)
Lemma AddNode_all_from (nodes : list Node) : ∀ tn : TestNet,
  let nums := Z.of_nat <$> seq (length (Nodes tn)) (length nodes) in
  (AddNode_all tn nodes).2 = nums
  ∧ Nodes (AddNode_all tn nodes).1 = Nodes tn ++ zip_with set_AbsoluteNum nodes nums
  ∧ NewlyBuiltNodes (AddNode_all tn nodes).1
    = NewlyBuiltNodes tn ++ zip_with set_AbsoluteNum nodes nums.
Proof.
  induction nodes as [|node rest IH]; intros tn; cbn.
  - by rewrite !app_nil_r.
  - destruct (AddNode tn node) as [tn1 num] eqn:E1.
    rewrite AddNode_step in E1. injection E1 as <- <-.
    specialize (IH (set_Nodes tn
      (Nodes tn ++ [set_AbsoluteNum node (Z.of_nat (length (Nodes tn)))])
      (NewlyBuiltNodes tn ++ [set_AbsoluteNum node (Z.of_nat (length (Nodes tn)))]))).
    destruct (AddNode_all _ rest) as [tn2 nums] eqn:E2.
    cbn in IH |- *. rewrite length_app, Nat.add_1_r in IH.
    destruct IH as (-> & -> & ->).
    by rewrite <- !app_assoc.
Qed.

Lemma AbsoluteNum_zip (nodes : list Node) : ∀ nums : list Z,
  length nums = length nodes →
  AbsoluteNum <$> zip_with set_AbsoluteNum nodes nums = nums.
Proof.
  induction nodes as [|n ns IH]; intros [|z zs] Hl; try done.
  cbn. f_equal. apply IH. by injection Hl.
Qed.

End AddNode.

(** C4. Starting from a testnet with no nodes, any sequence of [AddNode]
    calls hands out the numbers [0, 1, ..., N-1], each once: the numbers
    returned and the [AbsoluteNum] fields of the nodes stored are that
    prefix, every node goes, with its number, to the end of both [Nodes] and
    [NewlyBuiltNodes], and a single call numbers its node with the length of
    [Nodes] before the call and returns that number. *)
Theorem AddNode_numbers_contiguous (tn : testnet.TestNet) (nodes : list db.Node) :
  testnet.Nodes tn = [] →
  let after := (testnet.AddNode_all tn nodes).1 in
  let nums := (testnet.AddNode_all tn nodes).2 in
  nums = Z.of_nat <$> seq 0 (length nodes)
  ∧ db.AbsoluteNum <$> testnet.Nodes after = nums
  ∧ NoDup nums
  ∧ testnet.Nodes after = zip_with db.set_AbsoluteNum nodes nums
  ∧ testnet.NewlyBuiltNodes after = testnet.NewlyBuiltNodes tn ++ testnet.Nodes after
  ∧ ∀ (t : testnet.TestNet) (n : db.Node),
      let numbered := db.set_AbsoluteNum n (Z.of_nat (length (testnet.Nodes t))) in
      testnet.AddNode t n =
        (testnet.set_Nodes t (testnet.Nodes t ++ [numbered])
           (testnet.NewlyBuiltNodes t ++ [numbered]),
         Z.of_nat (length (testnet.Nodes t))).
Proof.
  intros Hempty after nums. subst after nums.
  destruct (AddNode_all_from nodes tn) as (Hn & Hs & Hb).
  rewrite Hempty in *. cbn in Hn, Hs.
  rewrite Hn, Hs, Hb. repeat split.
  - apply AbsoluteNum_zip. by rewrite length_fmap, length_seq.
  - apply (NoDup_fmap_2 _). apply NoDup_seq.
Qed.

Lemma AddNode_numbers_contiguous_witness :
  (testnet.AddNode_all samples.tn_empty samples.nodes_e1).2 = [0; 1; 2].
Proof.
  exact (proj1 (AddNode_numbers_contiguous samples.tn_empty samples.nodes_e1 eq_refl)).
Defined.

(** ** db.InsertNode *)

(** C9. [InsertNode] has a failure path that answers a nil error: when
    the transaction begins, the statement is prepared and its execution
    fails, whatever the error, the result is [(-1, nil)] and no row is
    added. *)
Theorem InsertNode_exec_failure_returns_nil
    (err : string) (commit : Go.error) (id : Z) (id_err : Go.error)
    (node : db.Node) (table : list db.Row) :
  db.InsertNode (db.mkInsertRun None None (Some err) commit id id_err) node table
  = ((-1, None), table).
Proof. reflexivity. Qed.

(** ** TestNet.StoreNodes *)

Section StoreNodes.
Import db testnet.

Lemma InsertNode_table (run : InsertRun) (node : Node) (table : list Row) :
  (InsertNode run node table).2 = table
  ∨ (InsertNode run node table).2 = table ++ [row_of node].
Proof.
  unfold InsertNode.
  destruct (begin_err run), (prepare_err run), (exec_err run), (commit_err run);
    cbn; auto.
Qed.

(** With nil labels the loop hands every node to the database as it is. *)
Lemma StoreNodes_loop_nil (runs : nat → InsertRun) (nodes : list Node) :
  ∀ (i : nat) (table : list Row) (log : list string),
  ∃ inserted log',
    StoreNodes_loop runs None i nodes table log = Go.Ret (table ++ inserted, log')
    ∧ sublist inserted (row_of <$> nodes).
Proof.
  induction nodes as [|node rest IH]; intros i table log; cbn.
  - exists [], log. by rewrite app_nil_r.
  - destruct (InsertNode (runs i) node table) as [[num err] table'] eqn:E.
    pose proof (InsertNode_table (runs i) node table) as Ht. rewrite E in Ht. cbn in Ht.
    destruct (IH (S i) table' (match err with Some e => log ++ [e] | None => log end))
      as (ins & log' & -> & Hsub).
    destruct Ht as [-> | ->].
    + exists ins, log'. split; [done|]. by apply sublist_cons.
    + exists (row_of node :: ins), log'. rewrite <- app_assoc. split; [done|].
      by apply sublist_skip.
Qed.

(** With a label for every node the loop never leaves the bounds. *)
Lemma StoreNodes_loop_labelled (runs : nat → InsertRun) (ls : list string)
    (nodes : list Node) :
  ∀ (i : nat) (table : list Row) (log : list string),
  (i + length nodes ≤ length ls)%nat →
  ∃ r, StoreNodes_loop runs (Some ls) i nodes table log = Go.Ret r.
Proof.
  induction nodes as [|node rest IH]; intros i table log Hlen; cbn in *.
  - eauto.
  - unfold Go.index. cbn.
    destruct (lookup_lt_is_Some_2 ls i ltac:(lia)) as [l ->]. cbn.
    destruct (InsertNode (runs i) (set_Label node l) table) as [[num err] table'].
    apply IH. lia.
Qed.

End StoreNodes.

(** C10, as the code has it. [StoreNodes] returns a nil error, whatever
    the database answers, when [labels] is nil or holds a label for every
    newly built node; the testnet is left as it was, the labels of its
    nodes included, and with nil labels every row added to the table is
    that of a newly built node, in their order. *)
Theorem StoreNodes_returns_nil (runs : nat → db.InsertRun) (tn : testnet.TestNet)
    (labels : Go.slice string) (table : list db.Row) :
  labels = None ∨ (length (testnet.NewlyBuiltNodes tn) ≤ length (Go.elems labels))%nat →
  ∃ table' log,
    testnet.StoreNodes runs tn labels table = Go.Ret (None, tn, table', log)
    ∧ (labels = None →
       ∃ inserted, table' = table ++ inserted
                   ∧ sublist inserted (db.row_of <$> testnet.NewlyBuiltNodes tn)).
Proof.
  intros Hl. unfold testnet.StoreNodes.
  destruct labels as [ls|].
  - destruct Hl as [|Hl]; [done|].
    destruct (StoreNodes_loop_labelled runs ls (testnet.NewlyBuiltNodes tn) 0 table [] Hl)
      as [[table' log] ->].
    exists table', log. by split.
  - destruct (StoreNodes_loop_nil runs (testnet.NewlyBuiltNodes tn) 0 table [])
      as (ins & log & -> & Hsub).
    exists (table ++ ins), log. split; [done|]. eauto.
Qed.

Lemma StoreNodes_returns_nil_witness :
  ∃ table' log,
    testnet.StoreNodes (fun _ => samples.run_exec_fails) samples.tn_one None []
    = Go.Ret (None, samples.tn_one, table', log)
    ∧ ((None : Go.slice string) = None →
       ∃ inserted, table' = [] ++ inserted
                   ∧ sublist inserted (db.row_of <$> testnet.NewlyBuiltNodes samples.tn_one)).
Proof.
  exact (StoreNodes_returns_nil (fun _ => samples.run_exec_fails) samples.tn_one None []
           (or_introl eq_refl)).
Defined.

(** C10, as stated, fails: handed a non-nil [labels] with fewer entries
    than there are newly built nodes, [StoreNodes] does not return; it
    panics on [labels[i]]. *)
Lemma StoreNodes_short_labels_panic :
  testnet.StoreNodes (fun _ => samples.run_ok) samples.tn_one (Some []) []
  = Go.Panic "index out of range"
  ∧ ¬ (∀ (runs : nat → db.InsertRun) (tn : testnet.TestNet) (labels : Go.slice string)
         (table : list db.Row),
         ∃ tn' table' log,
           testnet.StoreNodes runs tn labels table = Go.Ret (None, tn', table', log)).
Proof.
  split; [reflexivity|].
  intros H.
  destruct (H (fun _ => samples.run_ok) samples.tn_one (Some []) []) as (? & ? & ? & E).
  discriminate E.
Qed.

(** ** ssh.Client *)

(** C3. A command whose single quotes are not all escaped makes
    [DockerExecdLog] panic in its precondition check, for every node, with
    the world (the trace of remote input/output included) as it was. *)
Theorem DockerExecdLog_unescaped_quote_panics (node : Z) (command : string) (w : ssh.World) :
  Go.Count command "'" ≠ Go.Count command "\'" →
  ssh.DockerExecdLog node command w
  = (Go.Panic "DockerExecdLog commands cannot contain unescaped ' characters", w).
Proof.
  intros Hne. unfold ssh.DockerExecdLog, ssh.logSanitizeAndStore.
  apply Nat.eqb_neq in Hne. by rewrite Hne.
Qed.

(** E4: two single quotes, none of them escaped. *)
Lemma DockerExecdLog_unescaped_quote_panics_witness :
  Go.Count "echo 'hi'" "'" = 2%nat
  ∧ Go.Count "echo 'hi'" "\'" = 0%nat
  ∧ ssh.DockerExecdLog 0 "echo 'hi'" samples.world0
    = (Go.Panic "DockerExecdLog commands cannot contain unescaped ' characters",
       samples.world0).
Proof.
  split; [reflexivity|]. split; [reflexivity|].
  apply (DockerExecdLog_unescaped_quote_panics 0 "echo 'hi'" samples.world0).
  vm_compute. lia.
Defined.

(** C7. On a stopped build whose client gets no session, [Run] does not
    return the build's error: [session.Close()] is deferred before the
    error of [getSession] is looked at, so the call ends in [Close] on the
    nil session. [InternalScp], and [Scp] with it, looks at the error
    first and returns it. *)
Theorem Run_stopped_without_session_panics (command : string) (w : ssh.World) (e : string) :
  state.Stop (ssh.bs w) = true →
  ssh.session_err w = Some e →
  ssh.nil_close_panics w = true →
  ssh.Run command w
  = (Go.Panic "invalid memory address or nil pointer dereference",
     ssh.log (ssh.EvSession false) w)
  ∧ (ssh.Run command w).1 ≠ Go.Ret (EmptyString, state.GetError (ssh.bs w))
  ∧ ∀ CopyPath src dest,
      ssh.InternalScp CopyPath src dest w
      = (Go.Ret (Some e), ssh.log (ssh.EvSession false) w).
Proof.
  intros Hstop Hs Hp.
  assert (Hrun : ssh.Run command w
                 = (Go.Panic "invalid memory address or nil pointer dereference",
                    ssh.log (ssh.EvSession false) w)).
  { unfold ssh.Run, ssh.getSession. rewrite Hs. cbn. rewrite Hstop.
    unfold ssh.Close. cbn. by rewrite Hp. }
  split; [done|]. split; [by rewrite Hrun|].
  intros CopyPath src dest. unfold ssh.InternalScp, ssh.getSession. by rewrite Hs.
Qed.

Lemma Run_stopped_without_session_panics_witness :
  state.Stop (ssh.bs samples.world_unreachable) = true
  ∧ state.GetError (ssh.bs samples.world_unreachable) = Some "init failed"
  ∧ ssh.Run "docker ps" samples.world_unreachable
    = (Go.Panic "invalid memory address or nil pointer dereference",
       ssh.log (ssh.EvSession false) samples.world_unreachable).
Proof.
  split; [reflexivity|]. split; [reflexivity|].
  exact (proj1 (Run_stopped_without_session_panics "docker ps" samples.world_unreachable
                  "dial tcp 10.0.0.1:22: connect: connection refused"
                  eq_refl eq_refl eq_refl)).
Defined.

(** X31. Once the build state registered for the client reports [Stop()],
    [Run] executes no remote command, and it returns the empty output with
    the error [GetError()] answers whenever [getSession] has handed out a
    session (or [Close] survives the nil one). *)
Theorem Run_stopped_short_circuits (command : string) (w : ssh.World) :
  state.Stop (ssh.bs w) = true →
  ssh.executed (ssh.Run command w).2 = ssh.executed w
  ∧ (ssh.session_err w = None ∨ ssh.nil_close_panics w = false →
     (ssh.Run command w).1 = Go.Ret (EmptyString, state.GetError (ssh.bs w))).
Proof.
  intros Hstop. unfold ssh.Run, ssh.getSession.
  destruct (ssh.session_err w) as [err|] eqn:Es; cbn; rewrite Hstop; cbn.
  - destruct (ssh.nil_close_panics w) eqn:Ep; cbn.
    + split.
      * unfold ssh.executed. cbn. rewrite omap_app. cbn. by rewrite app_nil_r.
      * intros [|]; done.
    + split; [|done].
      unfold ssh.executed. cbn. rewrite omap_app. cbn. by rewrite app_nil_r.
  - split; [|done].
    unfold ssh.executed. cbn. rewrite !omap_app. cbn. by rewrite !app_nil_r.
Qed.

Lemma Run_stopped_short_circuits_witness :
  ssh.executed (ssh.Run "docker ps" samples.world_stopped).2 = []
  ∧ (ssh.Run "docker ps" samples.world_stopped).1 = Go.Ret (EmptyString, Some "init failed").
Proof.
  destruct (Run_stopped_short_circuits "docker ps" samples.world_stopped eq_refl)
    as [Hexec Hret].
  split; [exact Hexec | exact (Hret (or_introl eq_refl))].
Defined.

(** ** helpers.CreateConfigs *)

Section CreateConfigs.
Import db helpers.

Lemma spawn_nodes_spec (i : nat) (ips : list string) : ∀ j node : nat,
  spawn_nodes i ips j node
  = (zip_with (mkCall i) (seq j (length ips)) (seq node (length ips)),
     (node + length ips)%nat).
Proof.
  induction ips as [|ip ips IH]; intros j node; cbn.
  - by rewrite Nat.add_0_r.
  - rewrite IH. f_equal. lia.
Qed.

Lemma pairs_from_cons (i : nat) (server : Server) (rest : list Server) :
  pairs_from i (server :: rest)
  = ((fun j => (i, j)) <$> seq 0 (length (Ips server))) ++ pairs_from (S i) rest.
Proof. reflexivity. Qed.

Lemma length_pairs_from (servers : list Server) : ∀ i : nat,
  length (pairs_from i servers) = total servers.
Proof.
  unfold total.
  induction servers as [|s rest IH]; intros i; [done|].
  rewrite pairs_from_cons. cbn [flat_map].
  by rewrite !length_app, length_fmap, length_seq, IH.
Qed.

(** The workers started are the iteration space zipped with the
    counter values. *)
Lemma spawn_servers_spec (servers : list Server) : ∀ i node : nat,
  spawn_servers servers i node
  = zip_with (fun p a => mkCall p.1 p.2 a) (pairs_from i servers)
      (seq node (total servers)).
Proof.
  induction servers as [|s rest IH]; intros i node; [done|].
  cbn [spawn_servers]. rewrite spawn_nodes_spec, IH, pairs_from_cons.
  unfold total. cbn [flat_map]. rewrite length_app, seq_app.
  rewrite zip_with_app by (by rewrite length_fmap, !length_seq).
  by rewrite zip_with_fmap_l.
Qed.

(** A worker calls [fn] once, first thing, with the arguments it was
    started with. *)
Lemma worker_captured {S W C} (clients : list C) (dest : string)
    (fn : nat → nat → nat → S → (string + string) * S)
    (SingleCp : C → state.BuildState → nat → string → string → W
                → Go.outcome Go.error * W)
    (c : call) (s : shared S W) :
  captured (worker clients dest fn SingleCp c s).2
  = (fn (serverNum c) (localNodeNum c) (absoluteNodeNum c) (captured s)).2.
Proof.
  unfold worker. cbv zeta.
  destruct (fn _ _ _ _) as [[data|err] st]; cbn; [|done].
  destruct (clients !! serverNum c) as [client|]; cbn; [|done].
  destruct (SingleCp _ _ _ _ _ _) as [[msg|[err|]] o]; done.
Qed.

(** The workers that have run when the run ends are the first of the
    order, all of them when no worker panicked; each has called [fn]
    once. *)
Lemma workers_captured {S W C} (clients : list C) (dest : string)
    (fn : nat → nat → nat → S → (string + string) * S)
    (SingleCp : C → state.BuildState → nat → string → string → W
                → Go.outcome Go.error * W)
    (order : list call) : ∀ s : shared S W,
  let r := workers clients dest fn SingleCp order s in
  ∃ ran : list call,
    ran `prefix_of` order
    ∧ captured r.2 = after_calls fn ran (captured s)
    ∧ ((∃ u, r.1 = Go.Ret u) → ran = order).
Proof.
  induction order as [|c rest IH]; intros s; cbn [workers].
  - exists []. by repeat split.
  - pose proof (worker_captured clients dest fn SingleCp c s) as Hc.
    destruct (worker clients dest fn SingleCp c s) as [[msg|u] s1] eqn:E1.
    + exists [c]. cbn [fst snd] in *. split; [|split].
      * by exists rest.
      * done.
      * by intros [? ?].
    + destruct (IH s1) as (ran & Hpre & Hcap & Hall). cbn zeta in *.
      exists (c :: ran). split; [|split].
      * by apply prefix_cons.
      * rewrite Hcap. cbn [snd] in Hc. by rewrite Hc.
      * intros Hret. by rewrite (Hall Hret).
Qed.

(** What a noting callback has noted and what [fn] has captured behind
    it. *)
Lemma after_calls_noting {S} (fn : nat → nat → nat → S → (string + string) * S)
    (calls : list call) : ∀ (noted : list call) (st : S),
  after_calls (noting fn) calls (noted, st) = (noted ++ calls, after_calls fn calls st).
Proof.
  induction calls as [|[i j node] calls IH]; intros noted st; cbn.
  - by rewrite app_nil_r.
  - unfold after_calls in *. cbn. rewrite IH. by rewrite <- app_assoc.
Qed.

(** With a client for every worker and a [SingleCp] that returns, no
    worker panics. *)
Lemma workers_return {S W C} (clients : list C) (dest : string)
    (fn : nat → nat → nat → S → (string + string) * S)
    (SingleCp : C → state.BuildState → nat → string → string → W
                → Go.outcome Go.error * W)
    (order : list call) : ∀ s : shared S W,
  Forall (fun c => (serverNum c < length clients)%nat) order →
  (∀ client b j data o, ∃ e, (SingleCp client b j data dest o).1 = Go.Ret e) →
  ∃ u, (workers clients dest fn SingleCp order s).1 = Go.Ret u.
Proof.
  intros s Hin Hcp. revert s.
  induction Hin as [|c rest Hc _ IH]; intros s; cbn [workers]; [by eexists|].
  assert (∃ u s1, worker clients dest fn SingleCp c s = (Go.Ret u, s1))
    as (u & s1 & ->); [|apply IH].
  unfold worker. cbv zeta.
  destruct (fn _ _ _ _) as [[data|err] st]; cbn [fst snd]; [|by eexists _, _].
  destruct (lookup_lt_is_Some_2 clients (serverNum c) Hc) as [client ->].
  destruct (Hcp client (build s) (localNodeNum c) data (outside s)) as [e He].
  destruct (SingleCp _ _ _ _ _ _) as [r o]. cbn in He. subst r.
  destruct e; by eexists _, _.
Qed.

Lemma NoDup_pairs_from (servers : list Server) : ∀ i : nat,
  NoDup (pairs_from i servers)
  ∧ ∀ p, p ∈ pairs_from i servers → (i ≤ p.1 < i + length servers)%nat.
Proof.
  induction servers as [|s rest IH]; intros i.
  - split; [constructor|]. intros p Hp. by apply elem_of_nil in Hp.
  - rewrite pairs_from_cons. destruct (IH (S i)) as [Hnd Hge]. split.
    + apply NoDup_app. split; [|split; [|done]].
      * apply (NoDup_fmap_2 _). apply NoDup_seq.
      * intros p Hp Hp'. apply list_elem_of_fmap in Hp as (j & -> & _).
        apply Hge in Hp'. cbn in Hp'. lia.
    + intros p Hp. cbn [length]. apply elem_of_app in Hp as [Hp|Hp].
      * apply list_elem_of_fmap in Hp as (j & -> & _). cbn. lia.
      * apply Hge in Hp. lia.
Qed.

(** The workers started are those of the servers at hand. *)
Lemma spawned_serverNum (servers : list Server) :
  Forall (fun c => (serverNum c < length servers)%nat) (spawned servers).
Proof.
  apply Forall_forall. intros c Hc.
  assert (Hp : (serverNum c, localNodeNum c) ∈ pairs servers).
  { unfold spawned in Hc. rewrite spawn_servers_spec in Hc.
    apply elem_of_lookup_zip_with in Hc as (k & p & a & -> & Hp & _).
    cbn. destruct p. by eapply list_elem_of_lookup_2. }
  apply (proj2 (NoDup_pairs_from servers 0)) in Hp. cbn in Hp. lia.
Qed.

Lemma total_uniform (N : nat) (servers : list Server) :
  Forall (fun s => length (Ips s) = N) servers →
  total servers = (length servers * N)%nat.
Proof.
  unfold total. induction 1 as [|s rest Hs _ IH]; [done|].
  cbn. rewrite length_app, IH, Hs. lia.
Qed.

End CreateConfigs.

(** C6. [CreateConfigs] starts one worker per pair
    [(serverNum, localNodeNum)] with [localNodeNum] below the number of
    addresses of the server, each pair once, numbered from 0 in
    lexicographic order, and a worker calls [fn] once, first thing, with
    the arguments it was started with. The calls are those a callback
    notes that does what [fn] does. Whatever happens, they are the calls of
    the workers that have run, in the order they ran, and [fn] has
    captured what these calls leave. When [CreateConfigs] returns, in
    whatever order the workers ran, the calls cover every pair once, the
    absolute numbers are distinct and are those below the total number of
    nodes, and [S] servers of [N] nodes each make [S * N] calls. It returns
    when there is a client for every server and [SingleCp] returns. *)
Theorem CreateConfigs_calls_fn_once_per_node {S W C : Type}
    (servers : list db.Server) (clients : list C) (bs : state.BuildState) (dest : string)
    (fn : nat → nat → nat → S → (string + string) * S)
    (SingleCp : C → state.BuildState → nat → string → string → W
                → Go.outcome Go.error * W)
    (sched : list helpers.call → list helpers.call) (st : S) (w : W) :
  sched (helpers.spawned servers) ≡ₚ helpers.spawned servers →
  let run := helpers.CreateConfigs clients dest (helpers.noting fn) SingleCp
               servers bs sched ([], st) w in
  let calls := (helpers.captured run.2).1 in
  helpers.spawned servers
    = zip_with (fun p a => helpers.mkCall p.1 p.2 a) (helpers.pairs servers)
        (seq 0 (helpers.total servers))
  ∧ NoDup (helpers.pairs servers)
  ∧ calls `prefix_of` sched (helpers.spawned servers)
  ∧ (helpers.captured run.2).2 = helpers.after_calls fn calls st
  ∧ ((∃ err, run.1 = Go.Ret err) →
     calls ≡ₚ helpers.spawned servers
     ∧ (fun c => (helpers.serverNum c, helpers.localNodeNum c)) <$> calls
         ≡ₚ helpers.pairs servers
     ∧ helpers.absoluteNodeNum <$> calls ≡ₚ seq 0 (helpers.total servers)
     ∧ NoDup (helpers.absoluteNodeNum <$> calls)
     ∧ length calls = helpers.total servers
     ∧ ∀ N : nat, Forall (fun s => length (db.Ips s) = N) servers →
                  length calls = (length servers * N)%nat)
  ∧ ((length servers ≤ length clients)%nat →
     (∀ client b j data o, ∃ e, (SingleCp client b j data dest o).1 = Go.Ret e) →
     ∃ err, run.1 = Go.Ret err).
Proof.
  intros Hsched run calls.
  destruct (workers_captured clients dest (helpers.noting fn) SingleCp
              (sched (helpers.spawned servers)) (helpers.mkShared bs ([], st) w))
    as (ran & Hpre & Hcap & Hall).
  cbn zeta in Hcap, Hall. cbn [helpers.captured] in Hcap.
  rewrite after_calls_noting in Hcap. cbn [app] in Hcap.
  assert (Hrun2 : helpers.captured run.2
                  = helpers.captured
                      (helpers.workers clients dest (helpers.noting fn) SingleCp
                         (sched (helpers.spawned servers))
                         (helpers.mkShared bs ([], st) w)).2).
  { subst run. unfold helpers.CreateConfigs.
    by destruct (helpers.workers _ _ _ _ _ _) as [[?|?] ?]. }
  assert (Hcalls : calls = ran) by (subst calls; by rewrite Hrun2, Hcap).
  assert (Hspawn := spawn_servers_spec servers 0 0).
  fold (helpers.spawned servers) in Hspawn. fold (helpers.pairs servers) in Hspawn.
  assert (Hlen := length_pairs_from servers 0). fold (helpers.pairs servers) in Hlen.
  assert (Hpairs : (fun c => (helpers.serverNum c, helpers.localNodeNum c))
                     <$> helpers.spawned servers = helpers.pairs servers).
  { rewrite Hspawn. apply fmap_zip_with_l; [by intros [] ?|].
    rewrite length_seq. lia. }
  assert (Hnums : helpers.absoluteNodeNum <$> helpers.spawned servers
                  = seq 0 (helpers.total servers)).
  { rewrite Hspawn. apply fmap_zip_with_r; [done|]. rewrite length_seq. lia. }
  split; [done|]. split; [apply NoDup_pairs_from|].
  split; [by rewrite Hcalls|].
  split; [by rewrite Hrun2, Hcap, Hcalls|]. split.
  - intros [err Hret].
    assert (Hran : ran = sched (helpers.spawned servers)).
    { apply Hall. subst run. unfold helpers.CreateConfigs in Hret.
      destruct (helpers.workers _ _ _ _ _ _) as [[?|u] ?]; [done|by exists u]. }
    assert (Hcount : length calls = helpers.total servers).
    { rewrite Hcalls, Hran, Hsched, <- (length_fmap helpers.absoluteNodeNum), Hnums.
      apply length_seq. }
    rewrite Hcalls, Hran. rewrite Hcalls, Hran in Hcount.
    split; [done|].
    split; [by rewrite Hsched, Hpairs|]. split; [by rewrite Hsched, Hnums|].
    split; [rewrite Hsched, Hnums; apply NoDup_seq|]. split; [done|].
    intros N HN. by rewrite Hcount, (total_uniform N).
  - intros Hclients Hcp.
    destruct (workers_return clients dest (helpers.noting fn) SingleCp
                (sched (helpers.spawned servers)) (helpers.mkShared bs ([], st) w))
      as [u Hu]; [|done|].
    + rewrite Hsched. eapply Forall_impl; [apply spawned_serverNum|].
      cbn. intros c Hc. lia.
    + subst run. unfold helpers.CreateConfigs.
      destruct (helpers.workers _ _ _ _ _ _) as [[?|?] ?]; [done|]. by eexists.
Qed.

Lemma CreateConfigs_calls_fn_once_per_node_witness :
  samples.configs_run.1 = Go.Ret None
  ∧ (helpers.captured samples.configs_run.2).1
    = [helpers.mkCall 1 0 2; helpers.mkCall 0 1 1; helpers.mkCall 0 0 0]
  ∧ (helpers.captured samples.configs_run.2).1
    ≡ₚ [helpers.mkCall 0 0 0; helpers.mkCall 0 1 1; helpers.mkCall 1 0 2].
Proof.
  split; [reflexivity|]. split; [reflexivity|].
  refine (proj1 (proj1 (proj2 (proj2 (proj2 (proj2
    (CreateConfigs_calls_fn_once_per_node samples.servers_e1 [1; 2] samples.bs0
       "/config.toml" (helpers.stateless (fun _ _ _ => inl "config"))
       (helpers.answering (fun _ _ _ => None)) reverse tt tt
       (reverse_Permutation _)))))) _)).
  by exists None.
Defined.

(** ** The control plane *)

Section Handlers.
Import rest.
Variable b : Backend.

Lemma first_failure_app (l k : list (cause * Go.error)) :
  first_failure (l ++ k)
  = match first_failure l with
    | Some f => Some f
    | None => first_failure k
    end.
Proof.
  induction l as [|[c [err|]] l IH]; cbn; done.
Qed.

(** The loop of [getNet] stops at the first server that has no client,
    with 404, or that does not answer its configuration, with 500;
    else it has collected the configurations of all. *)
Lemma getNet_loop_checks (servers : list db.Server) : ∀ out : list string,
  getNet_loop b servers out
  = match first_failure (flat_map (server_checks b) servers) with
    | Some (Missing, err) => inr (err, 404)
    | Some (_, err) => inr (err, 500)
    | None => inl (out ++ collected b servers)
    end.
Proof.
  induction servers as [|s rest IH]; intros out; cbn [getNet_loop flat_map collected].
  - by rewrite app_nil_r.
  - unfold server_checks at 1. cbn [app first_failure].
    destruct (GetClient b (db.ID s)) as [c|e]; cbn [failed got]; [|done].
    destruct (GetConfigOnServer b c) as [confs|e]; cbn [failed got]; [|done].
    rewrite IH. fold (collected b rest). by rewrite <- app_assoc.
Qed.

Lemma server_checks_cause (servers : list db.Server) (err : string) :
  first_failure (flat_map (server_checks b) servers) ≠ Some (Undecodable, err).
Proof.
  induction servers as [|s rest IH]; cbn [flat_map]; [done|].
  unfold server_checks at 1. cbn [app first_failure].
  destruct (failed (GetClient b (db.ID s))); [done|].
  destruct (failed (GetConfigOnServer b _)); done.
Qed.

Lemma contains_app (c : ascii) (s t : string) :
  contains c (s +:+ t) = contains c s || contains c t.
Proof.
  induction s as [|d s IH]; [done|].
  change (String d s +:+ t) with (String d (s +:+ t)). cbn [contains].
  by rewrite IH, orb_assoc.
Qed.

(** A body that begins with an error line is not the literal [Success]. *)
Lemma error_line_not_Success (err more : string) :
  (err +:+ nl) +:+ more ≠ "Success".
Proof.
  intros H.
  assert (Hc : contains (Ascii.ascii_of_nat 10) ((err +:+ nl) +:+ more) = true).
  { rewrite !contains_app. unfold nl at 1. cbn [contains].
    rewrite Ascii.eqb_refl. by rewrite orb_true_r. }
  by rewrite H in Hc.
Qed.

(** What [http.Error] leaves on a fresh response. *)
Lemma Error_fresh (err : string) (code : Z) :
  Error err code fresh = mkResponse (Some code) (err +:+ nl).
Proof. reflexivity. Qed.

Lemma string_app_empty (s : string) : s +:+ EmptyString = s.
Proof.
  induction s as [|c s IH]; [done|].
  change (String c s +:+ EmptyString) with (String c (s +:+ EmptyString)). by rewrite IH.
Qed.

Lemma Error_reports (err : string) (code : Z) :
  reports (Error err code fresh) err code
  ∧ body (Error err code fresh) ≠ "Success".
Proof.
  rewrite Error_fresh. cbn [body]. split.
  - split; [done|]. exists EmptyString. by rewrite string_app_empty.
  - rewrite <- (string_app_empty (err +:+ nl)). apply error_line_not_Success.
Qed.

(** [handleNetAll] after a failure of the backend: the error with its
    status, and the literal [Success] written behind it. *)
Lemma handleNetAll_after_failure (nodes : list db.Node) (err : string) :
  Decode b = None → GetAllNodesByTestNet b = inl nodes → ApplyToAll b = Some err →
  handleNetAll b fresh = mkResponse (Some 500) ((err +:+ nl) +:+ "Success").
Proof. intros Hd Hn Ha. unfold handleNetAll. by rewrite Hd, Hn, Ha. Qed.

End Handlers.

(** A handler that stops at an error reports it, and nothing else. *)
Ltac stops :=
  split; [apply Error_reports|]; split; [apply Error_reports|]; intros _; reflexivity.

(** C8, as the code has it. A request fails at the first thing its
    handler asks for and does not get. The handler then reports the error
    with 400 when the request cannot be decoded, with 500 when the backend
    fails, and when the testnet or a node is missing with 404 - but with
    500 in the three handlers that apply or remove an emulation, where the
    failed lookup of the nodes of the testnet is answered so. The body
    begins with the error and is not the literal [Success]; but for
    [handleNetAll] on a failure of the backend, the response is the error
    alone. A request that does not fail is answered 200, with the literal
    body [Success] by the handlers that change the network and with the
    encoded list of the collected configurations by [getNet]. In
    particular, when the netem backend fails during apply-to-all the
    response has the status 500 and begins with the error, and its body is
    not [Success]. *)
Theorem control_plane_responses (h : rest.handler) (b : rest.Backend) :
  let r := rest.serve h b rest.fresh in
  match rest.first_failure (rest.checks h b) with
  | Some (c, err) =>
      let code := match c with
                  | rest.Undecodable => 400
                  | rest.Missing => if rest.netem h then 500 else 404
                  | rest.BackendFailure => 500
                  end in
      rest.reports r err code
      ∧ rest.body r ≠ "Success"
      ∧ (h ≠ rest.OnHandleNetAll ∨ c ≠ rest.BackendFailure →
         r = rest.Error err code rest.fresh)
  | None =>
      r = rest.mkResponse (Some 200)
            (match h with
             | rest.OnGetNet =>
                 rest.got EmptyString (rest.Marshal b
                                (rest.collected b (rest.got [] (rest.GetLatestServers b))))
             | _ => "Success"
             end)
  end
  ∧ ∀ nodes err,
      rest.Decode b = None → rest.GetAllNodesByTestNet b = inl nodes →
      rest.ApplyToAll b = Some err →
      rest.reports (rest.handleNetAll b rest.fresh) err 500
      ∧ rest.body (rest.handleNetAll b rest.fresh) ≠ "Success".
Proof.
  intros r. subst r. split.
  - destruct h; unfold rest.serve, rest.checks, rest.lookup_checks; cbn [app rest.netem].
    + (* handleNet *)
      unfold rest.handleNet.
      destruct (rest.Decode b) as [e|]; cbn [rest.first_failure]; [stops|].
      destruct (rest.GetAllNodesByTestNet b) as [nodes|e];
        cbn [rest.failed rest.first_failure]; [|stops].
      destruct (rest.ApplyAll b) as [e|]; [stops|reflexivity].
    + (* handleNetAll *)
      unfold rest.handleNetAll.
      destruct (rest.Decode b) as [e|]; cbn [rest.first_failure]; [stops|].
      destruct (rest.GetAllNodesByTestNet b) as [nodes|e];
        cbn [rest.failed rest.first_failure]; [|stops].
      destruct (rest.ApplyToAll b) as [e|]; [|reflexivity].
      split; [|split].
      * split; [done|]. by exists "Success".
      * apply error_line_not_Success.
      * intros [H|H]; done.
    + (* stopNet *)
      unfold rest.stopNet.
      destruct (rest.GetAllNodesByTestNet b) as [nodes|e];
        cbn [rest.failed rest.first_failure]; [reflexivity|stops].
    + (* getNet *)
      unfold rest.getNet. cbv zeta.
      destruct (rest.GetLatestServers b) as [servers|e];
        cbn [rest.failed rest.got rest.first_failure]; [|stops].
      rewrite first_failure_app, getNet_loop_checks.
      pose proof (server_checks_cause b servers) as Hcause.
      destruct (rest.first_failure (flat_map (rest.server_checks b) servers))
        as [[[] e]|]; [by destruct (Hcause e)|stops|stops|].
      cbn [app rest.first_failure].
      destruct (rest.Marshal b (rest.collected b servers)) as [output|e];
        cbn [rest.failed rest.got rest.first_failure]; [reflexivity|stops].
    + (* addOutage *)
      unfold rest.addOutage, rest.outage, rest.outage_checks, rest.lookup_checks.
      cbv zeta. cbn [app].
      destruct (rest.Atoi1 b) as [n1|e]; cbn [rest.failed rest.got rest.first_failure];
        [|stops].
      destruct (rest.Atoi2 b) as [n2|e]; cbn [rest.failed rest.got rest.first_failure];
        [|stops].
      destruct (rest.GetAllNodesByTestNet b) as [nodes|e];
        cbn [rest.failed rest.got rest.first_failure]; [|stops].
      destruct (rest.GetNodeByAbsNum b nodes n1) as [node1|e];
        cbn [rest.failed rest.got rest.first_failure]; [|stops].
      destruct (rest.GetNodeByAbsNum b nodes n2) as [node2|e];
        cbn [rest.failed rest.got rest.first_failure]; [|stops].
      destruct (rest.MakeOutage b node1 node2) as [e|]; [stops|reflexivity].
    + (* removeOutage *)
      unfold rest.removeOutage, rest.outage, rest.outage_checks, rest.lookup_checks.
      cbv zeta. cbn [app].
      destruct (rest.Atoi1 b) as [n1|e]; cbn [rest.failed rest.got rest.first_failure];
        [|stops].
      destruct (rest.Atoi2 b) as [n2|e]; cbn [rest.failed rest.got rest.first_failure];
        [|stops].
      destruct (rest.GetAllNodesByTestNet b) as [nodes|e];
        cbn [rest.failed rest.got rest.first_failure]; [|stops].
      destruct (rest.GetNodeByAbsNum b nodes n1) as [node1|e];
        cbn [rest.failed rest.got rest.first_failure]; [|stops].
      destruct (rest.GetNodeByAbsNum b nodes n2) as [node2|e];
        cbn [rest.failed rest.got rest.first_failure]; [|stops].
      destruct (rest.RemoveOutage b node1 node2) as [e|]; [stops|reflexivity].
  - intros nodes err Hd Hn Ha.
    rewrite (handleNetAll_after_failure b nodes err Hd Hn Ha). split.
    + split; [done|]. by exists "Success".
    + apply error_line_not_Success.
Qed.

(** A failure of the netem backend during apply-to-all. *)
Lemma control_plane_responses_witness :
  rest.status (rest.handleNetAll (samples.netem_fails "tc: no such device" []) rest.fresh)
  = Some 500
  ∧ rest.body (rest.handleNetAll (samples.netem_fails "tc: no such device" []) rest.fresh)
    ≠ "Success".
Proof.
  destruct (proj2 (control_plane_responses rest.OnHandleNetAll
                     (samples.netem_fails "tc: no such device" []))
              [] "tc: no such device" eq_refl eq_refl eq_refl) as [[Hs _] Hb].
  split; [exact Hs|exact Hb].
Defined.

(** C8, as stated, fails twice. On success [getNet] answers 200 with the
    encoded configurations, which is not the literal [Success]; and a
    request to apply an emulation on a testnet whose nodes cannot be
    looked up is answered 500, not 404. *)
Lemma getNet_body_and_netem_lookup_status :
  (rest.first_failure (rest.checks rest.OnGetNet samples.backend_up) = None
   ∧ rest.serve rest.OnGetNet samples.backend_up rest.fresh
     = rest.mkResponse (Some 200) "[{},{}]")
  ∧ (rest.first_failure (rest.checks rest.OnHandleNet samples.backend_no_testnet)
     = Some (rest.Missing, "no such testnet")
     ∧ rest.serve rest.OnHandleNet samples.backend_no_testnet rest.fresh
       = rest.mkResponse (Some 500) ("no such testnet" +:+ rest.nl))
  ∧ ¬ (∀ (h : rest.handler) (b : rest.Backend),
         match rest.first_failure (rest.checks h b) with
         | Some (c, err) =>
             rest.status (rest.serve h b rest.fresh)
             = Some (match c with
                     | rest.Undecodable => 400
                     | rest.Missing => 404
                     | rest.BackendFailure => 500
                     end)
         | None => rest.serve h b rest.fresh = rest.mkResponse (Some 200) "Success"
         end)
  ∧ ¬ (∀ (h : rest.handler) (b : rest.Backend),
         rest.first_failure (rest.checks h b) = None →
         rest.serve h b rest.fresh = rest.mkResponse (Some 200) "Success")
  ∧ ¬ (∀ (h : rest.handler) (b : rest.Backend) (err : string),
         rest.first_failure (rest.checks h b) = Some (rest.Missing, err) →
         rest.status (rest.serve h b rest.fresh) = Some 404).
Proof.
  split; [split; reflexivity|]. split; [split; reflexivity|]. split; [|split].
  - intros H. specialize (H rest.OnGetNet samples.backend_up). discriminate H.
  - intros H. specialize (H rest.OnGetNet samples.backend_up eq_refl). discriminate H.
  - intros H.
    specialize (H rest.OnHandleNet samples.backend_no_testnet "no such testnet" eq_refl).
    discriminate H.
Qed.

(** X32. When the netem backend fails during apply-to-all, [handleNetAll]
    reports the error with 500 and then goes on to write the literal
    [Success] behind it: the [return] that ends every other error branch of
    the handlers is missing. [handleNet], on the same failure of its own
    verb, answers the error alone. *)
Theorem handleNetAll_writes_Success_after_error (b : rest.Backend) (nodes : list db.Node)
    (err : string) :
  rest.Decode b = None → rest.GetAllNodesByTestNet b = inl nodes →
  (rest.ApplyToAll b = Some err →
   rest.handleNetAll b rest.fresh
   = rest.mkResponse (Some 500) ((err +:+ rest.nl) +:+ "Success"))
  ∧ (rest.ApplyAll b = Some err →
     rest.handleNet b rest.fresh = rest.mkResponse (Some 500) (err +:+ rest.nl)).
Proof.
  intros Hd Hn. unfold rest.handleNetAll, rest.handleNet. rewrite Hd, Hn.
  split; intros ->; reflexivity.
Qed.

Lemma handleNetAll_writes_Success_after_error_witness :
  rest.handleNetAll (samples.netem_fails "tc: no such device" []) rest.fresh
  = rest.mkResponse (Some 500) (("tc: no such device" +:+ rest.nl) +:+ "Success")
  ∧ rest.handleNet (samples.netem_fails "tc: no such device" []) rest.fresh
    = rest.mkResponse (Some 500) ("tc: no such device" +:+ rest.nl).
Proof.
  destruct (handleNetAll_writes_Success_after_error
              (samples.netem_fails "tc: no such device" []) [] "tc: no such device"
              eq_refl eq_refl) as [H1 H2].
  split; [exact (H1 eq_refl)|exact (H2 eq_refl)].
Defined.

(** ** TestNet.AddDetails *)

Section AddDetails.
Import db testnet.

Lemma wrap_in_int (z : Z) : Go.in_int z → Go.wrap z = z.
Proof.
  unfold Go.in_int, Go.wrap. intros H.
  rewrite Z.mod_small; lia.
Qed.

Lemma wrap_add_l (a b : Z) : Go.wrap (Go.wrap a + b) = Go.wrap (a + b).
Proof.
  unfold Go.wrap. f_equal.
  replace ((a + 2 ^ 63) mod 2 ^ 64 - 2 ^ 63 + b + 2 ^ 63)
    with ((a + 2 ^ 63) mod 2 ^ 64 + b) by lia.
  rewrite Zplus_mod_idemp_l. f_equal. lia.
Qed.

Lemma total_nodes_snoc (ds : list DeploymentDetails) (dd : DeploymentDetails) :
  total_nodes (ds ++ [dd]) = total_nodes ds + db.Nodes dd.
Proof.
  unfold total_nodes. induction ds as [|d ds IH]; cbn; [lia|].
  cbn in IH. rewrite IH. lia.
Qed.

(** ASCII text is written as it is. *)
Lemma coerce_plain (s : string) : json.plain s = true → json.coerce s = s.
Proof.
  unfold json.coerce. induction s as [|c s IH]; [done|].
  cbn [json.plain]. intros [Hc Hs]%andb_true_iff.
  cbn [json.coerce_from json.rune_len]. rewrite Hc. by rewrite IH.
Qed.

(** A string slice comes back from the document as it was written. *)
Lemma dec_elems_str (l : list string) : ∀ old : list string,
  json.dec_elems EmptyString json.dec_str old (json.enc_str <$> l) = (json.coerce <$> l, true).
Proof.
  induction l as [|x l IH]; intros old; [done|].
  cbn [fmap list_fmap json.dec_elems]. rewrite IH. done.
Qed.

Lemma Unmarshal_Images (dd cd : DeploymentDetails) (tmp : json.Json) :
  jsondd.Marshal dd = inl tmp →
  Images (jsondd.Unmarshal tmp cd).1
  = option_map (fun l : list string => json.coerce <$> l) (Images dd).
Proof.
  intros [= <-]. unfold jsondd.Unmarshal, jsondd.into. cbn [Images fst].
  change (json.field "images" _) with (Some (json.enc_slice json.enc_str (Images dd))).
  destruct (Images dd) as [l|]; [|done].
  unfold json.enc_slice, json.dec_slice. cbn [fst option_map].
  change (map json.enc_str l) with (json.enc_str <$> l).
  by rewrite dec_elems_str.
Qed.

(** What a call that returns has done to the deployment history and to
    the node count. *)
Lemma AddDetails_Ret (tn tn' : TestNet) (dd : DeploymentDetails) (e : Go.error) :
  AddDetails tn dd = Go.Ret (tn', e) →
  e = None
  ∧ Details tn' = Details tn ++ [dd]
  ∧ LDD tn' = PtrDetails (length (Details tn))
  ∧ db.Nodes (CombinedDetails tn') = Go.add (db.Nodes (CombinedDetails tn)) (db.Nodes dd).
Proof.
  unfold AddDetails, jsondd.Marshal. cbv beta iota zeta.
  set (cd0 := (jsondd.Unmarshal _ _).1). clearbody cd0.
  unfold mbind, outcome_bind, mret, outcome_ret.
  match goal with |- Go.bind ?m _ = _ → _ => destruct m as [?|files]; [discriminate|] end.
  cbn [Go.bind].
  match goal with |- Go.bind ?m _ = _ → _ => destruct m as [?|images]; [discriminate|] end.
  cbn [Go.bind]. intros [= <- <-]. cbn.
  rewrite length_app. cbn. repeat split; f_equal; lia.
Qed.

Lemma pad_images_cons (n : nat) (x : string) : ∀ l : list string,
  pad_images n (Some (x :: l)) = Go.Ret (Some ((x :: l) ++ replicate n x)).
Proof.
  induction n as [|n IH]; intros l; cbn.
  - by rewrite app_nil_r.
  - change (pad_images n (Some (x :: l ++ [x]))
            = Go.Ret (Some (x :: l ++ x :: replicate n x))).
    rewrite IH. cbn. by rewrite <- app_assoc.
Qed.

Lemma foldl_append {A} (l k : list A) :
  foldl Go.append (Some k) l = Some (k ++ l).
Proof.
  revert k. induction l as [|x l IH]; intros k; cbn.
  - by rewrite app_nil_r.
  - unfold Go.append at 2. cbn. rewrite IH. by rewrite <- app_assoc.
Qed.

(** The image list a returning call leaves behind: the images of the new
    deployment as the document carries them, padded with the first of
    them up to the previous node count, followed by the images of the
    new deployment once more. *)
Lemma AddDetails_Images (tn tn' : TestNet) (dd : DeploymentDetails) (e : Go.error)
    (x : string) (imgs : list string) :
  Images dd = Some (x :: imgs) →
  AddDetails tn dd = Go.Ret (tn', e) →
  Images (CombinedDetails tn')
  = Some ((json.coerce <$> x :: imgs)
          ++ replicate (Z.to_nat (db.Nodes (CombinedDetails tn) - Go.len (Images dd)))
               (json.coerce x)
          ++ (x :: imgs)).
Proof.
  intros HI.
  pose proof (Unmarshal_Images dd (CombinedDetails tn) _ eq_refl) as HU.
  unfold AddDetails, jsondd.Marshal. cbv beta iota zeta.
  change (CombinedDetails (set_LDD (set_Details tn (Details tn ++ [dd])) _))
    with (CombinedDetails tn).
  set (cd0 := (jsondd.Unmarshal _ _).1) in *. clearbody cd0.
  unfold mbind, outcome_bind, mret, outcome_ret.
  match goal with |- Go.bind ?m _ = _ → _ => destruct m as [?|files]; [discriminate|] end.
  cbn [Go.bind].
  change (Images (db.set_Nodes (set_Files (set_Files cd0 _) files) _)) with (Images cd0).
  rewrite HU, HI. unfold nonempty. cbn [Go.is_nil negb andb Go.bind option_map].
  assert (Hlen : ∀ l : list string,
             Go.len (Some (json.coerce <$> l)) = Go.len (Some l)).
  { intros l. unfold Go.len. cbn. by rewrite length_fmap. }
  replace (0 <? Go.len (Some (x :: imgs))) with true
    by (symmetry; apply Z.ltb_lt; unfold Go.len; cbn; lia).
  cbn [Go.bind]. rewrite Hlen.
  cbn [fmap list_fmap].
  destruct (Go.len (Some (x :: imgs)) <? db.Nodes (CombinedDetails tn)) eqn:Hlt.
  - rewrite pad_images_cons. cbn [Go.bind]. intros [= <- <-].
    cbn [CombinedDetails set_CombinedDetails Images set_Images].
    unfold Go.append at 2. rewrite foldl_append. cbn.
    by rewrite <- !app_assoc.
  - cbn [Go.bind]. intros [= <- <-].
    cbn [CombinedDetails set_CombinedDetails Images set_Images].
    apply Z.ltb_ge in Hlt.
    replace (Z.to_nat _) with 0%nat by lia.
    unfold Go.append at 2. rewrite foldl_append. cbn.
    by rewrite <- !app_assoc.
Qed.

(** With a node count that is not negative and that [make] can serve,
    the call returns. *)
Lemma AddDetails_total (tn : TestNet) (dd : DeploymentDetails) :
  0 ≤ db.Nodes (CombinedDetails tn) ≤ 2 ^ 44 →
  ∃ tn', AddDetails tn dd = Go.Ret (tn', None).
Proof.
  intros Hpos.
  pose proof (Unmarshal_Images dd (CombinedDetails tn) _ eq_refl) as HU.
  unfold AddDetails, jsondd.Marshal. cbv beta iota zeta.
  change (CombinedDetails (set_LDD (set_Details tn (Details tn ++ [dd])) _))
    with (CombinedDetails tn).
  set (cd0 := (jsondd.Unmarshal _ _).1) in *. clearbody cd0.
  unfold mbind, outcome_bind, mret, outcome_ret.
  match goal with |- ∃ _, Go.bind ?m _ = _ =>
    assert (∃ files, m = Go.Ret files) as [files ->]
  end.
  { destruct (nonempty (Files dd)); [|eauto].
    unfold Go.make, Go.maxAlloc, Go.sizeof_map.
    destruct (Z.ltb_spec (db.Nodes (CombinedDetails tn)) 0); [lia|].
    destruct (Z.ltb_spec (2 ^ 48) (8 * db.Nodes (CombinedDetails tn))); [lia|].
    destruct (Go.is_nil _); cbn [orb Go.bind]; eauto. }
  cbn [Go.bind].
  change (Images (db.set_Nodes (set_Files (set_Files cd0 _) files) _)) with (Images cd0).
  rewrite HU.
  match goal with |- ∃ _, Go.bind ?m _ = _ =>
    assert (∃ images, m = Go.Ret images) as [images ->]
  end.
  { unfold nonempty. destruct (Images dd) as [[|x imgs]|]; cbn; eauto.
    destruct (0 <? Go.len _); [|eauto].
    destruct (Go.len _ <? _); [|cbn; eauto].
    rewrite pad_images_cons. cbn. eauto. }
  cbn. eauto.
Qed.

(** A sequence of calls that returns has recorded the deployments in
    order and kept the node count equal to their sum, in [int]. *)
Lemma AddDetails_all_Ret (dds : list DeploymentDetails) : ∀ tn tn' : TestNet,
  AddDetails_all tn dds = Go.Ret tn' →
  Details tn' = Details tn ++ dds
  ∧ (db.Nodes (CombinedDetails tn) = Go.wrap (total_nodes (Details tn)) →
     db.Nodes (CombinedDetails tn') = Go.wrap (total_nodes (Details tn'))).
Proof.
  induction dds as [|dd dds IH]; intros tn tn'; cbn [AddDetails_all];
    unfold mret, outcome_ret, mbind, outcome_bind.
  - intros [= <-]. by rewrite app_nil_r.
  - destruct (AddDetails tn dd) as [?|[tn1 e]] eqn:E1; cbn [Go.bind]; [discriminate|].
    cbn [fst]. intros E2.
    apply AddDetails_Ret in E1 as (_ & Hd & _ & Hn).
    apply IH in E2 as [Hd' Hn'].
    rewrite Hd' , Hd, <- app_assoc. split; [done|].
    intros Hinv. rewrite Hd', Hd, <- app_assoc in Hn'. apply Hn'.
    rewrite Hn, Hinv, total_nodes_snoc. unfold Go.add. apply wrap_add_l.
Qed.

Lemma total_nodes_nonneg (dds : list DeploymentDetails) :
  Forall (fun d => 0 ≤ db.Nodes d) dds → 0 ≤ total_nodes dds.
Proof.
  induction 1 as [|d ds Hd _ IH]; [done|].
  change (0 ≤ db.Nodes d + total_nodes ds). lia.
Qed.

(** Node counts that are not negative and add up to a count [make] can
    serve make every call of the sequence return. *)
Lemma AddDetails_all_total (dds : list DeploymentDetails) : ∀ tn : TestNet,
  0 ≤ db.Nodes (CombinedDetails tn) →
  Forall (fun d => 0 ≤ db.Nodes d) dds →
  db.Nodes (CombinedDetails tn) + total_nodes dds ≤ 2 ^ 44 →
  ∃ tn', AddDetails_all tn dds = Go.Ret tn'.
Proof.
  induction dds as [|dd dds IH]; intros tn Hpos Hall Hsum; cbn [AddDetails_all].
  - by exists tn.
  - apply Forall_cons in Hall as [Hdd Hall].
    pose proof (total_nodes_nonneg dds Hall) as Hrest.
    change (total_nodes (dd :: dds)) with (db.Nodes dd + total_nodes dds) in Hsum.
    destruct (AddDetails_total tn dd) as [tn1 E1]; [lia|].
    pose proof (AddDetails_Ret _ _ _ _ E1) as (_ & _ & _ & Hn).
    unfold Go.add in Hn. rewrite wrap_in_int in Hn by (unfold Go.in_int; lia).
    unfold mbind, outcome_bind. rewrite E1. cbn [Go.bind fst].
    apply IH; [lia|done|lia].
Qed.

End AddDetails.

(** C5. On a testnet made by [NewTestNet], after every sequence of
    [AddDetails] calls (so after each call of a longer one) the history
    [Details] holds the deployments in order and [CombinedDetails.Nodes] is
    the sum of their node counts, as [int] addition computes it; it is
    that sum exactly whenever the sum is an [int]. *)
Theorem CombinedDetails_nodes_is_sum (env : testnet.Env) (details : db.DeploymentDetails)
    (buildID : string) (tn tn' : testnet.TestNet) (dds : list db.DeploymentDetails) :
  Go.in_int (db.Nodes details) →
  testnet.NewTestNet env details buildID = inl tn →
  testnet.AddDetails_all tn dds = Go.Ret tn' →
  testnet.Details tn' = details :: dds
  ∧ db.Nodes (testnet.CombinedDetails tn')
    = Go.wrap (testnet.total_nodes (testnet.Details tn'))
  ∧ (Go.in_int (testnet.total_nodes (testnet.Details tn')) →
     db.Nodes (testnet.CombinedDetails tn') = testnet.total_nodes (testnet.Details tn')).
Proof.
  intros Hint Hnew Hall.
  assert (testnet.Details tn = [details]
          ∧ testnet.CombinedDetails tn = details) as [Hd Hc].
  { unfold testnet.NewTestNet in Hnew.
    destruct (testnet.GetBuildStateByID env buildID); [|discriminate].
    destruct (testnet.GetServers env _); [|discriminate].
    destruct (testnet.open_clients env _ _); [|discriminate].
    by injection Hnew as <-. }
  apply AddDetails_all_Ret in Hall as [Hd' Hn'].
  rewrite Hd in Hd'. cbn in Hd'. split; [done|].
  assert (Hsum : db.Nodes (testnet.CombinedDetails tn')
                 = Go.wrap (testnet.total_nodes (testnet.Details tn'))).
  { apply Hn'. rewrite Hd, Hc. cbn. rewrite Z.add_0_r. symmetry. by apply wrap_in_int. }
  split; [done|]. intros Hin. rewrite Hsum. by apply wrap_in_int.
Qed.

Lemma CombinedDetails_nodes_is_sum_witness :
  ∃ tn tn',
    testnet.NewTestNet samples.env0 samples.dd_first "build" = inl tn
    ∧ testnet.AddDetails_all tn [samples.dd_second] = Go.Ret tn'
    ∧ db.Nodes (testnet.CombinedDetails tn') = 3.
Proof.
  eexists _, _. split; [reflexivity|]. split; [reflexivity|].
  refine (proj2 (proj2 (CombinedDetails_nodes_is_sum samples.env0 samples.dd_first "build"
                          _ _ [samples.dd_second] _ eq_refl eq_refl)) _);
    unfold Go.in_int; vm_compute; (split; [intros ?; discriminate | reflexivity]).
Defined.


(** C1, at scenario E2. A testnet created with
    [{nodes:2, files:[{a:A}], images:[img1]}] and then given
    [{nodes:1, files:[{b:B}], images:[img2]}] ends with a node count of 3,
    as specified, but with the image list [img2, img2, img2]: the images
    of the first deployment are gone, where the specification has
    [img1, img1, img2]. The files are padded and extended as specified,
    but the first file map has taken the entry of the new deployment:
    it is [{a:A, b:B}], where the specification has [{a:A}]. *)
Theorem AddDetails_E2_loses_first_images :
  ∃ tn tn',
    testnet.NewTestNet samples.env0 samples.dd_first "build" = inl tn
    ∧ testnet.AddDetails tn samples.dd_second = Go.Ret (tn', None)
    ∧ db.Nodes (testnet.CombinedDetails tn') = 3
    ∧ db.Images (testnet.CombinedDetails tn') = Some ["img2"; "img2"; "img2"]
    ∧ db.Images (testnet.CombinedDetails tn') ≠ Some ["img1"; "img1"; "img2"]
    ∧ db.Files (testnet.CombinedDetails tn')
      = Some [Some (<["b" := "B"]> {[ "a" := "A" ]}); Some ∅; Some {[ "b" := "B" ]}]
    ∧ db.Files (testnet.CombinedDetails tn')
      ≠ Some [Some {[ "a" := "A" ]}; Some ∅; Some {[ "b" := "B" ]}].
Proof.
  eexists _, _. split; [reflexivity|].
  split; [vm_compute; reflexivity|].
  split; [reflexivity|]. split; [reflexivity|]. split; [discriminate|].
  split; [vm_compute; reflexivity|].
  vm_compute. discriminate.
Qed.

(** ** The start stage of tendermint.Build *)

Section StartStage.
Import tendermint.

(** On the peers as harvested, the list built is the one specified, and
    the tail of the shared array has moved down by one slot. *)
Lemma persistent_peers_first (l : list string) (i : nat) :
  (i < length l)%nat →
  persistent_peers (peers_of l) i
  = Go.Ret (without_self l i,
            mkPeers (without_self l i ++ drop (length l - 1) l) (length l)).
Proof.
  intros Hi. unfold persistent_peers, peers_of, Go.slice_to, Go.slice_from.
  cbn [array plen Go.off Go.wlen].
  rewrite decide_True by lia. rewrite decide_True by lia.
  unfold mbind, outcome_bind. cbn [Go.bind].
  unfold Go.append_all, Go.view. cbn [Go.off Go.wlen].
  cbn [Nat.add]. rewrite drop_0.
  assert (Htail : take (length l - (i + 1)) (drop (i + 1) l) = drop (S i) l).
  { rewrite Nat.add_1_r. apply take_ge. rewrite length_drop. lia. }
  rewrite Htail.
  rewrite decide_True by (rewrite length_drop; lia).
  unfold mret, outcome_ret, without_self. cbn [fst snd].
  rewrite length_drop, <- app_assoc.
  by replace (i + (length l - S i))%nat with (length l - 1)%nat by lia.
Qed.

(** So the second worker to run no longer finds the peers harvested. *)
Lemma harvested_after_first (l : list string) (i : nat) (res : list string)
    (p : peers_t) :
  (i < length l)%nat →
  persistent_peers (peers_of l) i = Go.Ret (res, p) →
  harvested p = without_self l i ++ drop (length l - 1) l.
Proof.
  intros Hi. rewrite persistent_peers_first by done. intros [= <- <-].
  unfold harvested, Go.view. cbn. rewrite drop_0. apply take_ge.
  unfold without_self. rewrite !length_app, length_take, !length_drop. lia.
Qed.

(** Whatever was harvested, as long as the entries differ: once the
    worker of node 0 has run, the worker of node 1 is handed a list that
    starts with the entry of node 1 itself, which the list specified for
    it does not hold. *)
Lemma second_worker_gets_own_entry (a b : string) (l : list string) :
  NoDup (a :: b :: l) →
  ∃ r0 p1 r1 p2,
    persistent_peers (peers_of (a :: b :: l)) 0 = Go.Ret (r0, p1)
    ∧ persistent_peers p1 1 = Go.Ret (r1, p2)
    ∧ r0 = without_self (a :: b :: l) 0
    ∧ b ∈ r1
    ∧ ¬ (r1 ≡ₚ without_self (a :: b :: l) 1).
Proof.
  intros Hnd.
  rewrite persistent_peers_first by (cbn; lia).
  eexists _, _. 
  assert (Hsecond : ∃ r1 p2 rest,
    persistent_peers
      (mkPeers (without_self (a :: b :: l) 0
                ++ drop (length (a :: b :: l) - 1) (a :: b :: l))
         (length (a :: b :: l))) 1 = Go.Ret (r1, p2)
    ∧ r1 = b :: rest).
  { unfold persistent_peers, Go.slice_to, Go.slice_from.
    cbn [array plen Go.off Go.wlen without_self take drop app length Nat.add Nat.sub].
    rewrite decide_True by (cbn; lia). rewrite decide_True by lia.
    unfold mbind, outcome_bind, mret, outcome_ret. cbn [Go.bind].
    unfold Go.append_all, Go.view.
    cbn [Go.off Go.wlen Nat.add drop take app fst snd].
    destruct (decide _); cbn [fst snd]; eauto. }
  destruct Hsecond as (r1 & p2 & rest & -> & ->).
  eexists _, _. split; [reflexivity|]. split; [reflexivity|]. split; [reflexivity|].
  split; [apply list_elem_of_here|].
  intros Hperm.
  assert (Hin : b ∈ without_self (a :: b :: l) 1).
  { rewrite <- Hperm. apply list_elem_of_here. }
  unfold without_self in Hin. cbn in Hin.
  apply NoDup_cons in Hnd as [Ha Hnd]. apply NoDup_cons in Hnd as [Hb _].
  apply elem_of_cons in Hin as [->|Hin]; [|done].
  apply Ha, list_elem_of_here.
Qed.

End StartStage.

(** C2, where the code departs from it. With three peers harvested and
    the workers of the start stage running in node order, node 0 is handed
    the two other peers, as specified, but nodes 1 and 2 are handed that
    same list: node 1 is given its own entry and not the entry of node 0.
    Building the list for node 0 has overwritten the shared [peers]. *)
Theorem start_stage_hands_node_its_own_peer :
  tendermint.start_all (tendermint.peers_of samples.peers3) [0; 1; 2]%nat
  = Go.Ret (
      (fun n => tendermint.mkStarted n
                  ["id1@10.0.0.2:26656"; "id2@10.0.0.3:26656"]
                  ("tendermint node --proxy_app=kvstore --p2p.persistent_peers="
                   +:+ "id1@10.0.0.2:26656,id2@10.0.0.3:26656"))
      <$> [0; 1; 2]%nat)
  ∧ tendermint.without_self samples.peers3 1
    = ["id0@10.0.0.1:26656"; "id2@10.0.0.3:26656"]
  ∧ ¬ (["id1@10.0.0.2:26656"; "id2@10.0.0.3:26656"]
       ≡ₚ tendermint.without_self samples.peers3 1).
Proof.
  split; [reflexivity|]. split; [reflexivity|].
  intros Hperm.
  assert (Hin : "id1@10.0.0.2:26656" ∈ tendermint.without_self samples.peers3 1).
  { rewrite <- Hperm. apply list_elem_of_here. }
  cbn in Hin. apply list_elem_of_In in Hin. cbn in Hin.
  destruct Hin as [H|[H|[]]]; discriminate H.
Qed.

(** * Further properties of the code *)

(** ** Package util *)

Section IntArr.
Import util.

Lemma fill_spec (f : Z → Z) (n : nat) : ∀ (i : nat) (pre : list Z),
  length pre = i →
  fill f n i (pre ++ replicate n 0)
  = pre ++ ((fun k => f (Z.of_nat k)) <$> seq i n).
Proof.
  induction n as [|n IH]; intros i pre Hlen; [by rewrite !app_nil_r|].
  cbn [fill replicate seq fmap list_fmap].
  rewrite insert_app_r_alt by lia.
  replace (i - length pre)%nat with 0%nat by lia. cbn [insert list_insert].
  rewrite (cons_middle (f (Z.of_nat i))), !app_assoc.
  rewrite IH by (rewrite length_app; cbn; lia).
  by rewrite <- !app_assoc.
Qed.

(** A slice header within the bounds of its array cuts it in three. *)
Lemma array_split {A} (array : list A) (w : Go.window) :
  (Go.off w + Go.wlen w ≤ length array)%nat →
  array = take (Go.off w) array ++ Go.view array w
          ++ drop (Go.off w + Go.wlen w) array
  ∧ length (take (Go.off w) array) = Go.off w
  ∧ length (Go.view array w) = Go.wlen w.
Proof.
  intros Hb. unfold Go.view. split; [|split].
  - rewrite <- drop_drop, take_drop, take_drop. done.
  - rewrite length_take. lia.
  - rewrite length_take, length_drop. lia.
Qed.

(** What [IntArrFill] answers on a size [make] can serve. *)
Lemma IntArrFill_filled (size : Z) (f : Z → Z) :
  0 ≤ size ≤ 2 ^ 45 →
  IntArrFill size f = Go.Ret ((fun k => f (Z.of_nat k)) <$> seq 0 (Z.to_nat size)).
Proof.
  intros Hs. unfold IntArrFill, Go.make, Go.maxAlloc, Go.sizeof_int.
  destruct (Z.ltb_spec size 0); [lia|].
  destruct (Z.ltb_spec (2 ^ 48) (8 * size)); [lia|].
  cbn. f_equal. apply (fill_spec f (Z.to_nat size) 0 []). done.
Qed.

End IntArr.

(** X1. [IntArrFill(size, f)] panics in [make] on a negative size and on
    one above 2^45, whose eight-byte elements are more than the runtime
    allocates at once; on every other size it answers the values
    [f(0), ..., f(size-1)] in order. *)
Theorem IntArrFill_values (size : Z) (f : Z → Z) :
  util.IntArrFill size f
  = if (size <? 0) || (2 ^ 45 <? size) then Go.Panic "makeslice: len out of range"
    else Go.Ret ((fun k => f (Z.of_nat k)) <$> seq 0 (Z.to_nat size)).
Proof.
  destruct (Z.ltb_spec size 0) as [Hneg|Hpos]; cbn [orb].
  - unfold util.IntArrFill, Go.make.
    by destruct (Z.ltb_spec size 0); [|lia].
  - destruct (Z.ltb_spec (2 ^ 45) size) as [Hbig|Hfits].
    + unfold util.IntArrFill, Go.make, Go.maxAlloc, Go.sizeof_int.
      destruct (Z.ltb_spec size 0); [lia|].
      by destruct (Z.ltb_spec (2 ^ 48) (8 * size)); [|lia].
    + apply IntArrFill_filled. lia.
Qed.

Section IntArrRemove.
Import util.

(** The call on an array cut in three at the header of [op]. *)
Lemma IntArrRemove_parts (pre v post : list Z) (i : nat) :
  (i < length v)%nat →
  let array' := pre ++ (take i v ++ drop (S i) v ++ drop (length v - 1) v) ++ post in
  IntArrRemove (pre ++ v ++ post) (Go.mkWindow (length pre) (length v)) (Z.of_nat i)
  = Go.Ret (array', (array', Go.mkWindow (length pre) (length v - 1))).
Proof.
  intros Hi array'. unfold IntArrRemove, Go.slice_to, Go.slice_from.
  destruct (Z.ltb_spec (Z.of_nat i) 0) as [|_]; [lia|].
  rewrite Nat2Z.id. cbn [Go.off Go.wlen].
  rewrite !decide_True by (rewrite ?length_app; lia).
  unfold mbind, outcome_bind, mret, outcome_ret. cbn [Go.bind].
  assert (Hxs : Go.view (pre ++ v ++ post)
                  (Go.mkWindow (length pre + (i + 1)) (length v - (i + 1)))
                = drop (S i) v).
  { unfold Go.view. cbn [Go.off Go.wlen].
    rewrite drop_app_add, drop_app_le by lia.
    rewrite take_app_length' by (rewrite length_drop; lia).
    f_equal. lia. }
  rewrite Hxs. unfold Go.append_to. cbn [Go.off Go.wlen].
  rewrite length_drop.
  rewrite decide_True by (rewrite !length_app; lia).
  assert (Harr : take (length pre + i) (pre ++ v ++ post) ++ drop (S i) v
                 ++ drop (length pre + i + (length v - S i)) (pre ++ v ++ post)
                 = array').
  { subst array'. rewrite take_app_add, take_app_le by lia.
    replace (length pre + i + (length v - S i))%nat
      with (length pre + (length v - 1))%nat by lia.
    rewrite drop_app_add, drop_app_le by lia.
    by rewrite <- !app_assoc. }
  rewrite Harr. do 4 f_equal. lia.
Qed.

(** Any other index is refused by one of the two slice expressions. *)
Lemma IntArrRemove_out_of_range (array : list Z) (op : Go.window) (index : Z) :
  ¬ (0 ≤ index < Z.of_nat (Go.wlen op)) →
  IntArrRemove array op index = Go.Panic "slice bounds out of range".
Proof.
  intros Hi. unfold IntArrRemove.
  destruct (Z.ltb_spec index 0) as [|Hpos]; [done|].
  unfold Go.slice_to, Go.slice_from, mbind, outcome_bind.
  destruct (decide _); cbn [Go.bind]; [|done].
  rewrite decide_False; [done|]. lia.
Qed.

End IntArrRemove.

(** X2. [IntArrRemove(op, index)] on a slice [op] of an array: with
    [0 <= index < len(op)] it returns the elements of [op] without the one at
    [index], as a slice of the same array, and the array has changed under
    [op]: its elements behind [index] have moved down by one and the last
    one stands twice; the rest of the array is as it was. With any other
    index the call panics. *)
Theorem IntArrRemove_shifts_in_place (array : list Z) (op : Go.window) (index : Z) :
  (Go.off op + Go.wlen op ≤ length array)%nat →
  let v := Go.view array op in
  let i := Z.to_nat index in
  (0 ≤ index < Z.of_nat (Go.wlen op) →
   ∃ array',
     util.IntArrRemove array op index
     = Go.Ret (array', (array', Go.mkWindow (Go.off op) (Go.wlen op - 1)))
     ∧ Go.view array' (Go.mkWindow (Go.off op) (Go.wlen op - 1))
       = take i v ++ drop (S i) v
     ∧ Go.view array' op = take i v ++ drop (S i) v ++ drop (Go.wlen op - 1) v
     ∧ take (Go.off op) array' = take (Go.off op) array
     ∧ drop (Go.off op + Go.wlen op) array' = drop (Go.off op + Go.wlen op) array)
  ∧ (¬ (0 ≤ index < Z.of_nat (Go.wlen op)) →
     util.IntArrRemove array op index = Go.Panic "slice bounds out of range").
Proof.
  intros Hb v i. split.
  - intros Hi.
    destruct (array_split array op Hb) as (Harr & Hpre & Hv).
    fold v in Harr, Hv.
    set (pre := take (Go.off op) array) in *.
    set (post := drop (Go.off op + Go.wlen op) array) in *.
    assert (Hlt : (i < length v)%nat) by (subst i; lia).
    pose proof (IntArrRemove_parts pre v post i Hlt) as H. cbn zeta in H.
    rewrite <- Harr, Hpre, Hv in H.
    replace (Z.of_nat i) with index in H by (subst i; lia).
    destruct op as [o n]. cbn [Go.off Go.wlen] in *.
    eexists. split; [exact H|].
    set (kept := take i v ++ drop (S i) v).
    assert (Hkept : length kept = (n - 1)%nat).
    { subst kept. rewrite length_app, length_take, length_drop. lia. }
    assert (Hlast : length (drop (n - 1) v) = 1%nat) by (rewrite length_drop; lia).
    replace (take i v ++ drop (S i) v ++ drop (n - 1) v)
      with (kept ++ drop (n - 1) v) by (subst kept; by rewrite <- app_assoc).
    unfold Go.view. cbn [Go.off Go.wlen].
    rewrite !(drop_app_length' pre) by done.
    rewrite (take_app_length' pre) by done.
    split; [|split; [|split; [done|]]].
    + rewrite <- app_assoc. by apply take_app_length'.
    + apply take_app_length'. rewrite length_app. lia.
    + rewrite drop_app_add'; [|done].
      apply drop_app_length'. rewrite length_app. lia.
  - apply IntArrRemove_out_of_range.
Qed.

Lemma IntArrRemove_shifts_in_place_witness :
  ∃ array',
    util.IntArrRemove [10; 11; 12; 13] (Go.mkWindow 0 4) 1
    = Go.Ret (array', (array', Go.mkWindow 0 3))
    ∧ Go.view array' (Go.mkWindow 0 3) = [10; 12; 13]
    ∧ Go.view array' (Go.mkWindow 0 4) = [10; 12; 13; 13]
    ∧ take 0 array' = []
    ∧ drop 4 array' = [].
Proof.
  apply (proj1 (IntArrRemove_shifts_in_place [10; 11; 12; 13] (Go.mkWindow 0 4) 1
                  ltac:(cbn; lia))).
  cbn. lia.
Defined.

(** ** db.GetAvailibleNodes *)

(** X3. The statement [GetAllNodesByServer] sends does not name the
    server: the format has two verbs and [Sprintf] one operand, so for
    every [serverId] the text ends in [WHERE server = %!d(MISSING)]. When
    the database rejects the statement, [GetAllNodesByServer] does not
    return, whatever [CheckFatal] does with the error, and neither does
    [GetAvailibleNodes]. *)
Theorem GetAvailibleNodes_query_lacks_server (NodesTable : string)
    (Query : string → list db.Node + string) (CheckFatal : Go.error → Go.outcome unit)
    (Max : Z → Z) (serverId nodesRequested : Z) (err : string) :
  let statement :=
    "SELECT id,test_net,server,local_id,ip FROM " +:+ NodesTable
    +:+ " WHERE server = %!d(MISSING)" in
  Query statement = inr err →
  db.nodes_by_server NodesTable = statement
  ∧ (∃ msg, db.GetAllNodesByServer NodesTable Query CheckFatal serverId = Go.Panic msg)
  ∧ (∃ msg, db.GetAvailibleNodes NodesTable Query CheckFatal Max serverId nodesRequested
            = Go.Panic msg).
Proof.
  intros statement Hq.
  assert (Hs : db.nodes_by_server NodesTable = statement) by reflexivity.
  assert (Hp : ∃ msg, db.GetAllNodesByServer NodesTable Query CheckFatal serverId
                      = Go.Panic msg).
  { unfold db.GetAllNodesByServer. rewrite Hs, Hq.
    unfold mbind, outcome_bind. destruct (CheckFatal (Some err)); cbn; eauto. }
  split; [done|]. split; [done|].
  destruct Hp as [msg Hp]. exists msg.
  unfold db.GetAvailibleNodes, mbind, outcome_bind. by rewrite Hp.
Qed.

Lemma GetAvailibleNodes_query_lacks_server_witness :
  ∃ msg,
    db.GetAvailibleNodes "nodes" samples.sqlite samples.fatal samples.capacity4 1 2
    = Go.Panic msg.
Proof.
  exact (proj2 (proj2 (GetAvailibleNodes_query_lacks_server
                         "nodes" samples.sqlite samples.fatal samples.capacity4 1 2
                         "near %: syntax error" eq_refl))).
Defined.

Section Strings.

Lemma string_app_assoc (a b c : string) : (a +:+ b) +:+ c = a +:+ (b +:+ c).
Proof.
  induction a as [|x a IH]; [done|].
  change (String x ((a +:+ b) +:+ c) = String x (a +:+ (b +:+ c))). by rewrite IH.
Qed.

Lemma string_app_nil_r (a : string) : a +:+ EmptyString = a.
Proof.
  induction a as [|x a IH]; [done|].
  change (String x (a +:+ EmptyString) = String x a). by rewrite IH.
Qed.

Lemma string_length_app (a b : string) :
  String.length (a +:+ b) = (String.length a + String.length b)%nat.
Proof.
  induction a as [|x a IH]; [done|].
  change (S (String.length (a +:+ b)) = S (String.length a + String.length b)).
  by rewrite IH.
Qed.

End Strings.

(** ** ssh.Client: running commands *)

Section Running.
Import ssh.

Lemma Run_live (command : string) (w : World) :
  live w →
  Run command w
  = (Go.Ret ((remote w command).1,
             FormatError w (remote w command).1 <$> (remote w command).2),
     ran command w).
Proof.
  intros [Hs He]. unfold Run, getSession. rewrite He. cbn. rewrite Hs.
  destruct (remote w command) as [out [e|]]; reflexivity.
Qed.

Lemma live_ran (command : string) (w : World) : live w → live (ran command w).
Proof. done. Qed.

Lemma executed_ran (command : string) (w : World) :
  executed (ran command w) = executed w ++ [command].
Proof. unfold executed, ran. cbn. rewrite !omap_app. cbn. by rewrite !app_nil_r. Qed.

Lemma MultiRun_loop_all (commands : list string) : ∀ (out : list string) (w : World),
  live w →
  Forall (fun c => (remote w c).2 = None) commands →
  ∃ w', MultiRun_loop commands out w
        = (Go.Ret (Some (out ++ ((fun c => (remote w c).1) <$> commands)), None), w')
        ∧ executed w' = executed w ++ commands.
Proof.
  induction commands as [|c rest IH]; intros out w Hl Hok; cbn [MultiRun_loop].
  - exists w. by rewrite !app_nil_r.
  - apply Forall_cons in Hok as [Hc Hok]. rewrite Run_live, Hc by done. cbn.
    destruct (IH (out ++ [(remote w c).1]) (ran c w) (live_ran c w Hl) Hok)
      as (w' & -> & Hex).
    exists w'. rewrite <- app_assoc. split; [done|].
    by rewrite Hex, executed_ran, <- app_assoc.
Qed.

Lemma MultiRun_loop_first_error (pre : list string) :
  ∀ (c : string) (post out : list string) (e : string) (w : World),
  live w →
  Forall (fun c => (remote w c).2 = None) pre →
  (remote w c).2 = Some e →
  ∃ w', MultiRun_loop (pre ++ c :: post) out w
        = (Go.Ret (None, Some (FormatError w (remote w c).1 e)), w')
        ∧ executed w' = executed w ++ pre ++ [c].
Proof.
  induction pre as [|p pre IH]; intros c post out e w Hl Hok He; cbn [MultiRun_loop app].
  - rewrite Run_live, He by done. cbn. exists (ran c w).
    by rewrite executed_ran.
  - apply Forall_cons in Hok as [Hp Hok]. rewrite Run_live, Hp by done. cbn.
    destruct (IH c post (out ++ [(remote w p).1]) e (ran p w) (live_ran p w Hl) Hok He)
      as (w' & -> & Hex).
    exists w'. split; [done|]. by rewrite Hex, executed_ran, <- app_assoc.
Qed.

Lemma KeepTryRun_loop_fails (n : nat) : ∀ (res : string) (err : Go.error)
    (command e : string) (w : World),
  live w → (remote w command).2 = Some e →
  ∃ w', KeepTryRun_loop (S n) res err command w
        = (Go.Ret ((remote w command).1,
                   Some (FormatError w (remote w command).1 e)), w')
        ∧ executed w' = executed w ++ replicate (S n) command.
Proof.
  induction n as [|n IH]; intros res err command e w Hl He.
  - cbn [KeepTryRun_loop]. rewrite Run_live, He by done. cbn.
    exists (ran command w). by rewrite executed_ran.
  - cbn [KeepTryRun_loop]. rewrite Run_live, He by done. cbn [fmap option_fmap option_map fst snd].
    destruct (IH (remote w command).1 (Some (FormatError w (remote w command).1 e))
                command e (ran command w) (live_ran command w Hl) He) as (w' & E & Hex).
    exists w'. split; [exact E|].
    rewrite Hex, executed_ran, <- app_assoc. done.
Qed.

Lemma chain_next (commands : list string) : ∀ (i : nat) (cmd : string),
  chain commands (S i) cmd
  = match commands with
    | [] => cmd
    | _ => cmd +:+ "&&" +:+ Go.Join commands "&&"
    end.
Proof.
  induction commands as [|c rest IH]; intros i cmd; [done|].
  cbn [chain Nat.eqb negb]. rewrite IH.
  destruct rest as [|c' rest]; cbn [Go.Join].
  - by rewrite string_app_assoc.
  - by rewrite !string_app_assoc.
Qed.

Lemma chain_Join (commands : list string) :
  chain commands 0 EmptyString = Go.Join commands "&&".
Proof.
  destruct commands as [|c rest]; [done|].
  cbn [chain Nat.eqb negb]. rewrite chain_next.
  destruct rest as [|c' rest]; reflexivity.
Qed.

Lemma merge_next (w : World) (node : Z) (commands : list string) :
  ∀ mergedCommand : string,
  mergedCommand ≠ EmptyString →
  merge w node commands mergedCommand
  = match commands with
    | [] => mergedCommand
    | _ => mergedCommand +:+ "&&" +:+ Go.Join (detached w node <$> commands) "&&"
    end.
Proof.
  induction commands as [|c rest IH]; intros m Hm; [done|].
  cbn [merge]. destruct m as [|x m]; [done|]. cbn [String.length Nat.eqb negb].
  rewrite IH by done.
  destruct rest as [|c' rest]; cbn [fmap list_fmap Go.Join].
  - by rewrite string_app_assoc.
  - by rewrite !string_app_assoc.
Qed.

Lemma merge_Join (w : World) (node : Z) (commands : list string) :
  merge w node commands EmptyString = Go.Join (detached w node <$> commands) "&&".
Proof.
  destruct commands as [|c rest]; [done|].
  cbn [merge String.length Nat.eqb negb].
  rewrite merge_next by done.
  destruct rest as [|c' rest]; reflexivity.
Qed.

End Running.

(** X6. [MultiRun] on a client whose build goes on: when every command
    succeeds, the outputs come back in the order of the commands and each
    command has been executed once, in order; when a command fails, the
    outputs are dropped, its error is returned and no command behind it is
    executed. *)
Theorem MultiRun_stops_at_first_error (commands : list string) (w : ssh.World) :
  ssh.live w →
  (Forall (fun c => (ssh.remote w c).2 = None) commands →
   ∃ w', ssh.MultiRun commands w
         = (Go.Ret (Some ((fun c => (ssh.remote w c).1) <$> commands), None), w')
         ∧ ssh.executed w' = ssh.executed w ++ commands)
  ∧ (∀ pre c post e,
       commands = pre ++ c :: post →
       Forall (fun c => (ssh.remote w c).2 = None) pre →
       (ssh.remote w c).2 = Some e →
       ∃ w', ssh.MultiRun commands w
             = (Go.Ret (None, Some (ssh.FormatError w (ssh.remote w c).1 e)), w')
             ∧ ssh.executed w' = ssh.executed w ++ pre ++ [c]).
Proof.
  intros Hl. split.
  - intros Hok. exact (MultiRun_loop_all commands [] w Hl Hok).
  - intros pre c post e -> Hok He.
    exact (MultiRun_loop_first_error pre c post [] e w Hl Hok He).
Qed.

Lemma MultiRun_stops_at_first_error_witness :
  ∃ w', ssh.MultiRun ["ls"; "false"; "pwd"] samples.world_flaky
        = (Go.Ret (None, Some "exit status 1"), w')
        ∧ ssh.executed w' = ["ls"; "false"].
Proof.
  apply (proj2 (MultiRun_stops_at_first_error ["ls"; "false"; "pwd"] samples.world_flaky
                  (conj eq_refl eq_refl)) ["ls"] "false" ["pwd"] "exit status 1").
  - reflexivity.
  - repeat constructor.
  - reflexivity.
Defined.

(** X7. [KeepTryRun]: on a stopped build it returns the build's error
    without asking for a session; otherwise a command that succeeds is
    executed once, and one that keeps failing is executed [maxRunAttempts]
    = 20 times before its error is returned. *)
Theorem KeepTryRun_attempts (command : string) (w : ssh.World) :
  (state.Stop (ssh.bs w) = true →
   ssh.KeepTryRun command w = (Go.Ret (EmptyString, state.GetError (ssh.bs w)), w))
  ∧ (ssh.live w → (ssh.remote w command).2 = None →
     ssh.KeepTryRun command w
     = (Go.Ret ((ssh.remote w command).1, None), ssh.ran command w)
     ∧ ssh.executed (ssh.ran command w) = ssh.executed w ++ [command])
  ∧ (∀ e, ssh.live w → (ssh.remote w command).2 = Some e →
     ∃ w', ssh.KeepTryRun command w
           = (Go.Ret ((ssh.remote w command).1,
                      Some (ssh.FormatError w (ssh.remote w command).1 e)), w')
           ∧ ssh.executed w' = ssh.executed w ++ replicate 20 command).
Proof.
  split; [|split].
  - intros Hs. unfold ssh.KeepTryRun. by rewrite Hs.
  - intros Hl He. unfold ssh.KeepTryRun. destruct Hl as [Hs Hse]. rewrite Hs.
    unfold ssh.maxRunAttempts. cbn [ssh.KeepTryRun_loop].
    rewrite Run_live, He by done. split; [done|]. apply executed_ran.
  - intros e Hl He. unfold ssh.KeepTryRun. rewrite (proj1 Hl).
    exact (KeepTryRun_loop_fails 19 EmptyString None command e w Hl He).
Qed.

Lemma KeepTryRun_attempts_witness :
  ∃ w', ssh.KeepTryRun "false" samples.world_flaky
        = (Go.Ret (EmptyString, Some "exit status 1"), w')
        ∧ ssh.executed w' = replicate 20 "false".
Proof.
  apply (proj2 (proj2 (KeepTryRun_attempts "false" samples.world_flaky)) "exit status 1").
  - split; reflexivity.
  - reflexivity.
Defined.

(** X8. [FastMultiRun] and [DockerMultiExec] run one remote command:
    the commands joined by [&&], each behind its [docker exec -d] prefix for
    the latter. *)
Theorem FastMultiRun_joins (node : Z) (commands : list string) (w : ssh.World) :
  ssh.FastMultiRun commands w = ssh.Run (Go.Join commands "&&") w
  ∧ ssh.DockerMultiExec node commands w
    = ssh.Run (Go.Join (ssh.detached w node <$> commands) "&&") w
  ∧ (ssh.live w →
     ssh.executed (ssh.FastMultiRun commands w).2
     = ssh.executed w ++ [Go.Join commands "&&"]).
Proof.
  unfold ssh.FastMultiRun, ssh.DockerMultiExec. rewrite chain_Join, merge_Join.
  split; [done|]. split; [done|].
  intros Hl. rewrite Run_live by done. apply executed_ran.
Qed.

Lemma FastMultiRun_joins_witness :
  ssh.executed (ssh.FastMultiRun ["cd /tmp"; "ls"] samples.world0).2 = ["cd /tmp&&ls"].
Proof.
  apply (proj2 (proj2 (FastMultiRun_joins 0 ["cd /tmp"; "ls"] samples.world0))).
  split; reflexivity.
Defined.

(** ** ssh.Client: the quote check *)

Section Quotes.
Import Go ssh.

(** Walking a string, the quotes counted are the escaped pairs counted
    and the quotes no backslash stands before. When a backslash stands
    before the string and the string begins with a quote, the count of
    pairs has taken that quote already. *)
Lemma quotes_split (s : string) : ∀ b : bool,
  count_from "'" 0 s
  = ((if b && match s with String c _ => Ascii.eqb c "'" | EmptyString => false end
      then S (count_from "\'" 1 s) else count_from "\'" 0 s)
     + unescaped b s)%nat.
Proof.
  induction s as [|c s IH]; intros b; [by destruct b|].
  cbn [count_from HasPrefix unescaped String.length Nat.sub].
  destruct (Ascii.eqb_spec c "'") as [->|Hq].
  - cbn [Ascii.eqb Bool.eqb andb]. rewrite (IH false). cbn [andb].
    replace (HasPrefix s EmptyString) with true by (by destruct s).
    destruct b; cbn [andb]; lia.
  - rewrite (proj2 (Ascii.eqb_neq _ _)) by congruence.
    rewrite andb_false_r.
    destruct (Ascii.eqb_spec c "\") as [->|Hb].
    + cbn [Ascii.eqb Bool.eqb andb]. rewrite (IH true). cbn [andb].
      destruct s as [|d s]; [done|]. cbn [HasPrefix].
      rewrite (Ascii.eqb_sym "'" d).
      replace (HasPrefix s EmptyString) with true by (by destruct s).
      by destruct (Ascii.eqb d "'").
    + rewrite (proj2 (Ascii.eqb_neq _ _)) by congruence.
      rewrite (IH false). done.
Qed.

Lemma Count_quotes (s : string) :
  Count s "'" = (Count s "\'" + unescaped false s)%nat.
Proof. exact (quotes_split s false). Qed.

End Quotes.

(** X9. The check of [logSanitizeAndStore] passes exactly for the
    commands in which a backslash stands directly before every single
    quote: for those the command is stored in the build state under the
    number of the node, for all others the call panics and stores
    nothing. *)
Theorem logSanitizeAndStore_wants_backslash_quote (node : Z) (command : string)
    (w : ssh.World) :
  (ssh.unescaped false command = 0%nat →
   ssh.logSanitizeAndStore node command w
   = (Go.Ret (),
      ssh.set_bs (state.Set_ (pretty node)
                    (state.mkCommand command (ssh.serverID w) node) (ssh.bs w)) w))
  ∧ (ssh.unescaped false command ≠ 0%nat →
     ssh.logSanitizeAndStore node command w
     = (Go.Panic "DockerExecdLog commands cannot contain unescaped ' characters", w)).
Proof.
  unfold ssh.logSanitizeAndStore. rewrite Count_quotes. split; intros H.
  - rewrite H, Nat.add_0_r, Nat.eqb_refl. done.
  - rewrite (proj2 (Nat.eqb_neq _ _)) by lia. done.
Qed.

Lemma logSanitizeAndStore_wants_backslash_quote_witness :
  ssh.logSanitizeAndStore 3 "echo \'hi\'" samples.world0
  = (Go.Ret (),
     ssh.set_bs (state.Set_ "3" (state.mkCommand "echo \'hi\'" 1 3) samples.bs0)
       samples.world0).
Proof.
  apply (proj1 (logSanitizeAndStore_wants_backslash_quote 3 "echo \'hi\'" samples.world0)).
  reflexivity.
Defined.

(** ** util: maps, configuration text, JSON fields *)

Section Maps.
Context {V : Type}.

(** Storing entries with distinct keys one by one, in any order, gives
    the union of the entries with what was there, the entries first. *)
Lemma foldl_insert_union (l : list (string * V)) : ∀ base : gmap string V,
  NoDup l.*1 →
  foldl (fun o kv => <[kv.1 := kv.2]> o) base l = list_to_map l ∪ base.
Proof.
  induction l as [|[k v] l IH]; intros base Hnd; cbn [foldl list_to_map].
  - by rewrite list_to_map_nil, (left_id_L ∅ (∪)).
  - cbn in Hnd. apply NoDup_cons in Hnd as [Hk Hnd].
    rewrite IH by done. rewrite list_to_map_cons. cbn [fst snd].
    rewrite <- insert_union_l.
    symmetry. apply insert_union_r. by apply not_elem_of_list_to_map_1.
Qed.

Lemma foldl_insert_range (m base : gmap string V) (order : list (string * V)) :
  order ≡ₚ map_to_list m →
  foldl (fun o kv => <[kv.1 := kv.2]> o) base order = m ∪ base.
Proof.
  intros Hp.
  assert (Hnd : NoDup order.*1).
  { rewrite Hp. apply NoDup_fst_map_to_list. }
  rewrite foldl_insert_union by done. f_equal.
  rewrite <- (list_to_map_to_list m).
  apply list_to_map_proper; [done|]. done.
Qed.

End Maps.

(** X10. [MergeStringMaps(m1, m2)] answers, in whatever order the two
    loops range over the maps, the one map that holds for every key the
    value of [m2] if [m2] has the key and else that of [m1]; a nil map
    counts as empty and the result is never nil. *)
Theorem MergeStringMaps_m2_wins (m1 m2 : Go.gomap) (order1 order2 : list (string * string)) :
  util.ranges m1 order1 → util.ranges m2 order2 →
  ∃ out,
    util.MergeStringMaps order1 order2 = Some out
    ∧ ∀ k, out !! k = match default ∅ m2 !! k with
                      | Some v => Some v
                      | None => default ∅ m1 !! k
                      end.
Proof.
  unfold util.ranges, util.MergeStringMaps, util.range_into. intros H1 H2.
  eexists. split; [done|]. intros k.
  rewrite (foldl_insert_range (default ∅ m2)) by done.
  rewrite (foldl_insert_range (default ∅ m1)) by done.
  rewrite (right_id_L ∅ (∪)). rewrite lookup_union.
  destruct (default ∅ m2 !! k), (default ∅ m1 !! k); done.
Qed.

Lemma MergeStringMaps_m2_wins_witness :
  ∃ out,
    util.MergeStringMaps [("a", "1"); ("b", "2")] [("b", "3")] = Some out
    ∧ ∀ k, out !! k
           = match default ∅ (Some ({[ "b" := "3" ]} : gmap string string)) !! k with
             | Some v => Some v
             | None => default ∅ (Some ({[ "a" := "1"; "b" := "2" ]} : gmap string string)) !! k
             end.
Proof.
  apply (MergeStringMaps_m2_wins (Some {[ "a" := "1"; "b" := "2" ]}) (Some {[ "b" := "3" ]})
           [("a", "1"); ("b", "2")] [("b", "3")]).
  - unfold util.ranges. vm_compute. reflexivity.
  - unfold util.ranges. vm_compute. reflexivity.
Defined.

Section CombineConfig.
Import util.

Lemma CombineConfig_from (entries : list string) : ∀ out : string,
  foldl (fun out entry => out +:+ (entry +:+ String (Ascii.ascii_of_nat 10) EmptyString))
        out entries
  = out +:+ CombineConfig entries.
Proof.
  unfold CombineConfig.
  induction entries as [|e rest IH]; intros out; cbn [foldl].
  - by rewrite string_app_nil_r.
  - rewrite IH. rewrite (IH (EmptyString +:+ _)).
    change (EmptyString +:+ (e +:+ String (Ascii.ascii_of_nat 10) EmptyString))
      with (e +:+ String (Ascii.ascii_of_nat 10) EmptyString).
    by rewrite string_app_assoc.
Qed.

End CombineConfig.

(** X11. [CombineConfig] writes every entry with a newline behind it, the
    last one too: the text of two lists one after the other is the text of
    the first followed by the text of the second, and the text is as long
    as the entries together plus one for each. *)
Theorem CombineConfig_lines (a b : list string) :
  util.CombineConfig (a ++ b) = util.CombineConfig a +:+ util.CombineConfig b
  ∧ String.length (util.CombineConfig a)
    = (foldr Nat.add 0 (String.length <$> a) + length a)%nat
  ∧ ∀ entry, util.CombineConfig [entry] = entry +:+ String (Ascii.ascii_of_nat 10) EmptyString.
Proof.
  split; [|split].
  - unfold util.CombineConfig at 1. rewrite foldl_app.
    fold (util.CombineConfig a). apply CombineConfig_from.
  - induction a as [|e rest IH]; [done|].
    change (e :: rest) with ([e] ++ rest).
    unfold util.CombineConfig at 1. rewrite foldl_app. rewrite CombineConfig_from.
    rewrite string_length_app, IH. cbn [foldl].
    change (EmptyString +:+ (e +:+ String (Ascii.ascii_of_nat 10) EmptyString))
      with (e +:+ String (Ascii.ascii_of_nat 10) EmptyString).
    rewrite string_length_app. cbn. lia.
  - intros entry. reflexivity.
Qed.

(** X12. The helpers that read a field of a decoded JSON object into
    [out] fail only on a field that is there, not null and of another type
    (for [GetJSONInt64] also on a number that is no [int64]), and each of
    the four changes [out] only on a field of its own type, to the value
    of that field: a field that is missing, null or of another type leaves
    [out] alone. [GetJSONNumber], which returns the value, answers an
    error for everything but a number. *)
Theorem GetJSON_missing_field_is_no_error (data : gmap string util.iface) (field : string) :
  (∀ out, (util.GetJSONString data field out).2 ≠ None
          ↔ ∃ v, data !! field = Some v ∧ v ≠ util.INil ∧ ∀ s, v ≠ util.IString s)
  ∧ (∀ out, (util.GetJSONString data field out).1 ≠ out →
            data !! field = Some (util.IString (util.GetJSONString data field out).1))
  ∧ (∀ out, (util.GetJSONBool data field out).2 ≠ None
            ↔ ∃ v, data !! field = Some v ∧ v ≠ util.INil ∧ ∀ b, v ≠ util.IBool b)
  ∧ (∀ out, (util.GetJSONBool data field out).1 ≠ out →
            data !! field = Some (util.IBool (util.GetJSONBool data field out).1))
  ∧ (∀ out, (util.GetJSONStringArr data field out).2 ≠ None
            ↔ ∃ v, data !! field = Some v ∧ v ≠ util.INil ∧ ∀ l, v ≠ util.IStrings l)
  ∧ (∀ out, (util.GetJSONStringArr data field out).1 ≠ out →
            data !! field = Some (util.IStrings (util.GetJSONStringArr data field out).1))
  ∧ (∀ Int64 out, (util.GetJSONInt64 Int64 data field out).2 ≠ None
                  ↔ ∃ v, data !! field = Some v ∧ v ≠ util.INil
                         ∧ ∀ lit, v = util.INumber lit → ∃ err, Int64 lit = inr err)
  ∧ (∀ Int64 out, (util.GetJSONInt64 Int64 data field out).1 ≠ out →
                  ∃ lit, data !! field = Some (util.INumber lit)
                         ∧ Int64 lit = inl (util.GetJSONInt64 Int64 data field out).1)
  ∧ ((util.GetJSONNumber data field).2 = None
     ↔ ∃ lit, data !! field = Some (util.INumber lit)).
Proof.
  unfold util.GetJSONString, util.GetJSONBool, util.GetJSONStringArr,
    util.GetJSONInt64, util.GetJSONNumber.
  destruct (data !! field) as [v|] eqn:E.
  - repeat match goal with |- _ ∧ _ => split end.
    + intros out. split.
      * intros H. exists v. split; [done|].
        destruct v; cbn in H; split; congruence.
      * intros (v' & [= <-] & Hnil & Hty).
        destruct v; cbn; try congruence; exfalso; by eapply Hty.
    + intros out H. destruct v; cbn in *; congruence.
    + intros out. split.
      * intros H. exists v. split; [done|].
        destruct v; cbn in H; split; congruence.
      * intros (v' & [= <-] & Hnil & Hty).
        destruct v; cbn; try congruence; exfalso; by eapply Hty.
    + intros out H. destruct v; cbn in *; congruence.
    + intros out. split.
      * intros H. exists v. split; [done|].
        destruct v; cbn in H; split; congruence.
      * intros (v' & [= <-] & Hnil & Hty).
        destruct v; cbn; try congruence; exfalso; by eapply Hty.
    + intros out H. destruct v; cbn in *; congruence.
    + intros Int64 out. split.
      * intros H. exists v. split; [done|].
        destruct v; cbn in H; try (split; congruence).
        split; [done|]. intros lit' [= <-].
        destruct (Int64 lit); cbn in H; [congruence|eauto].
      * intros (v' & [= <-] & Hnil & Hty).
        destruct v; cbn; try congruence.
        destruct (Hty lit eq_refl) as [err ->]. done.
    + intros Int64 out H. destruct v; cbn in *; try congruence.
      exists lit. split; [done|].
      destruct (Int64 lit); cbn in *; congruence.
    + split.
      * intros H. destruct v; cbn in H; try congruence. eauto.
      * intros [lit [= ->]]. done.
  - repeat match goal with |- _ ∧ _ => split end; cbn.
    + intros out. split; [congruence|]. by intros (? & ? & _).
    + congruence.
    + intros out. split; [congruence|]. by intros (? & ? & _).
    + congruence.
    + intros out. split; [congruence|]. by intros (? & ? & _).
    + congruence.
    + intros Int64 out. split; [congruence|]. by intros (? & ? & _).
    + congruence.
    + split; [congruence|]. by intros [? ?].
Qed.

(** ** TestNet: buckets, lookups and the life of a testnet *)

Section Buckets.
Import db testnet.

(** The first loop: an empty bucket under every server id. *)
Lemma empty_buckets (servers : list Server) (id : Z) : ∀ out : gmap Z (list Node),
  foldl (fun out server => <[ID server := []]> out) out servers !! id
  = if decide (id ∈ ID <$> servers) then Some [] else out !! id.
Proof.
  induction servers as [|s rest IH]; intros out; cbn [foldl fmap list_fmap].
  - rewrite decide_False; [done|]. apply not_elem_of_nil.
  - rewrite IH. destruct (decide (id ∈ ID <$> rest)) as [Hin|Hout].
    + rewrite decide_True; [done|]. by apply list_elem_of_further.
    + destruct (decide (ID s = id)) as [<-|Hne].
      * rewrite decide_True by apply list_elem_of_here. by rewrite lookup_insert_eq.
      * rewrite decide_False.
        { by rewrite lookup_insert_ne. }
        intros [?|?]%elem_of_cons; congruence.
Qed.

(** The second loop: every node goes behind those already in the bucket
    of its server. *)
Lemma fill_buckets (nodes : list Node) (id : Z) : ∀ out : gmap Z (list Node),
  foldl (fun out node =>
           <[Server_ node := default [] (out !! Server_ node) ++ [node]]> out)
        out nodes !! id
  = match out !! id with
    | Some l => Some (l ++ filter (fun node => Server_ node = id) nodes)
    | None =>
        if decide (id ∈ Server_ <$> nodes)
        then Some (filter (fun node => Server_ node = id) nodes)
        else None
    end.
Proof.
  induction nodes as [|node rest IH]; intros out; cbn [foldl fmap list_fmap].
  - rewrite filter_nil. destruct (out !! id); [by rewrite app_nil_r|].
    rewrite decide_False; [done|]. apply not_elem_of_nil.
  - rewrite IH. destruct (decide (Server_ node = id)) as [<-|Hne].
    + rewrite lookup_insert_eq, filter_cons_True by done.
      destruct (out !! Server_ node) as [l|]; cbn [default].
      * by rewrite <- app_assoc.
      * rewrite decide_True by apply list_elem_of_here. done.
    + rewrite lookup_insert_ne, filter_cons_False by done.
      destruct (out !! id) as [l|]; [done|].
      destruct (decide (id ∈ Server_ <$> rest)) as [Hin|Hout].
      * rewrite decide_True; [done|]. by apply list_elem_of_further.
      * rewrite decide_False; [done|].
        intros [?|?]%elem_of_cons; congruence.
Qed.

Lemma buckets_lookup (servers : list Server) (nodes : list Node) (id : Z) :
  buckets servers nodes !! id
  = if decide (id ∈ ID <$> servers ∨ id ∈ Server_ <$> nodes)
    then Some (filter (fun node => Server_ node = id) nodes)
    else None.
Proof.
  unfold buckets. rewrite fill_buckets, empty_buckets, lookup_empty.
  destruct (decide (id ∈ ID <$> servers)) as [Hs|Hs].
  - rewrite decide_True by (by left). done.
  - destruct (decide (id ∈ Server_ <$> nodes)) as [Hn|Hn].
    + rewrite decide_True by (by right). done.
    + rewrite decide_False by tauto. done.
Qed.

End Buckets.

(** X13. [PreOrderNodes] and [PreOrderNewNodes] answer a map that has a
    bucket exactly for the ids of the testnet's servers and for the server
    ids its nodes name; the bucket of an id holds the nodes of that server,
    all of them and no others, in the order of the node list - empty for a
    server without nodes. *)
Theorem PreOrderNodes_buckets (tn : testnet.TestNet) (id : Z) :
  testnet.PreOrderNodes tn !! id
  = (if decide (id ∈ db.ID <$> testnet.Servers tn ∨ id ∈ db.Server_ <$> testnet.Nodes tn)
     then Some (filter (fun node => db.Server_ node = id) (testnet.Nodes tn))
     else None)
  ∧ testnet.PreOrderNewNodes tn !! id
    = (if decide (id ∈ db.ID <$> testnet.Servers tn
                  ∨ id ∈ db.Server_ <$> testnet.NewlyBuiltNodes tn)
       then Some (filter (fun node => db.Server_ node = id) (testnet.NewlyBuiltNodes tn))
       else None).
Proof. split; apply buckets_lookup. Qed.

Section Lookups.
Import db testnet.

Lemma GetServer_loop_Some (servers : list Server) (id : Z) (s : Server) :
  GetServer_loop servers id = Some s →
  ∃ pre post, servers = pre ++ s :: post ∧ ID s = id ∧ id ∉ ID <$> pre.
Proof.
  induction servers as [|server rest IH]; cbn; [done|].
  destruct (Z.eqb_spec (ID server) id) as [He|Hne].
  - intros [= <-]. exists [], rest. split; [done|]. split; [done|].
    apply not_elem_of_nil.
  - intros H. destruct (IH H) as (pre & post & -> & Hid & Hpre).
    exists (server :: pre), post. split; [done|]. split; [done|].
    cbn. intros [?|?]%elem_of_cons; congruence.
Qed.

Lemma GetServer_loop_None (servers : list Server) (id : Z) :
  GetServer_loop servers id = None ↔ id ∉ ID <$> servers.
Proof.
  induction servers as [|server rest IH]; cbn.
  - split; [intros _; apply not_elem_of_nil|done].
  - destruct (Z.eqb_spec (ID server) id) as [He|Hne].
    + split; [done|]. intros H. destruct H. rewrite He. apply list_elem_of_here.
    + rewrite IH. split.
      * intros H [?|?]%elem_of_cons; congruence.
      * intros H Hin. apply H. by apply list_elem_of_further.
Qed.

End Lookups.

(** X14. [GetServer] answers the first of the testnet's servers that has
    the id asked for, and nil exactly when no server has it. *)
Theorem GetServer_first_of_id (tn : testnet.TestNet) (id : Z) :
  (∀ s, testnet.GetServer tn id = Some s →
        ∃ pre post, testnet.Servers tn = pre ++ s :: post
                    ∧ db.ID s = id ∧ id ∉ db.ID <$> pre)
  ∧ (testnet.GetServer tn id = None ↔ id ∉ db.ID <$> testnet.Servers tn).
Proof.
  split.
  - intros s. apply GetServer_loop_Some.
  - apply GetServer_loop_None.
Qed.

Section Life.
Import db testnet.

Lemma NewTestNet_fresh (env : Env) (details : DeploymentDetails) (buildID : string)
    (tn : TestNet) :
  NewTestNet env details buildID = inl tn →
  Nodes tn = [] ∧ NewlyBuiltNodes tn = [] ∧ Details tn = [details]
  ∧ CombinedDetails tn = details ∧ LDD tn = PtrParam ∧ TestNetID tn = buildID.
Proof.
  unfold NewTestNet.
  destruct (GetBuildStateByID env buildID); [|done].
  destruct (GetServers env _); [|done].
  destruct (open_clients env _ ∅); [|done].
  by intros [= <-].
Qed.

(** A run of steps from any testnet: the node list grows by the nodes
    added, numbered from where it ended; the list of newly built nodes
    stays an end piece of it. *)
Lemma steps_from (DoneBuilding : state.BuildState → state.BuildState)
    (steps : list step) : ∀ tn : TestNet,
  let tn' := foldl (do_step DoneBuilding) tn steps in
  Nodes tn'
  = Nodes tn ++ zip_with set_AbsoluteNum (added steps)
                  (Z.of_nat <$> seq (length (Nodes tn)) (length (added steps)))
  ∧ (NewlyBuiltNodes tn `suffix_of` Nodes tn →
     NewlyBuiltNodes tn' `suffix_of` Nodes tn').
Proof.
  induction steps as [|s rest IH]; intros tn; cbn [foldl].
  - cbn. by rewrite app_nil_r.
  - specialize (IH (do_step DoneBuilding tn s)). cbn zeta in IH.
    destruct IH as [IHn IHs]. destruct s as [node|].
    + cbn [do_step added omap] in *. rewrite AddNode_step in *. cbn [fst] in *.
      cbn [Nodes NewlyBuiltNodes set_Nodes] in *.
      rewrite length_app, Nat.add_1_r in IHn.
      split.
      * rewrite IHn. cbn [length seq fmap list_fmap zip_with].
        by rewrite <- app_assoc.
      * intros Hs. apply IHs. by apply suffix_app.
    + cbn [do_step added omap FinishedBuilding fst] in *.
      cbn [Nodes NewlyBuiltNodes set_Nodes set_BuildState] in *.
      split; [exact IHn|]. intros _. apply IHs. apply suffix_nil.
Qed.

End Life.

(** X15. However calls of [AddNode] and [FinishedBuilding] follow one
    another on a testnet that starts without nodes, the node list is the
    nodes added, in order, the [k]-th numbered [k] - [FinishedBuilding]
    takes none away - and the newly built nodes are an end piece of the
    node list. *)
Theorem builds_keep_nodes_numbered (DoneBuilding : state.BuildState → state.BuildState)
    (tn : testnet.TestNet) (steps : list testnet.step) :
  testnet.Nodes tn = [] → testnet.NewlyBuiltNodes tn = [] →
  let tn' := foldl (testnet.do_step DoneBuilding) tn steps in
  testnet.Nodes tn'
  = zip_with db.set_AbsoluteNum (testnet.added steps)
      (Z.of_nat <$> seq 0 (length (testnet.added steps)))
  ∧ db.AbsoluteNum <$> testnet.Nodes tn'
    = Z.of_nat <$> seq 0 (length (testnet.Nodes tn'))
  ∧ testnet.NewlyBuiltNodes tn' `suffix_of` testnet.Nodes tn'.
Proof.
  intros Hn Hb tn'.
  destruct (steps_from DoneBuilding steps tn) as [Hnodes Hsuf].
  fold tn' in Hnodes, Hsuf. rewrite Hn in Hnodes. cbn [app length] in Hnodes.
  split; [exact Hnodes|]. split.
  - rewrite Hnodes. rewrite AbsoluteNum_zip by (by rewrite length_fmap, length_seq).
    rewrite length_zip_with, length_fmap, length_seq, Nat.min_id. done.
  - apply Hsuf. rewrite Hn, Hb. done.
Qed.

Lemma builds_keep_nodes_numbered_witness :
  let tn' := foldl (testnet.do_step (fun bs => bs)) samples.tn_empty
               [testnet.DoAddNode samples.node_c; testnet.DoFinishedBuilding;
                testnet.DoAddNode samples.node_a] in
  testnet.Nodes tn'
  = zip_with db.set_AbsoluteNum [samples.node_c; samples.node_a] [0; 1]
  ∧ db.AbsoluteNum <$> testnet.Nodes tn'
    = Z.of_nat <$> seq 0 (length (testnet.Nodes tn'))
  ∧ testnet.NewlyBuiltNodes tn' `suffix_of` testnet.Nodes tn'.
Proof.
  exact (builds_keep_nodes_numbered (fun bs => bs) samples.tn_empty
           [testnet.DoAddNode samples.node_c; testnet.DoFinishedBuilding;
            testnet.DoAddNode samples.node_a] eq_refl eq_refl).
Defined.

Section Clients.
Import db testnet.

(** The loop that opens the clients: when it succeeds, every server has
    the client the pool answered for its id, and the other entries are as
    before. *)
Lemma open_clients_inl (env : Env) (servers : list Server) :
  ∀ clients clients' : gmap Z ClientRef,
  open_clients env servers clients = inl clients' →
  ∀ id, clients' !! id
        = if decide (id ∈ ID <$> servers)
          then match GetClient env id with inl c => Some c | inr _ => None end
          else clients !! id.
Proof.
  induction servers as [|s rest IH]; intros clients clients'; cbn [open_clients].
  - intros [= <-] id. rewrite decide_False; [done|]. apply not_elem_of_nil.
  - destruct (GetClient env (ID s)) as [c|err] eqn:E; [|done].
    intros H id. rewrite (IH _ _ H id). cbn [fmap list_fmap].
    destruct (decide (id ∈ ID <$> rest)) as [Hin|Hout].
    + rewrite decide_True; [done|]. by apply list_elem_of_further.
    + destruct (decide (ID s = id)) as [<-|Hne].
      * rewrite decide_True by apply list_elem_of_here.
        by rewrite lookup_insert_eq, E.
      * rewrite decide_False.
        { by rewrite lookup_insert_ne. }
        intros [?|?]%elem_of_cons; congruence.
Qed.

Lemma open_clients_all (env : Env) (servers : list Server) :
  ∀ clients clients' : gmap Z ClientRef,
  open_clients env servers clients = inl clients' →
  Forall (fun s => ∃ c, GetClient env (ID s) = inl c) servers.
Proof.
  induction servers as [|s rest IH]; intros clients clients'; cbn [open_clients].
  - intros _. constructor.
  - destruct (GetClient env (ID s)) as [c|err] eqn:E; [|done].
    intros H. constructor; [eauto|]. by eapply IH.
Qed.

(** When it fails, the error is that of the first server without a
    client. *)
Lemma open_clients_inr (env : Env) (servers : list Server) :
  ∀ (clients : gmap Z ClientRef) (err : string),
  open_clients env servers clients = inr err →
  ∃ pre s post, servers = pre ++ s :: post
                ∧ Forall (fun s => ∃ c, GetClient env (ID s) = inl c) pre
                ∧ GetClient env (ID s) = inr err.
Proof.
  induction servers as [|s rest IH]; intros clients err; cbn [open_clients]; [done|].
  destruct (GetClient env (ID s)) as [c|err'] eqn:E.
  - intros H. destruct (IH _ _ H) as (pre & s' & post & -> & Hpre & He).
    exists (s :: pre), s', post. split; [done|]. split; [|done].
    constructor; eauto.
  - intros [= <-]. exists [], s, rest. split; [done|]. split; [constructor|done].
Qed.

End Clients.

(** X16. A testnet that [NewTestNet] returns has the servers the server
    table answered for the deployment and, in [Clients], exactly one entry
    for every server id: the client the pool answered for it. When
    [NewTestNet] fails after the build state was found, the error has been
    reported to the build state, which is stopped; when a client is
    missing, the error is that of the first server without one. *)
Theorem NewTestNet_one_client_per_server (env : testnet.Env)
    (details : db.DeploymentDetails) (buildID : string) :
  (∀ tn, testnet.NewTestNet env details buildID = inl tn →
         testnet.GetServers env (db.Servers details) = inl (testnet.Servers tn)
         ∧ ∀ id, testnet.Clients tn !! id
                 = if decide (id ∈ db.ID <$> testnet.Servers tn)
                   then match testnet.GetClient env id with
                        | inl c => Some c
                        | inr _ => None
                        end
                   else None)
  ∧ (∀ tn, testnet.NewTestNet env details buildID = inl tn →
           Forall (fun s => is_Some (testnet.Clients tn !! db.ID s)) (testnet.Servers tn))
  ∧ (∀ err bs, testnet.NewTestNet env details buildID = inr (err, Some bs) →
               state.Stop bs = true ∧ state.GetError bs = Some err)
  ∧ (∀ err servers obs,
       testnet.GetServers env (db.Servers details) = inl servers →
       testnet.NewTestNet env details buildID = inr (err, obs) →
       (∃ bs, obs = Some bs) →
       ∃ pre s post, servers = pre ++ s :: post
                     ∧ Forall (fun s => ∃ c, testnet.GetClient env (db.ID s) = inl c) pre
                     ∧ testnet.GetClient env (db.ID s) = inr err).
Proof.
  unfold testnet.NewTestNet.
  destruct (testnet.GetBuildStateByID env buildID) as [bs0|e0].
  2: { repeat split; try done. intros ? ? ? _ [= <- <-] [? ?]. done. }
  destruct (testnet.GetServers env (db.Servers details)) as [servers|e1].
  2: { split; [done|]. split; [done|]. split; [|done]. by intros err bs [= <- <-]. }
  destruct (testnet.open_clients env servers ∅) as [clients|e2] eqn:E.
  - split; [|split; [|split]]; try done.
    + intros tn [= <-]. cbn. split; [done|]. intros id.
      rewrite (open_clients_inl _ _ _ _ E id). by rewrite lookup_empty.
    + intros tn [= <-]. cbn.
      pose proof (open_clients_all _ _ _ _ E) as Hall.
      rewrite Forall_forall in Hall |- *. intros s Hs.
      destruct (Hall s Hs) as [c Hc].
      rewrite (open_clients_inl _ _ _ _ E (db.ID s)).
      rewrite decide_True by (apply list_elem_of_fmap; eauto).
      rewrite Hc. eauto.
  - split; [done|]. split; [done|]. split.
    + by intros err bs [= <- <-].
    + intros err servers' obs [= <-] [= <- <-] _.
      by apply (open_clients_inr _ _ _ _ E).
Qed.

Lemma NewTestNet_one_client_per_server_witness :
  ∃ tn, testnet.NewTestNet samples.env0 samples.dd_first "build" = inl tn
        ∧ Forall (fun s => is_Some (testnet.Clients tn !! db.ID s)) (testnet.Servers tn).
Proof.
  eexists. split; [reflexivity|].
  exact (proj1 (proj2 (NewTestNet_one_client_per_server samples.env0 samples.dd_first
                         "build")) _ eq_refl).
Defined.

Section Latest.
Import db testnet.

Lemma GetLastestDeploymentDetails_last (tn : TestNet) (d : DeploymentDetails) :
  last (Details tn) = Some d →
  GetLastestDeploymentDetails tn = Go.Ret (PtrDetails (length (Details tn) - 1), d).
Proof.
  unfold GetLastestDeploymentDetails. rewrite last_lookup.
  destruct (Details tn) as [|d0 ds] eqn:E; [done|].
  cbn [length Nat.pred]. intros Hl. unfold Go.index.
  change (Go.elems (Some (d0 :: ds))) with (d0 :: ds).
  replace (S (length ds) - 1)%nat with (length ds) by lia.
  unfold mbind, outcome_bind. rewrite Hl. done.
Qed.

(** After a run of calls that add deployments, [LDD] points at the last
    place of the history. *)
Lemma AddDetails_all_LDD (dds : list DeploymentDetails) : ∀ tn tn' : TestNet,
  AddDetails_all tn dds = Go.Ret tn' →
  dds ≠ [] →
  LDD tn' = PtrDetails (length (Details tn') - 1).
Proof.
  induction dds as [|dd rest IH]; intros tn tn'; [done|].
  cbn [AddDetails_all]. unfold mbind, outcome_bind.
  destruct (AddDetails tn dd) as [?|[tn1 e]] eqn:E1; cbn [Go.bind]; [discriminate|].
  cbn [fst]. intros E2 _.
  destruct rest as [|dd2 rest].
  - cbn in E2. injection E2 as <-.
    apply AddDetails_Ret in E1 as (_ & -> & -> & _).
    rewrite length_app. cbn. f_equal. lia.
  - by apply (IH tn1 tn' E2).
Qed.

End Latest.

(** X17. On a testnet made by [NewTestNet] and extended by calls of
    [AddDetails], [GetLastestDeploymentDetails] answers the last place of
    the deployment history, which holds the deployment added last - the
    first one when none was added - and [LDD] points at the same place as
    soon as one was added. On a testnet without any deployment recorded the
    call panics. *)
Theorem GetLastestDeploymentDetails_is_last (env : testnet.Env)
    (details : db.DeploymentDetails) (buildID : string)
    (dds : list db.DeploymentDetails) (tn0 tn' : testnet.TestNet) :
  testnet.NewTestNet env details buildID = inl tn0 →
  testnet.AddDetails_all tn0 dds = Go.Ret tn' →
  testnet.GetLastestDeploymentDetails tn'
  = Go.Ret (testnet.PtrDetails (length dds), default details (last dds))
  ∧ (dds ≠ [] → testnet.LDD tn' = testnet.PtrDetails (length dds))
  ∧ (∀ tn, testnet.Details tn = [] →
           testnet.GetLastestDeploymentDetails tn = Go.Panic "index out of range").
Proof.
  intros Hnew Hadd.
  apply NewTestNet_fresh in Hnew as (_ & _ & Hd & _).
  pose proof (AddDetails_all_Ret dds tn0 tn' Hadd) as [Hd' _].
  rewrite Hd in Hd'.
  assert (Hlen : (length (testnet.Details tn') - 1 = length dds)%nat).
  { rewrite Hd'. cbn. lia. }
  split; [|split].
  - rewrite (GetLastestDeploymentDetails_last tn' (default details (last dds))).
    + by rewrite Hlen.
    + rewrite Hd'. change ([details] ++ dds) with (details :: dds).
      destruct dds as [|d ds] using rev_ind; [done|].
      rewrite last_snoc. cbn [default].
      change (details :: ds ++ [d]) with ((details :: ds) ++ [d]).
      by rewrite last_snoc.
  - intros Hne. rewrite <- Hlen. by eapply AddDetails_all_LDD.
  - intros tn Hnil. unfold testnet.GetLastestDeploymentDetails. by rewrite Hnil.
Qed.

Lemma GetLastestDeploymentDetails_is_last_witness :
  ∃ tn0 tn',
    testnet.NewTestNet samples.env0 samples.dd_first "build" = inl tn0
    ∧ testnet.AddDetails_all tn0 [samples.dd_second] = Go.Ret tn'
    ∧ testnet.GetLastestDeploymentDetails tn'
      = Go.Ret (testnet.PtrDetails 1, samples.dd_second).
Proof.
  eexists _, _. split; [reflexivity|]. split; [reflexivity|].
  exact (proj1 (GetLastestDeploymentDetails_is_last samples.env0 samples.dd_first "build"
                  [samples.dd_second] _ _ eq_refl eq_refl)).
Defined.

Section Restore.
Import db testnet.

Lemma open_clients_total (env : Env) (servers : list Server) :
  ∀ clients : gmap Z ClientRef,
  Forall (fun s => ∃ c, GetClient env (ID s) = inl c) servers →
  ∃ clients', open_clients env servers clients = inl clients'.
Proof.
  induction servers as [|s rest IH]; intros clients Hall; cbn [open_clients]; [eauto|].
  apply Forall_cons in Hall as [[c ->] Hall]. by apply IH.
Qed.

End Restore.

(** X18. [RestoreTestNet] on what [Store] handed to the metadata store,
    when the store answers it back and the build state is found: with no
    deployment recorded the call panics; otherwise, when every server has
    a client, it returns the testnet as it was stored, with the build state
    found, [LDD] at the last place of the deployment history and one client
    for every server id. *)
Theorem RestoreTestNet_after_Store (env : testnet.Env)
    (GetMetaP : string → testnet.TestNet + string) (tn : testnet.TestNet)
    (bs : state.BuildState) :
  GetMetaP (testnet.Store tn).1 = inl (testnet.Store tn).2 →
  testnet.GetBuildStateByID env (testnet.TestNetID tn) = inl bs →
  (testnet.Details tn = [] →
   testnet.RestoreTestNet env GetMetaP (testnet.TestNetID tn)
   = Go.Panic "index out of range")
  ∧ (testnet.Details tn ≠ [] →
     Forall (fun s => ∃ c, testnet.GetClient env (db.ID s) = inl c) (testnet.Servers tn) →
     ∃ clients,
       testnet.RestoreTestNet env GetMetaP (testnet.TestNetID tn)
       = Go.Ret (inl (testnet.set_Clients
                        (testnet.set_LDD (testnet.set_BuildState tn bs)
                           (testnet.PtrDetails (length (testnet.Details tn) - 1)))
                        clients))
       ∧ ∀ id, clients !! id
               = if decide (id ∈ db.ID <$> testnet.Servers tn)
                 then match testnet.GetClient env id with
                      | inl c => Some c
                      | inr _ => None
                      end
                 else None).
Proof.
  intros Hmeta Hbs. unfold testnet.Store in Hmeta. cbn [fst snd] in Hmeta.
  unfold testnet.RestoreTestNet. rewrite Hmeta, Hbs. split.
  - intros Hnil. unfold testnet.GetLastestDeploymentDetails. cbn. by rewrite Hnil.
  - intros Hne Hall.
    destruct (last (testnet.Details tn)) as [d|] eqn:Hlast.
    2: { apply last_None in Hlast. done. }
    rewrite (GetLastestDeploymentDetails_last (testnet.set_BuildState tn bs) d) by done.
    unfold mbind, outcome_bind, mret, outcome_ret. cbn [Go.bind fst].
    change (testnet.Servers (testnet.set_LDD _ _)) with (testnet.Servers tn).
    destruct (open_clients_total env (testnet.Servers tn) ∅ Hall) as [clients E].
    rewrite E. exists clients. split; [done|]. intros id.
    rewrite (open_clients_inl _ _ _ _ E id). by rewrite lookup_empty.
Qed.

Lemma RestoreTestNet_after_Store_witness :
  testnet.RestoreTestNet samples.env0 (fun _ => inl samples.tn_empty) "build"
  = Go.Panic "index out of range"
  ∧ ∃ clients,
      testnet.RestoreTestNet samples.env0 (fun _ => inl samples.tn_first) "build"
      = Go.Ret (inl (testnet.set_Clients
                       (testnet.set_LDD
                          (testnet.set_BuildState samples.tn_first
                             (state.mkBuildState "build" None false ∅))
                          (testnet.PtrDetails 0))
                       clients))
      ∧ clients !! 1 = Some (testnet.mkClientRef 1)
      ∧ clients !! 2 = None.
Proof.
  split.
  - exact (proj1 (RestoreTestNet_after_Store samples.env0 (fun _ => inl samples.tn_empty)
                    samples.tn_empty (state.mkBuildState "build" None false ∅)
                    eq_refl eq_refl) eq_refl).
  - destruct (proj2 (RestoreTestNet_after_Store samples.env0 (fun _ => inl samples.tn_first)
                       samples.tn_first (state.mkBuildState "build" None false ∅)
                       eq_refl eq_refl)) as (clients & E & Hc).
    + discriminate.
    + repeat constructor. by eexists.
    + exists clients. split; [exact E|]. by rewrite !Hc.
Defined.

Section StoreLabelled.
Import db testnet.

Lemma InsertNode_accepted (run : InsertRun) (node : Node) (table : list Row) :
  db.accepts_row run →
  InsertNode run node table = ((last_id run, last_id_err run), table ++ [row_of node]).
Proof. intros (Hb & Hp & He & Hc). unfold InsertNode. by rewrite Hb, Hp, He, Hc. Qed.

(** The label a node is handed over with does not reach its row. *)
Lemma row_of_set_Label (node : Node) (l : string) : row_of (set_Label node l) = row_of node.
Proof. done. Qed.

Lemma StoreNodes_loop_stores (runs : nat → InsertRun) (labels : Go.slice string)
    (nodes : list Node) :
  (∀ i, db.accepts_row (runs i)) →
  ∀ (i : nat) (table : list Row) (log : list string),
  labels = None ∨ (i + length nodes ≤ length (Go.elems labels))%nat →
  ∃ log', StoreNodes_loop runs labels i nodes table log
          = Go.Ret (table ++ (row_of <$> nodes), log').
Proof.
  intros Hacc. induction nodes as [|node rest IH]; intros i table log Hlen;
    cbn [StoreNodes_loop fmap list_fmap].
  - rewrite app_nil_r. cbn. eauto.
  - assert (∃ node',
               (if negb (Go.is_nil labels)
                then l ← Go.index labels i; mret (set_Label node l)
                else mret node) = Go.Ret node'
               ∧ row_of node' = row_of node) as (node' & -> & Hrow).
    { destruct labels as [ls|]; cbn [Go.is_nil negb]; [|eauto].
      destruct Hlen as [|Hlen]; [done|]. cbn in Hlen.
      unfold Go.index. change (Go.elems (Some ls)) with ls.
      destruct (lookup_lt_is_Some_2 ls i ltac:(lia)) as [l ->]. cbn. eauto. }
    unfold mbind, outcome_bind. cbn [Go.bind].
    rewrite InsertNode_accepted, Hrow by done.
    destruct (IH (S i) (table ++ [row_of node])
                (match last_id_err (runs i) with Some e => log ++ [e] | None => log end))
      as [log' ->].
    { destruct Hlen as [|Hlen]; [by left|right]. cbn in Hlen. lia. }
    rewrite <- app_assoc. eauto.
Qed.

End StoreLabelled.

(** X19. When the database takes every row, [StoreNodes] adds one row
    for each newly built node to the table, in their order, with the
    testnet, server, local id and address of the node. The labels take no
    part in it: the rows are the same with nil labels and with any labels
    that are enough, and the nodes of the testnet keep the labels they
    had. It does so again at every call, until [FinishedBuilding] has
    emptied the list: from then on a call adds nothing, whatever the
    labels. *)
Theorem StoreNodes_stores_every_new_node (runs : nat → db.InsertRun)
    (tn : testnet.TestNet) (table : list db.Row) :
  (∀ i, db.accepts_row (runs i)) →
  (∀ labels,
     labels = None ∨ (length (testnet.NewlyBuiltNodes tn) ≤ length (Go.elems labels))%nat →
     ∃ log, testnet.StoreNodes runs tn labels table
            = Go.Ret (None, tn, table ++ (db.row_of <$> testnet.NewlyBuiltNodes tn), log))
  ∧ (∀ DoneBuilding labels,
       let tn' := (testnet.FinishedBuilding DoneBuilding tn).1 in
       testnet.StoreNodes runs tn' labels table = Go.Ret (None, tn', table, [])).
Proof.
  intros Hacc. unfold testnet.StoreNodes. split.
  - intros labels Hlen.
    destruct (StoreNodes_loop_stores runs labels (testnet.NewlyBuiltNodes tn) Hacc
                0 table [] Hlen) as [log ->]. cbn. eauto.
  - intros DoneBuilding labels. reflexivity.
Qed.

Lemma StoreNodes_stores_every_new_node_witness :
  ∃ log, testnet.StoreNodes (fun _ => samples.run_ok) samples.tn_one (Some ["validator"]) []
         = Go.Ret (None, samples.tn_one, [db.mkRow 7 1 0 "10.0.0.1"], log).
Proof.
  apply (proj1 (StoreNodes_stores_every_new_node (fun _ => samples.run_ok)
                  samples.tn_one []
                  (fun _ => conj eq_refl (conj eq_refl (conj eq_refl eq_refl))))
           (Some ["validator"])).
  right. cbn. lia.
Defined.

Section Merge.
Import db testnet.

Lemma dec_elems_int (l : list Z) : ∀ old : list Z,
  json.dec_elems 0 json.dec_int old (json.JNum <$> l) = (l, true).
Proof.
  induction l as [|x l IH]; intros old; [done|].
  cbn [fmap list_fmap json.dec_elems]. rewrite IH. done.
Qed.

Lemma entries_Permutation {V} (m : gmap string V) : json.entries m ≡ₚ map_to_list m.
Proof. apply merge_sort_Permutation. Qed.

(** Entries written and read back one by one are the entries stored,
    when writing leaves their keys as they are. *)
Lemma foldl_insert_written {V W} (w : string * V → string * W) (r : W → V)
    (l : list (string * V)) : ∀ base : gmap string V,
  Forall (fun kv => (w kv).1 = kv.1 ∧ r (w kv).2 = kv.2) l →
  foldl (fun m e => <[e.1 := r e.2]> m) base (map w l)
  = foldl (fun o kv => <[kv.1 := kv.2]> o) base l.
Proof.
  induction l as [|kv l IH]; intros base Hall; [done|].
  apply Forall_cons in Hall as [[Hk Hv] Hall].
  cbn [map foldl]. rewrite Hk, Hv. by apply IH.
Qed.

(** A map of ASCII text decoded into a map: its entries go in with
    those the target held, and win over them. *)
Lemma dec_strmap_plain (m : gmap string string) (old : Go.gomap) :
  json.plain_map m →
  (json.dec_strmap old (json.enc_strmap (Some m))).1 = Some (m ∪ default ∅ old).
Proof.
  intros Hplain. unfold json.enc_strmap, json.dec_strmap. cbn [fst]. f_equal.
  rewrite (foldl_insert_written _ (fun j => (json.dec_str EmptyString j).1)).
  - apply foldl_insert_range, entries_Permutation.
  - rewrite entries_Permutation. apply map_Forall_to_list in Hplain.
    eapply Forall_impl; [exact Hplain|].
    intros [k v] [Hk Hv]. cbn in *. unfold json.enc_str. cbn.
    by rewrite !coerce_plain.
Qed.

(** The same for an untyped map with ASCII keys: the values come back
    as untyped values. *)
Lemma dec_anymap_plain (m : gmap string json.Json) (old : option (gmap string json.Json)) :
  map_Forall (fun k _ => json.plain k = true) m →
  (json.dec_anymap old (json.enc_anymap (Some m))).1
  = Some ((json.generic <$> m) ∪ default ∅ old).
Proof.
  intros Hplain. unfold json.enc_anymap, json.dec_anymap. cbn [fst]. f_equal.
  rewrite <- (foldl_insert_range (json.generic <$> m) (default ∅ old)
                (prod_map id json.generic <$> json.entries m)).
  - generalize (default ∅ old).
    assert (Hall : Forall (fun kv : string * json.Json => json.plain kv.1 = true)
                     (json.entries m)).
    { rewrite entries_Permutation. apply map_Forall_to_list in Hplain.
      eapply Forall_impl; [exact Hplain|]. by intros [k v]. }
    induction Hall as [|[k v] l Hk _ IH]; intros base; [done|].
    cbn [map fmap list_fmap foldl prod_map fst snd id].
    cbn in Hk. rewrite (coerce_plain k Hk). apply IH.
  - by rewrite map_to_list_fmap, entries_Permutation.
Qed.

(** What the old header shows of a decoded array, place by place. *)
Lemma seen_through_zip {A} (dec : A → json.Json → A * bool) (l : list json.Json) :
  ∀ old : list A,
  json.seen_through dec old l
  = zip_with (fun a j => (dec a j).1) old l ++ drop (length l) old.
Proof.
  induction l as [|j l IH]; intros [|a old]; cbn; try done.
  by rewrite IH.
Qed.

Lemma length_seen_through {A} (dec : A → json.Json → A * bool) (l : list json.Json)
    (old : list A) :
  length (json.seen_through dec old l) = length old.
Proof.
  revert l. induction old as [|a old IH]; intros [|j l]; cbn; try done.
  by rewrite IH.
Qed.

(** The maps the old header shows after the files of a deployment of
    ASCII text were decoded into them. *)
Lemma Files_after_plain (dd : DeploymentDetails) (tmp : json.Json) (olds : list Go.gomap) :
  jsondd.Marshal dd = inl tmp →
  Forall json.plain_file (Go.elems (Files dd)) →
  jsondd.Files_after tmp (Some olds)
  = Some (zip_with (fun o f => (fun m => m ∪ default ∅ o) <$> f) olds (Go.elems (Files dd))
          ++ drop (length (Go.elems (Files dd))) olds).
Proof.
  intros [= <-] Hplain. unfold jsondd.Files_after.
  change (json.field "files" _) with (Some (json.enc_slice json.enc_strmap (Files dd))).
  destruct (Files dd) as [fs|]; cbn [json.enc_slice].
  - change (Go.elems (Some fs)) with fs in *.
    cbn [fmap option_fmap option_map]. f_equal.
    rewrite seen_through_zip, length_map. f_equal.
    clear -Hplain. revert olds.
    induction Hplain as [|f fs' Hf _ IH]; intros [|o olds]; cbn; try done.
    rewrite IH. f_equal.
    destruct f as [m|]; [|done]. by apply dec_strmap_plain.
  - change (Go.elems None) with (@nil Go.gomap).
    by rewrite zip_with_nil_r, drop_0.
Qed.

Lemma length_Files_after (tmp : json.Json) (files : Go.slice Go.gomap) :
  Go.len (jsondd.Files_after tmp files) = Go.len files
  ∧ Go.is_nil (jsondd.Files_after tmp files) = Go.is_nil files.
Proof.
  unfold jsondd.Files_after.
  destruct tmp as [| | | |kv]; try done.
  destruct (json.field "files" kv) as [[| | |l|]|]; try done.
  destruct files as [olds|]; [|done].
  unfold Go.len. cbn. by rewrite length_seen_through.
Qed.

(** What the round trip through the document writes into the fields
    that [AddDetails] does not set itself. *)
Lemma Unmarshal_fields (dd cd : DeploymentDetails) (tmp : json.Json) :
  jsondd.Marshal dd = inl tmp →
  db.Servers (jsondd.Unmarshal tmp cd).1 = db.Servers dd
  ∧ Blockchain (jsondd.Unmarshal tmp cd).1 = json.coerce (Blockchain dd)
  ∧ Params (jsondd.Unmarshal tmp cd).1
    = (json.dec_anymap (Params cd) (json.enc_anymap (Params dd))).1.
Proof.
  intros [= <-]. unfold jsondd.Unmarshal, jsondd.into.
  cbn [db.Servers Blockchain Params fst].
  change (json.field "servers" _) with (Some (json.enc_slice json.JNum (db.Servers dd))).
  change (json.field "blockchain" _) with (Some (json.enc_str (Blockchain dd))).
  change (json.field "params" _) with (Some (json.enc_anymap (Params dd))).
  split; [|split]; [|done|done].
  destruct (db.Servers dd) as [l|]; [|done].
  unfold json.enc_slice, json.dec_slice. cbn [fst].
  change (map json.JNum l) with (json.JNum <$> l).
  by rewrite dec_elems_int.
Qed.

Lemma pad_files_spec (n : nat) : ∀ l : list Go.gomap,
  pad_files n (Some l) = Some (l ++ replicate n (Some ∅)).
Proof.
  induction n as [|n IH]; intros l; cbn [pad_files replicate].
  - by rewrite app_nil_r.
  - unfold Go.append. cbn [Go.elems default]. rewrite IH.
    by rewrite <- app_assoc.
Qed.

(** The file list a call leaves behind, from what the old header shows
    once the document has been decoded. *)
Lemma AddDetails_Files_of (tn tn' : TestNet) (dd : DeploymentDetails) (e : Go.error)
    (tmp : json.Json) :
  jsondd.Marshal dd = inl tmp →
  AddDetails tn dd = Go.Ret (tn', e) →
  Files (CombinedDetails tn')
  = if nonempty (Files dd)
    then Some (match jsondd.Files_after tmp (Files (CombinedDetails tn)) with
               | None => replicate (Z.to_nat (db.Nodes (CombinedDetails tn))) None
               | Some l =>
                   l ++ replicate (Z.to_nat (db.Nodes (CombinedDetails tn)
                                             - Z.of_nat (length l))) (Some ∅)
               end ++ Go.elems (Files dd))
    else Files (CombinedDetails tn).
Proof.
  intros [= <-].
  unfold AddDetails, jsondd.Marshal. cbv beta iota zeta.
  change (CombinedDetails (set_LDD (set_Details tn (Details tn ++ [dd])) _))
    with (CombinedDetails tn).
  set (tmp := json.JObj _).
  set (cd0 := (jsondd.Unmarshal _ _).1). clearbody cd0.
  change (Files (set_Files cd0 ?f)) with f.
  unfold mbind, outcome_bind, mret, outcome_ret.
  set (n := db.Nodes (CombinedDetails tn)).
  destruct (nonempty (Files dd)) eqn:Hne.
  - destruct (jsondd.Files_after tmp (Files (CombinedDetails tn))) as [l|] eqn:El;
      cbn [Go.is_nil Go.bind].
    + match goal with |- Go.bind ?m _ = _ → _ =>
        destruct m as [?|images]; [discriminate|] end.
      cbn [Go.bind]. intros [= <- <-].
      cbn [CombinedDetails set_CombinedDetails Files set_Files set_Images db.set_Nodes].
      change (Go.len (Some l)) with (Z.of_nat (length l)).
      destruct (Z.ltb_spec (Z.of_nat (length l)) n) as [Hlt|Hge].
      * rewrite pad_files_spec, foldl_append. done.
      * rewrite foldl_append. replace (Z.to_nat _) with 0%nat by lia.
        cbn [replicate]. by rewrite app_nil_r.
    + unfold Go.make.
      destruct ((n <? 0) || (Go.maxAlloc <? Go.sizeof_map * n)) eqn:Hbad;
        cbn [Go.bind]; [discriminate|].
      apply orb_false_iff in Hbad as [Hpos%Z.ltb_ge _].
      match goal with |- Go.bind ?m _ = _ → _ =>
        destruct m as [?|images]; [discriminate|] end.
      cbn [Go.bind]. intros [= <- <-].
      cbn [CombinedDetails set_CombinedDetails Files set_Files set_Images db.set_Nodes].
      change (Go.len (Some (replicate (Z.to_nat n) (None : Go.gomap))))
        with (Z.of_nat (length (replicate (Z.to_nat n) (None : Go.gomap)))).
      rewrite length_replicate.
      destruct (Z.ltb_spec (Z.of_nat (Z.to_nat n)) n) as [Hlt|Hge]; [lia|].
      by rewrite foldl_append.
  - cbn [Go.bind].
    match goal with |- Go.bind ?m _ = _ → _ =>
      destruct m as [?|images]; [discriminate|] end.
    cbn [Go.bind]. intros [= <- <-].
    cbn [CombinedDetails set_CombinedDetails Files set_Files set_Images db.set_Nodes].
    unfold nonempty in Hne. subst tmp. unfold jsondd.Files_after.
    change (json.field "files" _) with (Some (json.enc_slice json.enc_strmap (Files dd))).
    destruct (Files dd) as [[|f fs]|]; cbn in Hne |- *; try done.
    by destruct (Files (CombinedDetails tn)) as [[|o olds]|].
Qed.

(** A call that makes the file list anew has a node count [make] took. *)
Lemma AddDetails_made (tn tn' : TestNet) (dd : DeploymentDetails) (e : Go.error) :
  AddDetails tn dd = Go.Ret (tn', e) →
  nonempty (Files dd) = true →
  Files (CombinedDetails tn) = None →
  0 ≤ db.Nodes (CombinedDetails tn).
Proof.
  unfold AddDetails, jsondd.Marshal. cbv beta iota zeta.
  change (CombinedDetails (set_LDD (set_Details tn (Details tn ++ [dd])) _))
    with (CombinedDetails tn).
  set (tmp := json.JObj _).
  set (cd0 := (jsondd.Unmarshal _ _).1). clearbody cd0.
  change (Files (set_Files cd0 ?f)) with f.
  intros Hret Hne Hnil. revert Hret. rewrite Hne, Hnil.
  assert (Hfa : jsondd.Files_after tmp None = None).
  { pose proof (length_Files_after tmp None) as [_ H].
    by destruct (jsondd.Files_after tmp None). }
  rewrite Hfa. unfold Go.make.
  destruct (Z.ltb_spec (db.Nodes (CombinedDetails tn)) 0); [discriminate|lia].
Qed.

(** The fields a call takes over from the document. *)
Lemma AddDetails_fields_of (tn tn' : TestNet) (dd : DeploymentDetails) (e : Go.error) :
  AddDetails tn dd = Go.Ret (tn', e) →
  db.Servers (CombinedDetails tn') = db.Servers dd
  ∧ Blockchain (CombinedDetails tn') = json.coerce (Blockchain dd)
  ∧ Params (CombinedDetails tn')
    = (json.dec_anymap (Params (CombinedDetails tn)) (json.enc_anymap (Params dd))).1
  ∧ (nonempty (Images dd) = false → Images (CombinedDetails tn') = Images dd).
Proof.
  pose proof (Unmarshal_fields dd (CombinedDetails tn) _ eq_refl) as (HS & HB & HP).
  pose proof (Unmarshal_Images dd (CombinedDetails tn) _ eq_refl) as HI.
  unfold AddDetails, jsondd.Marshal. cbv beta iota zeta.
  change (CombinedDetails (set_LDD (set_Details tn (Details tn ++ [dd])) _))
    with (CombinedDetails tn).
  set (cd0 := (jsondd.Unmarshal _ _).1) in *. clearbody cd0.
  unfold mbind, outcome_bind, mret, outcome_ret.
  match goal with |- Go.bind ?m _ = _ → _ => destruct m as [?|files]; [discriminate|] end.
  cbn [Go.bind].
  change (Images (db.set_Nodes (set_Files (set_Files cd0 _) files) _)) with (Images cd0).
  destruct (nonempty (Images dd)) eqn:Hne.
  - match goal with |- Go.bind ?m _ = _ → _ =>
      destruct m as [?|images]; [discriminate|] end.
    cbn [Go.bind]. intros [= <- <-]. cbn. by rewrite HS, HB, HP.
  - cbn [Go.bind]. intros [= <- <-]. cbn. rewrite HS, HB, HP, HI.
    repeat split; try done. intros _.
    unfold nonempty, Go.len in Hne.
    destruct (Images dd) as [[|x l]|]; cbn in *; done.
Qed.

End Merge.

(** X20. A call of [AddDetails] that returns leaves the files of the
    combined deployment alone when the new deployment brings none.
    Otherwise the files of the new deployment go behind the old ones and
    start at the old node count - the gap is filled with empty entries - or
    behind the old files when these are more than the old node count. The
    old entries stay in place but not as they were: decoding the document
    of the new deployment into the combined one has stored the entries of
    its [i]-th file map into the [i]-th old one, for every place both
    have (spelled out for file maps of ASCII text, which the document
    carries unchanged). *)
Theorem AddDetails_files_start_at_node_count (tn tn' : testnet.TestNet)
    (dd : db.DeploymentDetails) (e : Go.error) :
  testnet.AddDetails tn dd = Go.Ret (tn', e) →
  let old := testnet.CombinedDetails tn in
  let olds := Go.elems (db.Files old) in
  let news := Go.elems (db.Files dd) in
  (testnet.nonempty (db.Files dd) = false →
   db.Files (testnet.CombinedDetails tn') = db.Files old)
  ∧ (testnet.nonempty (db.Files dd) = true →
     ∃ before,
       db.Files (testnet.CombinedDetails tn') = Some (before ++ news)
       ∧ Z.of_nat (length before) = Z.max (Go.len (db.Files old)) (db.Nodes old)
       ∧ drop (length olds) before
         = replicate (length before - length olds)
             (if Go.is_nil (db.Files old) then None else Some ∅)
       ∧ (Forall json.plain_file news →
          take (length olds) before
          = zip_with (fun o f => (fun m => m ∪ default ∅ o) <$> f) olds news
            ++ drop (length news) olds)).
Proof.
  intros Hret old olds news. subst old olds news.
  pose proof (AddDetails_Files_of tn tn' dd e _ eq_refl Hret) as HF.
  split; intros Hne; rewrite Hne in HF; [done|].
  eexists. split; [exact HF|].
  destruct (db.Files (testnet.CombinedDetails tn)) as [l|] eqn:El.
  - change (Go.elems (Some l)) with l.
    change (Go.len (Some l)) with (Z.of_nat (length l)).
    cbn [Go.is_nil].
    match type of HF with context [jsondd.Files_after ?t _] => set (tmp := t) in * end.
    pose proof (length_Files_after tmp (Some l)) as [Hlen Hnil].
    destruct (jsondd.Files_after tmp (Some l)) as [l'|] eqn:Hafter; [|done].
    assert (Hl : length l' = length l).
    { unfold Go.len in Hlen. cbn in Hlen. lia. }
    rewrite Hl. split; [|split].
    + rewrite length_app, length_replicate. lia.
    + rewrite <- Hl at 1. rewrite drop_app_length.
      f_equal. rewrite length_app, length_replicate. lia.
    + intros Hplain. rewrite <- Hl at 1. rewrite take_app_length.
      rewrite (Files_after_plain dd tmp l eq_refl Hplain) in Hafter.
      by injection Hafter as <-.
  - change (Go.elems None) with (@nil Go.gomap).
    change (Go.len (@None (list Go.gomap))) with 0.
    cbn [Go.is_nil length].
    pose proof (AddDetails_made tn tn' dd e Hret Hne El) as Hpos.
    match type of HF with context [jsondd.Files_after ?t _] => set (tmp := t) in * end.
    pose proof (length_Files_after tmp None) as [_ Hnil].
    destruct (jsondd.Files_after tmp None) as [l'|]; [done|].
    rewrite length_replicate, drop_0, Nat.sub_0_r.
    split; [lia|]. split; [done|]. intros _.
    by rewrite take_0, drop_nil.
Qed.

Lemma AddDetails_files_start_at_node_count_witness :
  ∃ tn0 tn',
    testnet.NewTestNet samples.env0 samples.dd_first "build" = inl tn0
    ∧ testnet.AddDetails tn0 samples.dd_second = Go.Ret (tn', None)
    ∧ ∃ before,
        db.Files (testnet.CombinedDetails tn')
        = Some (before ++ [Some {[ "b" := "B" ]}])
        ∧ Z.of_nat (length before) = 2
        ∧ drop 1 before = replicate (length before - 1) (Some ∅)
        ∧ take 1 before = [Some ({[ "b" := "B" ]} ∪ {[ "a" := "A" ]})].
Proof.
  eexists _, _. split; [reflexivity|].
  match goal with |- testnet.AddDetails ?t _ = _ ∧ _ => set (tn0 := t) end.
  split; [reflexivity|].
  destruct (proj2 (AddDetails_files_start_at_node_count tn0 _ samples.dd_second None eq_refl)
              eq_refl) as (before & HF & Hlen & Hdrop & Htake).
  exists before. split; [exact HF|]. split; [exact Hlen|]. split; [exact Hdrop|].
  apply Htake.
  change (Forall json.plain_file [Some ({[ "b" := "B" ]} : gmap string string)]).
  constructor; [|constructor].
  intros k v [<- <-]%lookup_singleton_Some. done.
Defined.

(** X21. A call of [AddDetails] that returns has taken the servers of the
    new deployment into the combined one, and its blockchain as the
    document carries it: bytes that are no UTF-8 replaced by U+FFFD, ASCII
    text as it is. The combined deployment has no parameters left when the
    new one has none; otherwise it keeps the old ones that the new ones do
    not replace, and the new ones come back as untyped values, a number as
    a [float64] (spelled out for ASCII keys). When the new deployment
    names no image, the combined deployment has none left. *)
Theorem AddDetails_takes_over_fields (tn tn' : testnet.TestNet)
    (dd : db.DeploymentDetails) (e : Go.error) :
  testnet.AddDetails tn dd = Go.Ret (tn', e) →
  let old := testnet.CombinedDetails tn in
  let new := testnet.CombinedDetails tn' in
  db.Servers new = db.Servers dd
  ∧ db.Blockchain new = json.coerce (db.Blockchain dd)
  ∧ (json.plain (db.Blockchain dd) = true → db.Blockchain new = db.Blockchain dd)
  ∧ (db.Params dd = None → db.Params new = None)
  ∧ (∀ m, db.Params dd = Some m →
          map_Forall (fun k _ => json.plain k = true) m →
          db.Params new = Some ((json.generic <$> m) ∪ default ∅ (db.Params old)))
  ∧ (testnet.nonempty (db.Images dd) = false →
     db.Images new = db.Images dd ∧ Go.elems (db.Images new) = []).
Proof.
  intros Hret old new.
  destruct (AddDetails_fields_of tn tn' dd e Hret) as (HS & HB & HP & HI).
  split; [done|]. split; [done|]. split; [|split; [|split]].
  - intros Hplain. unfold new. by rewrite HB, coerce_plain.
  - intros Hnone. unfold new. by rewrite HP, Hnone.
  - intros m Hm Hplain. unfold new. rewrite HP, Hm. by apply dec_anymap_plain.
  - intros Hne. split; [by apply HI|]. unfold new. rewrite (HI Hne).
    unfold testnet.nonempty, Go.len in Hne.
    destruct (db.Images dd) as [[|x l]|]; cbn in *; done.
Qed.

Lemma AddDetails_takes_over_fields_witness :
  ∃ tn',
    testnet.AddDetails samples.tn_one samples.dd_second = Go.Ret (tn', None)
    ∧ db.Servers (testnet.CombinedDetails tn') = Some [1]
    ∧ db.Blockchain (testnet.CombinedDetails tn') = "tendermint".
Proof.
  eexists. split; [reflexivity|].
  pose proof (AddDetails_takes_over_fields samples.tn_one _ samples.dd_second None eq_refl)
    as (HS & _ & HB & _).
  split; [exact HS|exact (HB eq_refl)].
Defined.

(** ** helpers: what the workers report *)

Section Workers.
Import db helpers.
Context {C : Type}.
Variable clients : list C.
Variable dest : string.
Variable fn : nat → nat → nat → string + string.
Variable cp : C → nat → string → Go.error.

Lemma worker_build (c : call) (s : shared unit unit) :
  (serverNum c < length clients)%nat →
  ∃ s', worker clients dest (stateless fn) (answering cp) c s = (Go.Ret tt, s')
        ∧ state.ErrorVal (build s')
          = match outcome_of fn cp clients c with
            | Some err => Some err
            | None => state.ErrorVal (build s)
            end.
Proof.
  intros Hc. unfold worker, outcome_of, stateless, answering. cbv zeta. cbn [fst snd].
  destruct (fn _ _ _) as [data|err]; [|by eexists].
  destruct (lookup_lt_is_Some_2 clients (serverNum c) Hc) as [client ->].
  destruct (cp client _ data); by eexists.
Qed.

(** After the workers of [order] the build is without error exactly when
    it was before and each of them succeeded; an error it has is its own
    or that of a worker. *)
Lemma workers_build (order : list call) : ∀ s : shared unit unit,
  Forall (fun c => (serverNum c < length clients)%nat) order →
  ∃ s', workers clients dest (stateless fn) (answering cp) order s = (Go.Ret tt, s')
        ∧ (state.ErrorVal (build s') = None
           ↔ state.ErrorVal (build s) = None
             ∧ Forall (fun c => outcome_of fn cp clients c = None) order)
        ∧ (∀ err, state.ErrorVal (build s') = Some err →
                  state.ErrorVal (build s) = Some err
                  ∨ ∃ c, c ∈ order ∧ outcome_of fn cp clients c = Some err).
Proof.
  intros s Hin. revert s.
  induction Hin as [|c rest Hc _ IH]; intros s; cbn [workers].
  - exists s. split; [done|]. split; [|by left]. split; [by split|by intros [? _]].
  - destruct (worker_build c s Hc) as (s1 & -> & H1).
    destruct (IH s1) as (s' & -> & IHn & IHe).
    exists s'. split; [done|]. rewrite H1 in IHn, IHe. split.
    + rewrite IHn, Forall_cons.
      destruct (outcome_of fn cp clients c); [|tauto].
      split; [by intros [? _]|by intros (_ & ? & _)].
    + intros err He. destruct (IHe err He) as [H|(c' & Hin' & Hc')].
      * destruct (outcome_of fn cp clients c) as [e|] eqn:Ec; [|by left].
        right. exists c. split; [apply list_elem_of_here|]. congruence.
      * right. exists c'. split; [by apply list_elem_of_further|done].
Qed.

End Workers.

(** X22. With a client for every server, a callback and a copy that keep
    no state, [CreateConfigs] returns, and it returns nil exactly when the
    build had no error and every worker - the call of [fn] and the copy of
    what it built through the client of the server - succeeded, in whatever
    order the workers run; an error it returns is the one the build had or
    the one of a worker. *)
Theorem CreateConfigs_error_is_a_worker_error {C : Type} (servers : list db.Server)
    (clients : list C) (dest : string)
    (fn : nat → nat → nat → string + string) (cp : C → nat → string → Go.error)
    (sched : list helpers.call → list helpers.call) (bs : state.BuildState) :
  sched (helpers.spawned servers) ≡ₚ helpers.spawned servers →
  (length servers ≤ length clients)%nat →
  ∃ err,
    (helpers.CreateConfigs clients dest (helpers.stateless fn) (helpers.answering cp)
       servers bs sched tt tt).1 = Go.Ret err
    ∧ (err = None
       ↔ state.GetError bs = None
         ∧ Forall (fun c => helpers.outcome_of fn cp clients c = None)
                  (helpers.spawned servers))
    ∧ (∀ e, err = Some e →
            state.GetError bs = Some e
            ∨ ∃ c, c ∈ helpers.spawned servers
                   ∧ helpers.outcome_of fn cp clients c = Some e).
Proof.
  intros Hperm Hclients. unfold helpers.CreateConfigs, state.GetError.
  destruct (workers_build clients dest fn cp (sched (helpers.spawned servers))
              (helpers.mkShared bs tt tt)) as (s' & -> & Hn & He).
  { rewrite Hperm. eapply Forall_impl; [apply spawned_serverNum|].
    cbn. intros c Hc. lia. }
  cbn [helpers.build fst] in *. eexists. split; [done|]. split.
  - rewrite Hn. by rewrite Hperm.
  - intros err H. destruct (He err H) as [|(c & Hin & Hc)]; [by left|].
    right. exists c. split; [|done]. by rewrite <- Hperm.
Qed.

Lemma CreateConfigs_error_is_a_worker_error_witness :
  ∃ err,
    (helpers.CreateConfigs [1; 2] "/config.toml"
       (helpers.stateless (fun _ _ _ => inl "config"))
       (helpers.answering (fun _ _ _ => None))
       samples.servers_e1 samples.bs0 (fun l => reverse l) tt tt).1 = Go.Ret err
    ∧ (err = None
       ↔ state.GetError samples.bs0 = None
         ∧ Forall (fun c => helpers.outcome_of (fun _ _ _ => inl "config")
                              (fun _ _ _ => None) [1; 2] c = None)
                  (helpers.spawned samples.servers_e1))
    ∧ (∀ e, err = Some e →
            state.GetError samples.bs0 = Some e
            ∨ ∃ c, c ∈ helpers.spawned samples.servers_e1
                   ∧ helpers.outcome_of (fun _ _ _ => inl "config")
                       (fun _ _ _ => None) [1; 2] c = Some e).
Proof.
  apply (CreateConfigs_error_is_a_worker_error samples.servers_e1 [1; 2] "/config.toml"
           (fun _ _ _ => inl "config") (fun _ _ _ => None) (fun l => reverse l)
           samples.bs0).
  - apply reverse_Permutation.
  - cbn. lia.
Defined.

Section Copies.
Import helpers.

Lemma list_ind2 {A} (P : list A → Prop) :
  P [] → (∀ a, P [a]) → (∀ a b l, P l → P (a :: b :: l)) → ∀ l, P l.
Proof.
  intros H0 H1 H2. fix IH 1. intros [|a [|b l]]; [done|done|].
  apply H2, IH.
Qed.

Lemma half_length_cons2 {A} (a b : A) (l : list A) :
  (length (a :: b :: l) / 2 = S (length l / 2))%nat.
Proof.
  cbn [length]. replace (S (S (length l))) with (1 * 2 + length l)%nat by lia.
  rewrite Nat.div_add_l by lia. lia.
Qed.

(** Read two by two, the arguments are the pairs the workers index. *)
Lemma pairs_of_seq (srcDst : list string) :
  pairs_of srcDst
  = (fun j => (default EmptyString (srcDst !! (2 * j)%nat), default EmptyString (srcDst !! (2 * j + 1)%nat)))
      <$> seq 0 (length srcDst / 2).
Proof.
  induction srcDst as [|a|a b l IH] using list_ind2; [done|done|].
  rewrite half_length_cons2. cbn [pairs_of seq fmap list_fmap].
  f_equal. rewrite IH, <- fmap_S_seq, <- list_fmap_compose.
  apply list_fmap_ext. intros _ j _. cbn [compose].
  replace (2 * S j)%nat with (S (S (2 * j))) by lia.
  replace (S (S (2 * j)) + 1)%nat with (S (S (2 * j + 1))) by lia.
  done.
Qed.

Lemma asked_copies (clients : nat) (srcDst : list string) :
  asked srcDst <$> copies clients srcDst
  = flat_map (fun i => (fun p => (i, p.1, p.2)) <$> pairs_of srcDst) (seq 0 clients).
Proof.
  unfold copies. induction (seq 0 clients) as [|i rest IH]; [done|].
  cbn [flat_map]. rewrite fmap_app, IH. f_equal.
  rewrite pairs_of_seq, <- !list_fmap_compose. done.
Qed.

Lemma copies_in_range (clients : nat) (srcDst : list string) :
  Forall (fun c => (client c < clients)%nat ∧ (pair c < length srcDst / 2)%nat)
         (copies clients srcDst).
Proof.
  unfold copies. apply Forall_forall. intros c Hc.
  apply list_elem_of_In, in_flat_map in Hc as (i & Hi & Hc).
  apply in_map_iff in Hc as (j & <- & Hj). apply in_seq in Hj, Hi. cbn [pair client]. lia.
Qed.

(** What [Scp] answers does not depend on what was asked of the host
    before, and it leaves the host as it is but for the trace. *)
Lemma Scp_at_start (CopyPath : string → string → Go.error) (src dst : string)
    (w : ssh.World) :
  (ssh.Scp CopyPath src dst w).1 = (ssh.Scp CopyPath src dst (ssh.at_start w)).1
  ∧ ssh.at_start (ssh.Scp CopyPath src dst w).2 = ssh.at_start w.
Proof.
  unfold ssh.Scp, ssh.scp_source.
  change (ssh.bs (ssh.at_start w)) with (ssh.bs w).
  match goal with |- context [match ?m with Go.Panic _ => _ | Go.Ret _ => _ end] =>
    destruct m as [msg|p] end; [done|].
  unfold ssh.InternalScp, ssh.getSession.
  change (ssh.session_err (ssh.at_start w)) with (ssh.session_err w).
  by destruct (ssh.session_err w).
Qed.

(** [Scp] panics on the empty source only. *)
Lemma Scp_returns (CopyPath : string → string → Go.error) (src dst : string)
    (w : ssh.World) :
  src ≠ EmptyString → ∃ e, (ssh.Scp CopyPath src dst w).1 = Go.Ret e.
Proof.
  intros Hne. unfold ssh.Scp, ssh.scp_source.
  assert (∃ p, (if negb (Go.HasPrefix src "./")
                then match src with
                     | EmptyString => Go.Panic "index out of range"
                     | String c _ =>
                         if negb (Ascii.eqb c "/"%char)
                         then mret ("/tmp/" +:+ state.BuildID (ssh.bs w) +:+ "/" +:+ src)
                         else mret src
                     end
                else mret src) = Go.Ret p) as [p ->].
  { destruct (Go.HasPrefix src "./"); cbn [negb]; [by eexists|].
    destruct src as [|c src']; [done|].
    destruct (negb (Ascii.eqb c "/")); by eexists. }
  unfold ssh.InternalScp, ssh.getSession.
  destruct (ssh.session_err w); cbn; by eexists.
Qed.

Section Worker.
Variable clients : list ssh.World.
Variable CopyPath : nat → string → string → Go.error.
Variable srcDst : list string.

Lemma same_hosts_lookup (s : copying) (i : nat) :
  same_hosts clients s → (i < length clients)%nat →
  ∃ w w0, hosts s !! i = Some w ∧ clients !! i = Some w0
          ∧ ssh.at_start w = ssh.at_start w0.
Proof.
  intros Hs Hi.
  destruct (lookup_lt_is_Some_2 clients i Hi) as [w0 H0].
  assert (Hlen : length (hosts s) = length clients).
  { by rewrite <- (length_fmap ssh.at_start), Hs, length_fmap. }
  destruct (lookup_lt_is_Some_2 (hosts s) i ltac:(lia)) as [w Hw].
  exists w, w0. split; [done|]. split; [done|].
  assert (H : (ssh.at_start <$> hosts s) !! i = (ssh.at_start <$> clients) !! i)
    by (by rewrite Hs).
  rewrite !list_lookup_fmap, Hw, H0 in H. cbn in H. congruence.
Qed.

(** A worker whose client and pair are those of the call, on a source
    that is not empty. *)
Lemma copy_worker_in_range (c : copy) (s : copying) :
  same_hosts clients s →
  (client c < length clients)%nat → (pair c < length srcDst / 2)%nat →
  (asked srcDst c).1.2 ≠ EmptyString →
  ∃ s', copy_worker CopyPath srcDst c s = (Go.Ret tt, s')
        ∧ same_hosts clients s'
        ∧ deferred s' = deferred s ++ [(client c, 2 * pair c + 1)%nat]
        ∧ scps s' = scps s ++ [asked srcDst c]
        ∧ state.ErrorVal (cbuild s')
          = match scp_error CopyPath clients (asked srcDst c) with
            | Some err => Some err
            | None => state.ErrorVal (cbuild s)
            end.
Proof.
  intros Hs Hi Hj Hne.
  pose proof (Nat.Div0.mul_div_le (length srcDst) 2) as Hle.
  destruct (lookup_lt_is_Some_2 srcDst (2 * pair c) ltac:(lia)) as [src Hsrc].
  destruct (lookup_lt_is_Some_2 srcDst (2 * pair c + 1) ltac:(lia)) as [dst Hdst].
  destruct (same_hosts_lookup s (client c) Hs Hi) as (w & w0 & Hw & H0 & Hww).
  unfold asked in *. rewrite Hsrc, Hdst in *. cbn [default fst snd] in *.
  unfold id in *. unfold copy_worker, scp_error. cbv zeta. cbn [hosts fst snd].
  rewrite Hw, Hsrc, Hdst, H0.
  destruct (Scp_at_start (CopyPath (client c)) src dst w) as [Hr Hw'].
  destruct (Scp_at_start (CopyPath (client c)) src dst w0) as [Hr0 _].
  rewrite Hww, <- Hr0 in Hr. rewrite <- Hr.
  destruct (Scp_returns (CopyPath (client c)) src dst w Hne) as [e He].
  assert (Hsame : ∀ b d p, same_hosts clients
            (mkCopying b d p
               (<[client c := (ssh.Scp (CopyPath (client c)) src dst w).2]> (hosts s)))).
  { intros b d p. unfold same_hosts. cbn [hosts].
    rewrite list_fmap_insert, Hw', <- Hs.
    apply list_insert_id. by rewrite list_lookup_fmap, Hw. }
  rewrite He. destruct e as [err|]; eexists; (split; [reflexivity|]);
    (split; [apply Hsame|]); done.
Qed.

(** A worker on an empty source panics in [Scp]. *)
Lemma copy_worker_empty_source (c : copy) (s : copying) :
  same_hosts clients s →
  (client c < length clients)%nat → (pair c < length srcDst / 2)%nat →
  (asked srcDst c).1.2 = EmptyString →
  (copy_worker CopyPath srcDst c s).1 = Go.Panic "index out of range".
Proof.
  intros Hs Hi Hj He.
  pose proof (Nat.Div0.mul_div_le (length srcDst) 2) as Hle.
  destruct (lookup_lt_is_Some_2 srcDst (2 * pair c) ltac:(lia)) as [src Hsrc].
  destruct (lookup_lt_is_Some_2 srcDst (2 * pair c + 1) ltac:(lia)) as [dst Hdst].
  destruct (same_hosts_lookup s (client c) Hs Hi) as (w & w0 & Hw & _).
  unfold asked in He. rewrite Hsrc in He. cbn in He. subst src.
  unfold copy_worker. cbv zeta. cbn [hosts]. by rewrite Hw, Hsrc, Hdst.
Qed.

Lemma copy_workers_in_range (order : list copy) : ∀ s : copying,
  same_hosts clients s →
  Forall (fun c => (client c < length clients)%nat ∧ (pair c < length srcDst / 2)%nat)
         order →
  Forall (fun c => (asked srcDst c).1.2 ≠ EmptyString) order →
  ∃ s', copy_workers CopyPath srcDst order s = (Go.Ret tt, s')
        ∧ deferred s' = deferred s ++ ((fun c => (client c, 2 * pair c + 1)%nat) <$> order)
        ∧ scps s' = scps s ++ (asked srcDst <$> order)
        ∧ (state.ErrorVal (cbuild s') = None
           ↔ state.ErrorVal (cbuild s) = None
             ∧ Forall (fun a => scp_error CopyPath clients a = None)
                      (asked srcDst <$> order)).
Proof.
  induction order as [|c rest IH]; intros s Hs Hr Hne; cbn [copy_workers fmap list_fmap].
  - exists s. rewrite !app_nil_r. split; [done|]. split; [done|]. split; [done|].
    split; [by split|by intros [? _]].
  - apply Forall_cons in Hr as [[Hi Hj] Hr]. apply Forall_cons in Hne as [Hc Hne].
    destruct (copy_worker_in_range c s Hs Hi Hj Hc) as (s1 & -> & Hs1 & Hd1 & Hp1 & He1).
    destruct (IH s1 Hs1 Hr Hne) as (s' & -> & Hd & Hp & He).
    exists s'. split; [done|]. rewrite Hd, Hp, Hd1, Hp1, <- !app_assoc.
    split; [done|]. split; [done|].
    rewrite He, He1, Forall_cons.
    destruct (scp_error _ _ _); [|tauto].
    split; [by intros [? _]|by intros (_ & ? & _)].
Qed.

Lemma copy_workers_empty_source (order : list copy) : ∀ s : copying,
  same_hosts clients s →
  Forall (fun c => (client c < length clients)%nat ∧ (pair c < length srcDst / 2)%nat)
         order →
  Exists (fun c => (asked srcDst c).1.2 = EmptyString) order →
  (copy_workers CopyPath srcDst order s).1 = Go.Panic "index out of range".
Proof.
  induction order as [|c rest IH]; intros s Hs Hr Hex; [by apply Exists_nil in Hex|].
  apply Forall_cons in Hr as [[Hi Hj] Hr]. cbn [copy_workers].
  destruct (decide ((asked srcDst c).1.2 = EmptyString)) as [He|Hne].
  - pose proof (copy_worker_empty_source c s Hs Hi Hj He) as Hp.
    destruct (copy_worker CopyPath srcDst c s) as [[msg|u] s1]; cbn in Hp; by subst.
  - destruct (copy_worker_in_range c s Hs Hi Hj Hne) as (s1 & -> & Hs1 & _).
    apply IH; [done|done|].
    apply Exists_cons in Hex as [|]; done.
Qed.

End Worker.

End Copies.

(** X23. [CopyAllToServers] refuses an odd number of paths before it
    does anything. With an even number, in whatever order the workers run,
    no worker leaves the bounds of the arguments. When no source path is
    empty, every client is asked to copy every pair of source and
    destination once, a clean-up is registered for every copy, failed or
    not, and the error returned is nil exactly when the build had none and
    [Scp] succeeded for every pair on every client. When a source path is
    empty and there is a client, the worker that comes to it panics in
    [Scp], and with it the call. *)
Theorem CopyAllToServers_copies_every_pair (clients : list ssh.World)
    (CopyPath : nat → string → string → Go.error)
    (sched : list helpers.copy → list helpers.copy) (bs : state.BuildState)
    (srcDst : list string) :
  (Nat.Odd (length srcDst) →
   helpers.CopyAllToServers clients CopyPath sched bs srcDst
   = (Go.Ret (Some "Invalid number of variadic arguments, must be given an even number of them"),
      helpers.mkCopying bs [] [] clients))
  ∧ (Nat.Even (length srcDst) →
     sched (helpers.copies (length clients) srcDst)
       ≡ₚ helpers.copies (length clients) srcDst →
     (Forall (fun p => p.1 ≠ EmptyString) (helpers.pairs_of srcDst) →
      ∃ s,
        helpers.CopyAllToServers clients CopyPath sched bs srcDst
        = (Go.Ret (state.GetError (helpers.cbuild s)), s)
        ∧ helpers.scps s
          ≡ₚ flat_map (fun i => (fun p => (i, p.1, p.2)) <$> helpers.pairs_of srcDst)
                      (seq 0 (length clients))
        ∧ length (helpers.deferred s)
          = (length clients * length (helpers.pairs_of srcDst))%nat
        ∧ (state.GetError (helpers.cbuild s) = None
           ↔ state.GetError bs = None
             ∧ ∀ i w p, clients !! i = Some w → p ∈ helpers.pairs_of srcDst →
                        (ssh.Scp (CopyPath i) p.1 p.2 w).1 = Go.Ret None))
     ∧ (clients ≠ [] → Exists (fun p => p.1 = EmptyString) (helpers.pairs_of srcDst) →
        (helpers.CopyAllToServers clients CopyPath sched bs srcDst).1
        = Go.Panic "index out of range")).
Proof.
  unfold helpers.CopyAllToServers. split.
  - intros [m Hm]. rewrite Hm.
    replace (2 * m + 1)%nat with (1 + m * 2)%nat by lia.
    by rewrite Nat.Div0.mod_add.
  - intros [m Hm] Hperm.
    replace (length srcDst mod 2)%nat with 0%nat.
    2: { rewrite Hm. replace (2 * m)%nat with (0 + m * 2)%nat by lia.
         by rewrite Nat.Div0.mod_add. }
    cbn [negb Nat.eqb].
    assert (Hs0 : helpers.same_hosts clients (helpers.mkCopying bs [] [] clients)) by done.
    assert (Hrange : Forall (fun c => (helpers.client c < length clients)%nat
                                      ∧ (helpers.pair c < length srcDst / 2)%nat)
                       (sched (helpers.copies (length clients) srcDst))).
    { rewrite Hperm. apply copies_in_range. }
    assert (Hasked : ∀ c, c ∈ helpers.copies (length clients) srcDst →
                          ((helpers.asked srcDst c).1.2, (helpers.asked srcDst c).2)
                          ∈ helpers.pairs_of srcDst).
    { intros c Hc.
      assert (Ha : helpers.asked srcDst c
                   ∈ helpers.asked srcDst <$> helpers.copies (length clients) srcDst)
        by (apply list_elem_of_fmap; eauto).
      rewrite asked_copies in Ha.
      apply list_elem_of_In, in_flat_map in Ha as (i & _ & Ha).
      apply list_elem_of_In, list_elem_of_fmap in Ha as ([src dst] & -> & Hp). done. }
    split.
    + intros Hne.
      destruct (copy_workers_in_range clients CopyPath srcDst
                  (sched (helpers.copies (length clients) srcDst))
                  (helpers.mkCopying bs [] [] clients) Hs0 Hrange)
        as (s & -> & Hd & Hs & He).
      { rewrite Hperm. apply Forall_forall. intros c Hc.
        rewrite Forall_forall in Hne. apply (Hne _ (Hasked c Hc)). }
      cbn [helpers.deferred helpers.scps helpers.cbuild app] in Hd, Hs, He.
      exists s. split; [done|]. split; [|split].
      * rewrite Hs, Hperm, asked_copies. done.
      * rewrite Hd, length_fmap, Hperm.
        rewrite <- (length_fmap (helpers.asked srcDst)), asked_copies.
        assert (Hlen : ∀ l : list nat,
                  length (flat_map (fun i => (fun p => (i, p.1, p.2))
                                               <$> helpers.pairs_of srcDst) l)
                  = (length l * length (helpers.pairs_of srcDst))%nat).
        { induction l as [|i rest IH]; [done|].
          cbn [flat_map length]. rewrite length_app, length_fmap, IH. lia. }
        by rewrite Hlen, length_seq.
      * unfold state.GetError. rewrite He, Hperm, asked_copies, Forall_forall.
        split; intros [Hbs Hall]; (split; [done|]).
        -- intros i w p Hi Hp.
           assert (Hin : (i, p.1, p.2)
                         ∈ flat_map (fun i => (fun p => (i, p.1, p.2))
                                                <$> helpers.pairs_of srcDst)
                                    (seq 0 (length clients))).
           { apply list_elem_of_In, in_flat_map. exists i. split.
             - apply in_seq. apply lookup_lt_Some in Hi. lia.
             - apply list_elem_of_In, list_elem_of_fmap. eauto. }
           specialize (Hall _ Hin). unfold helpers.scp_error in Hall.
           cbn [fst snd] in Hall. rewrite Hi in Hall.
           assert (Hp1 : p.1 ≠ EmptyString).
           { rewrite Forall_forall in Hne. by apply Hne. }
           destruct (Scp_returns (CopyPath i) p.1 p.2 w Hp1) as [e Hret].
           rewrite Hret in Hall |- *. by destruct e.
        -- intros a Ha. apply list_elem_of_In, in_flat_map in Ha as (i & Hi & Ha).
           apply list_elem_of_In, list_elem_of_fmap in Ha as (p & -> & Hp).
           apply in_seq in Hi. unfold helpers.scp_error. cbn [fst snd].
           destruct (clients !! i) as [w|] eqn:Hw; [|done].
           by rewrite (Hall i w p Hw Hp).
    + intros Hclients Hex.
      pose proof (copy_workers_empty_source clients CopyPath srcDst
                    (sched (helpers.copies (length clients) srcDst))
                    (helpers.mkCopying bs [] [] clients) Hs0 Hrange) as Hp.
      assert (Hex' : Exists (fun c => (helpers.asked srcDst c).1.2 = EmptyString)
                       (sched (helpers.copies (length clients) srcDst))).
      { apply Exists_exists in Hex as ([src dst] & Hin & Hsrc). cbn in Hsrc. subst src.
        assert (Ha : (0%nat, EmptyString, dst)
                     ∈ helpers.asked srcDst <$> helpers.copies (length clients) srcDst).
        { rewrite asked_copies. apply list_elem_of_In, in_flat_map. exists 0%nat. split.
          - apply in_seq. destruct clients; [done|]. cbn. lia.
          - apply list_elem_of_In, list_elem_of_fmap. by exists (EmptyString, dst). }
        apply list_elem_of_fmap in Ha as (c & Hc & Hin').
        apply Exists_exists. exists c. split; [by rewrite Hperm|].
        by rewrite <- Hc. }
      specialize (Hp Hex').
      destruct (helpers.copy_workers _ _ _ _) as [[msg|u] s]; cbn [fst] in *;
        [by injection Hp as ->|discriminate].
Qed.

Lemma CopyAllToServers_copies_every_pair_witness :
  (∃ s,
     helpers.CopyToServers [samples.world0; samples.world0] (fun _ _ _ => None)
       (fun l => reverse l) samples.bs0 "genesis.json" "/home/appo/genesis.json"
     = (Go.Ret (state.GetError (helpers.cbuild s)), s)
     ∧ helpers.scps s
       ≡ₚ [(0%nat, "genesis.json", "/home/appo/genesis.json");
           (1%nat, "genesis.json", "/home/appo/genesis.json")]
     ∧ length (helpers.deferred s) = 2%nat)
  ∧ (helpers.CopyToServers [samples.world0; samples.world0] (fun _ _ _ => None)
       (fun l => reverse l) samples.bs0 EmptyString "/home/appo/genesis.json").1
    = Go.Panic "index out of range".
Proof.
  split.
  - destruct (proj1 (proj2 (CopyAllToServers_copies_every_pair
                              [samples.world0; samples.world0] (fun _ _ _ => None)
                              (fun l => reverse l) samples.bs0
                              ["genesis.json"; "/home/appo/genesis.json"])
                      (ex_intro _ 1%nat eq_refl) (reverse_Permutation _)))
      as (s & E & Hs & Hd & _).
    + repeat constructor. discriminate.
    + exists s. split; [exact E|]. split; [exact Hs|exact Hd].
  - apply (proj2 (proj2 (CopyAllToServers_copies_every_pair
                           [samples.world0; samples.world0] (fun _ _ _ => None)
                           (fun l => reverse l) samples.bs0
                           [EmptyString; "/home/appo/genesis.json"])
                   (ex_intro _ 1%nat eq_refl) (reverse_Permutation _))).
    + discriminate.
    + by constructor.
Defined.

(** ** The start stage of tendermint.Build, in any order *)

Section StartStageInvariants.
Import tendermint.

(** One worker on the shared [peers], whatever the workers before it
    have left there: it is handed the peers without the one at its own
    index, and leaves them moved down by one behind that index, the last
    one standing twice. *)
Lemma persistent_peers_spec (p : peers_t) (i : nat) :
  (plen p ≤ length (array p))%nat → (i < plen p)%nat →
  persistent_peers p i
  = Go.Ret (without_self (harvested p) i,
            mkPeers (without_self (harvested p) i ++ drop (plen p - 1) (array p))
                    (plen p)).
Proof.
  intros Hcap Hi. unfold persistent_peers, Go.slice_to, Go.slice_from.
  cbn [Go.off Go.wlen].
  rewrite decide_True by lia. rewrite decide_True by lia.
  unfold mbind, outcome_bind. cbn [Go.bind].
  unfold Go.append_all, without_self, harvested, Go.view. cbn [Go.off Go.wlen].
  cbn [Nat.add]. rewrite !drop_0.
  assert (Hhead : take i (array p) = take i (take (plen p) (array p))).
  { rewrite take_take. f_equal. lia. }
  assert (Htail : take (plen p - (i + 1)) (drop (i + 1) (array p))
                  = drop (S i) (take (plen p) (array p))).
  { rewrite Nat.add_1_r, take_drop_commute. do 2 f_equal. lia. }
  rewrite Htail, <- Hhead.
  rewrite decide_True by (rewrite length_drop, length_take; lia).
  unfold mret, outcome_ret. cbn [fst snd].
  rewrite length_drop, length_take, <- app_assoc.
  by replace (i + (plen p `min` length (array p) - S i))%nat
       with (plen p - 1)%nat by lia.
Qed.

Lemma length_without_self (l : list string) (i : nat) :
  (i < length l)%nat → length (without_self l i) = (length l - 1)%nat.
Proof.
  intros Hi. unfold without_self. rewrite length_app, length_take, length_drop. lia.
Qed.

Lemma without_self_subseteq (l : list string) (i : nat) (x : string) :
  x ∈ without_self l i → x ∈ l.
Proof.
  unfold without_self. rewrite elem_of_app. intros [H|H].
  - by apply (subseteq_take i l).
  - by apply (subseteq_drop (S i) l).
Qed.

(** What a worker leaves: as many peers as before, none that was not
    there. *)
Lemma persistent_peers_keeps (p p' : peers_t) (i : nat) (r : list string) :
  (plen p ≤ length (array p))%nat → (i < plen p)%nat →
  persistent_peers p i = Go.Ret (r, p') →
  r = without_self (harvested p) i
  ∧ plen p' = plen p
  ∧ (plen p' ≤ length (array p'))%nat
  ∧ ∀ x, x ∈ harvested p' → x ∈ harvested p.
Proof.
  intros Hcap Hi. rewrite persistent_peers_spec by done. intros [= <- <-].
  assert (Hh : length (harvested p) = plen p).
  { unfold harvested, Go.view. cbn. rewrite length_take, drop_0. lia. }
  split; [done|]. split; [done|]. cbn [array plen]. split.
  - rewrite length_app, length_without_self, length_drop by lia. lia.
  - intros x. unfold harvested at 1, Go.view. cbn [Go.off Go.wlen array plen].
    rewrite drop_0.
    replace (plen p) with (length (without_self (harvested p) i) + 1)%nat at 1
      by (rewrite length_without_self; lia).
    rewrite take_app_add. intros [Hx|Hx]%elem_of_app.
    + by eapply without_self_subseteq.
    + unfold harvested, Go.view. cbn [Go.off Go.wlen]. rewrite drop_0.
      rewrite take_drop_commute in Hx.
      replace (plen p - 1 + 1)%nat with (plen p) in Hx by lia.
      by apply (subseteq_drop (plen p - 1) (take (plen p) (array p))).
Qed.

End StartStageInvariants.

Section StartAll.
Import tendermint.

Lemma length_harvested (p : peers_t) :
  (plen p ≤ length (array p))%nat → length (harvested p) = plen p.
Proof.
  intros Hcap. unfold harvested, Go.view. cbn. rewrite length_take, drop_0. lia.
Qed.

(** The start stage from any state of the shared [peers]. *)
Lemma start_all_keeps (order : list nat) : ∀ p : peers_t,
  (plen p ≤ length (array p))%nat →
  Forall (fun n => (n < plen p)%nat) order →
  ∃ l, start_all p order = Go.Ret l
       ∧ node <$> l = order
       ∧ Forall (fun s => length (peer_list s) = (plen p - 1)%nat
                          ∧ (∀ x, x ∈ peer_list s → x ∈ harvested p)
                          ∧ command s = start_command (peer_list s)) l
       ∧ (∀ n rest, order = n :: rest →
                    peer_list <$> head l = Some (without_self (harvested p) n)).
Proof.
  induction order as [|n rest IH]; intros p Hcap Hr; cbn [start_all].
  - exists []. split; [done|]. split; [done|]. split; [constructor|done].
  - apply Forall_cons in Hr as [Hn Hr].
    pose proof (persistent_peers_spec p n Hcap Hn) as E.
    destruct (persistent_peers_keeps p _ n _ Hcap Hn E) as (_ & Hlen & Hcap' & Hsub).
    rewrite E. unfold mbind, outcome_bind. cbn [Go.bind fst snd].
    set (p' := mkPeers _ _) in *.
    destruct (IH p' Hcap') as (l & -> & Hnodes & Hall & _).
    { by rewrite Hlen. }
    cbn [Go.bind]. eexists. split; [reflexivity|].
    split; [cbn; by rewrite Hnodes|]. split.
    + constructor.
      * cbn [peer_list command]. split; [|split; [|done]].
        -- rewrite length_without_self; rewrite length_harvested by done; [done|lia].
        -- apply without_self_subseteq.
      * eapply Forall_impl; [exact Hall|]. cbn beta.
        intros s (Hl & Hin & Hc). rewrite Hlen in Hl. split; [done|]. split; [|done].
        intros x Hx. by apply Hsub, Hin.
    + intros n' rest' [= <- <-]. done.
Qed.

End StartAll.

(** X24. The start stage returns in whatever order the workers run: a
    worker never leaves the bounds of [peers]. Every node is handed one
    peer less than were harvested and only peers that were harvested; the
    node whose worker runs first is handed the peers without its own. *)
Theorem start_stage_any_order (peers : list string) (order : list nat) :
  Forall (fun n => (n < length peers)%nat) order →
  ∃ l, tendermint.start_all (tendermint.peers_of peers) order = Go.Ret l
       ∧ tendermint.node <$> l = order
       ∧ Forall (fun s => length (tendermint.peer_list s) = (length peers - 1)%nat
                          ∧ (∀ x, x ∈ tendermint.peer_list s → x ∈ peers)
                          ∧ tendermint.command s
                            = tendermint.start_command (tendermint.peer_list s)) l
       ∧ (∀ n rest, order = n :: rest →
                    tendermint.peer_list <$> head l
                    = Some (tendermint.without_self peers n)).
Proof.
  intros Hr.
  assert (Hh : tendermint.harvested (tendermint.peers_of peers) = peers).
  { unfold tendermint.harvested, tendermint.peers_of, Go.view. cbn.
    rewrite drop_0. by apply take_ge. }
  destruct (start_all_keeps order (tendermint.peers_of peers)) as (l & E & Hn & Hall & Hfirst).
  { done. }
  { exact Hr. }
  rewrite Hh in Hall, Hfirst. exists l. done.
Qed.

Lemma start_stage_any_order_witness :
  ∃ l, tendermint.start_all (tendermint.peers_of samples.peers3) [2; 0; 1]%nat = Go.Ret l
       ∧ tendermint.node <$> l = [2; 0; 1]%nat
       ∧ Forall (fun s => length (tendermint.peer_list s) = 2%nat
                          ∧ (∀ x, x ∈ tendermint.peer_list s → x ∈ samples.peers3)
                          ∧ tendermint.command s
                            = tendermint.start_command (tendermint.peer_list s)) l
       ∧ (∀ n rest, [2; 0; 1]%nat = n :: rest →
                    tendermint.peer_list <$> head l
                    = Some (tendermint.without_self samples.peers3 n)).
Proof.
  apply (start_stage_any_order samples.peers3 [2; 0; 1]%nat).
  repeat constructor.
Defined.

Section QuoteFree.
Import Go.

Lemma quote_count_cons (c : Ascii.ascii) (s : string) :
  count_from "'" 0 (String c s)
  = ((if Ascii.eqb "'" c then 1 else 0) + count_from "'" 0 s)%nat.
Proof.
  cbn [count_from HasPrefix String.length Nat.sub].
  replace (HasPrefix s EmptyString) with true by (by destruct s).
  by destruct (Ascii.eqb "'" c).
Qed.

Lemma quote_count_app (a b : string) :
  count_from "'" 0 (a +:+ b) = (count_from "'" 0 a + count_from "'" 0 b)%nat.
Proof.
  induction a as [|c a IH]; [done|].
  change (String c a +:+ b) with (String c (a +:+ b)).
  rewrite !quote_count_cons, IH. lia.
Qed.

Lemma quote_count_Join (l : list string) :
  Forall (fun s => Count s "'" = 0%nat) l → Count (Join l ",") "'" = 0%nat.
Proof.
  unfold Count. induction l as [|x [|y l] IH]; intros Hall; [done|..].
  - by apply Forall_cons in Hall as [? _].
  - apply Forall_cons in Hall as [Hx Hall].
    change (Join (x :: y :: l) ",") with (x +:+ "," +:+ Join (y :: l) ",").
    rewrite !quote_count_app, Hx, (IH Hall). done.
Qed.

End QuoteFree.

(** X25. When no peer harvested holds a single quote, every command of
    the start stage passes the check of [DockerExecdLog], in whatever order
    the workers run: starting the nodes does not panic on it. *)
Theorem start_commands_pass_the_quote_check (peers : list string) (order : list nat)
    (l : list tendermint.started) :
  Forall (fun peer => Go.Count peer "'" = 0%nat) peers →
  Forall (fun n => (n < length peers)%nat) order →
  tendermint.start_all (tendermint.peers_of peers) order = Go.Ret l →
  Forall (fun s => ∀ node w,
            (ssh.logSanitizeAndStore node (tendermint.command s) w).1 = Go.Ret ()) l.
Proof.
  intros Hq Hr E.
  destruct (start_all_keeps order (tendermint.peers_of peers)) as (l' & E' & _ & Hall & _);
    [done|exact Hr|].
  rewrite E in E'. injection E' as <-.
  assert (Hh : tendermint.harvested (tendermint.peers_of peers) = peers).
  { unfold tendermint.harvested, tendermint.peers_of, Go.view. cbn.
    rewrite drop_0. by apply take_ge. }
  rewrite Hh in Hall. eapply Forall_impl; [exact Hall|]. cbn beta.
  intros s (_ & Hin & ->) node w.
  assert (Hzero : Go.Count (tendermint.start_command (tendermint.peer_list s)) "'" = 0%nat).
  { unfold tendermint.start_command, Go.Count. rewrite quote_count_app.
    pose proof (quote_count_Join (tendermint.peer_list s)) as HJ. unfold Go.Count in HJ.
    rewrite HJ; [done|].
    apply Forall_forall. intros x Hx. rewrite Forall_forall in Hq. by apply Hq, Hin. }
  unfold ssh.logSanitizeAndStore.
  pose proof (Count_quotes (tendermint.start_command (tendermint.peer_list s))) as HC.
  rewrite Hzero in HC |- *.
  replace (Go.Count (tendermint.start_command (tendermint.peer_list s)) "\'")
    with 0%nat by lia.
  done.
Qed.

Lemma start_commands_pass_the_quote_check_witness :
  ∃ l, tendermint.start_all (tendermint.peers_of samples.peers3) [0; 1; 2]%nat = Go.Ret l
       ∧ Forall (fun s => ∀ node w,
                   (ssh.logSanitizeAndStore node (tendermint.command s) w).1 = Go.Ret ()) l.
Proof.
  eexists. split; [reflexivity|].
  apply (start_commands_pass_the_quote_check samples.peers3 [0; 1; 2]%nat).
  - repeat constructor.
  - repeat constructor.
  - reflexivity.
Defined.

(** ** ssh.Client: copies, retries on a stopped build, connecting *)

(** X26. [Scp] panics on the empty source path, before it asks for a
    session. Any other source is copied from a path that begins with [/]
    or [./]: the source itself when it does, the source under
    [/tmp/<BuildID>/] otherwise. The copy asks no leave of the build
    state; with a session it answers what the copy answered and closes the
    session, without one it answers the error of [getSession] and closes
    nothing. *)
Theorem Scp_resolves_the_source (CopyPath : string → string → Go.error)
    (src dest : string) (w : ssh.World) :
  (src = EmptyString → ssh.Scp CopyPath src dest w = (Go.Panic "index out of range", w))
  ∧ (src ≠ EmptyString →
     ∃ p, ssh.Scp CopyPath src dest w = ssh.InternalScp CopyPath p dest w
          ∧ (Go.HasPrefix p "/" = true ∨ Go.HasPrefix p "./" = true)
          ∧ (p = src ∨ p = "/tmp/" +:+ state.BuildID (ssh.bs w) +:+ "/" +:+ src))
  ∧ (∀ p, ssh.session_err w = None →
          ssh.InternalScp CopyPath p dest w
          = (Go.Ret (CopyPath p dest), ssh.log ssh.EvClose (ssh.log (ssh.EvSession true) w)))
  ∧ (∀ p e, ssh.session_err w = Some e →
            ssh.InternalScp CopyPath p dest w
            = (Go.Ret (Some e), ssh.log (ssh.EvSession false) w)).
Proof.
  split; [|split; [|split]].
  - intros ->. reflexivity.
  - intros Hne. unfold ssh.Scp, ssh.scp_source.
    destruct (Go.HasPrefix src "./") eqn:Hdot; cbn [negb].
    + exists src. split; [done|]. split; [by right|by left].
    + destruct src as [|c src']; [done|].
      destruct (Ascii.eqb_spec c "/"%char) as [->|Hc]; cbn [negb].
      * exists (String "/" src'). split; [done|]. split; [|by left].
        left. by destruct src'.
      * eexists. split; [reflexivity|]. split; [by left|by right].
  - intros p Hs. unfold ssh.InternalScp, ssh.getSession. by rewrite Hs.
  - intros p e Hs. unfold ssh.InternalScp, ssh.getSession. by rewrite Hs.
Qed.

Lemma Scp_resolves_the_source_witness :
  ∃ p, ssh.Scp (fun _ _ => None) "genesis.json" "/home/appo/genesis.json" samples.world_stopped
       = ssh.InternalScp (fun _ _ => None) p "/home/appo/genesis.json" samples.world_stopped
       ∧ (Go.HasPrefix p "/" = true ∨ Go.HasPrefix p "./" = true)
       ∧ (p = "genesis.json" ∨ p = "/tmp/build/genesis.json").
Proof.
  apply (proj1 (proj2 (Scp_resolves_the_source (fun _ _ => None) "genesis.json"
                         "/home/appo/genesis.json" samples.world_stopped))).
  discriminate.
Defined.

Section StoppedRetries.
Import ssh.

Lemma KeepTryDockerExecAll_loop_stopped (node : Z) (commands : list string) :
  ∀ (out : list string) (w : World),
  state.Stop (bs w) = true →
  KeepTryDockerExecAll_loop node commands out w
  = (Go.Ret (match state.GetError (bs w), commands with
             | Some e, _ :: _ => (None, Some e)
             | _, _ => (Some (out ++ replicate (length commands) EmptyString), None)
             end), w).
Proof.
  induction commands as [|command rest IH]; intros out w Hs;
    cbn [KeepTryDockerExecAll_loop].
  - cbn. rewrite app_nil_r. by destruct (state.GetError (bs w)).
  - unfold KeepTryRun. rewrite Hs.
    destruct (state.GetError (bs w)) as [e|] eqn:He; [done|].
    rewrite IH, He by done. cbn [length replicate].
    by rewrite <- app_assoc.
Qed.

End StoppedRetries.

(** X27. On a build that was stopped, [KeepTryDockerExecAll] asks for no
    session and runs nothing. When the build carries an error it returns
    that error, and no outputs, for any commands at all; when the build was
    stopped without an error it returns a nil error and one empty output
    for every command. *)
Theorem KeepTryDockerExecAll_on_a_stopped_build (node : Z) (commands : list string)
    (w : ssh.World) :
  state.Stop (ssh.bs w) = true →
  ssh.KeepTryDockerExecAll node commands w
  = (Go.Ret (match state.GetError (ssh.bs w), commands with
             | Some e, _ :: _ => (None, Some e)
             | _, _ => (Some (replicate (length commands) EmptyString), None)
             end), w).
Proof.
  intros Hs. unfold ssh.KeepTryDockerExecAll.
  by rewrite KeepTryDockerExecAll_loop_stopped.
Qed.

Lemma KeepTryDockerExecAll_on_a_stopped_build_witness :
  ssh.KeepTryDockerExecAll 0 ["tendermint init"; "tendermint show_node_id"]
    samples.world_aborted
  = (Go.Ret (Some [EmptyString; EmptyString], None), samples.world_aborted).
Proof.
  exact (KeepTryDockerExecAll_on_a_stopped_build 0
           ["tendermint init"; "tendermint show_node_id"] samples.world_aborted eq_refl).
Defined.

Section Connecting.
Import ssh.

Lemma redial_spec (d : Dialer) (n : nat) : ∀ (i : nat) (r : nat + string) (k : nat),
  redial d n i (Dial d i) = (r, k) →
  (S i ≤ k ≤ S i + n)%nat
  ∧ r = Dial d (k - 1)
  ∧ (∀ j, (i ≤ j < k - 1)%nat → ∃ e, Dial d j = inr e)
  ∧ ((∃ e, r = inr e) → k = (S i + n)%nat).
Proof.
  induction n as [|n IH]; intros i r k; cbn [redial].
  - intros E. assert (r = Dial d i ∧ k = S i) as [-> ->].
    { destruct (Dial d i); by injection E as <- <-. }
    split; [lia|]. split; [f_equal; lia|]. split; [intros j; lia|]. intros _; lia.
  - destruct (Dial d i) as [c|e] eqn:Ei.
    + intros [= <- <-]. split; [lia|].
      split; [by rewrite Nat.sub_succ, Nat.sub_0_r|].
      split; [intros j; lia|]. by intros [e [=]].
    + intros E. destruct (IH (S i) r k E) as (Hk & Hr & Hfail & Hlast).
      split; [lia|]. split; [done|]. split.
      * intros j Hj. destruct (decide (j = i)) as [->|Hne]; [eauto|].
        apply Hfail. lia.
      * intros He. rewrite (Hlast He). lia.
Qed.

End Connecting.

(** X28. [sshConnect] dials not at all when the key cannot be read or
    parsed. Otherwise it dials at least once and at most eleven times, every
    dial but the last has failed, and it answers what the last dial
    answered: an error only after the eleventh. *)
Theorem sshConnect_dials_at_most_eleven_times (d : ssh.Dialer) (r : nat + string) (k : nat) :
  ssh.sshConnect d = (r, k) →
  ((∀ key, ssh.ReadFile d = inl key → ssh.ParsePrivateKey d key ≠ None) → k = 0%nat)
  ∧ (∀ key, ssh.ReadFile d = inl key → ssh.ParsePrivateKey d key = None →
            (1 ≤ k ≤ 11)%nat
            ∧ r = ssh.Dial d (k - 1)
            ∧ (∀ j, (j < k - 1)%nat → ∃ e, ssh.Dial d j = inr e)
            ∧ ((∃ e, r = inr e) → k = 11%nat)).
Proof.
  unfold ssh.sshConnect. intros E. split.
  - intros Hkey. destruct (ssh.ReadFile d) as [key|err]; [|by injection E].
    specialize (Hkey key eq_refl).
    destruct (ssh.ParsePrivateKey d key); [by injection E|done].
  - intros key Hr Hp. rewrite Hr, Hp in E.
    destruct (redial_spec d 10 0 r k E) as (Hk & Hd & Hfail & Hlast).
    split; [lia|]. split; [done|]. split.
    + intros j Hj. apply Hfail. lia.
    + intros He. rewrite (Hlast He). done.
Qed.

Lemma sshConnect_dials_at_most_eleven_times_witness :
  (1 ≤ 3 ≤ 11)%nat
  ∧ (inl 7%nat : nat + string) = ssh.Dial samples.dialer_third (3 - 1)
  ∧ (∀ j, (j < 3 - 1)%nat → ∃ e, ssh.Dial samples.dialer_third j = inr e)
  ∧ ((∃ e, (inl 7%nat : nat + string) = inr e) → 3%nat = 11%nat).
Proof.
  exact (proj2 (sshConnect_dials_at_most_eleven_times samples.dialer_third (inl 7%nat) 3
                  eq_refl) "key" eq_refl eq_refl).
Defined.

(** ** util: listing a directory *)

Section Listing.
Import util.


Lemma ends_with_slash_app (s : string) : ends_with_slash (s +:+ "/") = true.
Proof.
  induction s as [|c s IH]; [done|].
  change (String c s +:+ "/") with (String c (s +:+ "/")).
  cbn [ends_with_slash]. rewrite IH.
  destruct s; done.
Qed.

Lemma with_slash_ends (s : string) :
  ends_with_slash s = true → with_slash s = Go.Ret s.
Proof. destruct s as [|c s]; [done|]. unfold with_slash. by intros ->. Qed.

Lemma with_slash_spec (dir : string) :
  dir ≠ EmptyString →
  ∃ dir', with_slash dir = Go.Ret dir'
          ∧ ends_with_slash dir' = true
          ∧ (dir' = dir ∨ dir' = dir +:+ "/").
Proof.
  intros Hne. destruct dir as [|c s]; [done|]. unfold with_slash.
  destruct (ends_with_slash (String c s)) eqn:E; cbn [negb].
  - exists (String c s). by auto.
  - exists (String c s +:+ "/"). split; [done|]. split; [apply ends_with_slash_app|by right].
Qed.



Lemma below_slash (dir name : string) :
  with_slash (dir +:+ name +:+ "/") = Go.Ret (dir +:+ name +:+ "/").
Proof.
  apply with_slash_ends. rewrite <- string_app_assoc. apply ends_with_slash_app.
Qed.




End Listing.




